(** * DMArchiver: the crawl / parse / resume core of [dmarchiver/core.py]

    A shallow embedding of [Conversation.write_conversation],
    [Crawler._get_latest_tweet_id], [Crawler._process_tweets],
    [Crawler.get_threads] and [Crawler.crawl], and the properties of the
    transcript they maintain.

    Conventions.
    - A Python [str] is a Rocq [string] holding its UTF-8 bytes; [encode] and
      [decode] are then the identity, and the order of two strings is the
      order of their code points.  [str.strip] and [int] are modelled on
      ASCII input (Python also accepts non-ASCII spaces and digits).
    - The JSON object [items] is a [gmap string string]; the [OrderedDict]s
      are association lists in insertion order.
    - What [lxml] and the network do to one raw fragment is a parameter, the
      [view] of the fragment; the control flow around it is the source's.
    - Exceptions are values of [exn]; a function that can raise returns a
      [result]. *)

From Stdlib Require Import ZArith Ascii String List Lia DecimalString.
From stdpp Require Import base option list strings gmap sorting.

Local Open Scope Z_scope.

(** ** Exceptions *)

Inductive exn : Type :=
  | KeyError (key : string)
  | IndexError
  | AttributeError
  | TypeError
  | ValueError
  | OverflowError
  | IOError
  | Exception (msg : string)
  | KeyboardInterrupt.

Inductive result (A : Type) : Type :=
  | Ok (a : A)
  | Raise (e : exn).
Arguments Ok {A} a.
Arguments Raise {A} e.

Global Instance result_ret : MRet result := fun _ a => Ok a.
Global Instance result_bind : MBind result := fun _ _ k r =>
  match r with
  | Ok a => k a
  | Raise e => Raise e
  end.

Global Instance result_fmap : FMap result := fun _ _ f r =>
  match r with
  | Ok a => Ok (f a)
  | Raise e => Raise e
  end.

(** ** Strings as Python uses them *)

Module Py.

(** [str.isspace] on one ASCII character: tab, line feed, vertical tab,
    form feed, carriage return, the four separators 28..31, and space. *)
Definition isspace (c : ascii) : bool :=
  let n := nat_of_ascii c in
  ((9 <=? n) && (n <=? 13) || (28 <=? n) && (n <=? 32))%nat.

Fixpoint lstrip (s : string) : string :=
  match s with
  | String c s' => if isspace c then lstrip s' else s
  | EmptyString => EmptyString
  end.

(** [rstrip]: a character is kept when it is not a space or when something
    is kept after it. *)
Fixpoint rstrip (s : string) : string :=
  match s with
  | String c s' =>
      match rstrip s' with
      | EmptyString => if isspace c then EmptyString else String c EmptyString
      | r => String c r
      end
  | EmptyString => EmptyString
  end.

Definition strip (s : string) : string := rstrip (lstrip s).

Definition newline : ascii := ascii_of_nat 10.
Definition cr : ascii := ascii_of_nat 13.
Definition nl : string := String newline EmptyString.

(** [s.replace('\n', sep)]. *)
Fixpoint replace_nl (sep : string) (s : string) : string :=
  match s with
  | String c s' =>
      if Ascii.eqb c newline then sep +:+ replace_nl sep s'
      else String c (replace_nl sep s')
  | EmptyString => EmptyString
  end.

(** [s[:-1]]. *)
Fixpoint drop_last (s : string) : string :=
  match s with
  | String c EmptyString => EmptyString
  | String c s' => String c (drop_last s')
  | EmptyString => EmptyString
  end.

(** [file.readlines()] of a file opened in binary mode: the content cut
    after every line feed; a last line without line feed is kept. *)
Fixpoint readlines (s : string) : list string :=
  match s with
  | String c s' =>
      if Ascii.eqb c newline then String c EmptyString :: readlines s'
      else
        match readlines s' with
        | [] => [String c EmptyString]
        | line :: lines => String c line :: lines
        end
  | EmptyString => []
  end.

(** [b''.join(lines)]. *)
Definition join (lines : list string) : string :=
  fold_right String.append EmptyString lines.

(** [lines[:-1]]. *)
Definition but_last {A} (l : list A) : list A := removelast l.

Definition isdigit (c : ascii) : bool :=
  let n := nat_of_ascii c in ((48 <=? n) && (n <=? 57))%nat.

Definition digit_val (c : ascii) : Z := Z.of_nat (nat_of_ascii c) - 48.

(** The digits of an [int] literal: groups of digits separated by single
    underscores. *)
Fixpoint int_digits (acc : Z) (after_digit : bool) (s : string) : option Z :=
  match s with
  | String c s' =>
      if isdigit c then int_digits (10 * acc + digit_val c) true s'
      else if Ascii.eqb c "_"%char
           then (if after_digit then int_digits acc false s' else None)
           else None
  | EmptyString => if after_digit then Some acc else None
  end.

(** The white space that [int] skips before and after the literal: tab,
    line feed, vertical tab, form feed, carriage return and space.  The
    separators 28..31, which [str.strip] removes, are no part of it. *)
Definition isspace_int (c : ascii) : bool :=
  let n := nat_of_ascii c in
  ((9 <=? n) && (n <=? 13) || (n =? 32))%nat.

Fixpoint lstrip_int (s : string) : string :=
  match s with
  | String c s' => if isspace_int c then lstrip_int s' else s
  | EmptyString => EmptyString
  end.

Fixpoint rstrip_int (s : string) : string :=
  match s with
  | String c s' =>
      match rstrip_int s' with
      | EmptyString => if isspace_int c then EmptyString else String c EmptyString
      | r => String c r
      end
  | EmptyString => EmptyString
  end.

(** [int(x)] for [x] a [str] or [None]: [TypeError] on [None],
    [ValueError] on a string that is no decimal literal. *)
Definition int (x : option string) : result Z :=
  match x with
  | None => Raise TypeError
  | Some s =>
      let body (neg : bool) (t : string) :=
        match int_digits 0 false t with
        | Some n => Ok (if neg then - n else n)
        | None => Raise ValueError
        end in
      match rstrip_int (lstrip_int s) with
      | String "-" t => body true t
      | String "+" t => body false t
      | t => body false t
      end
  end.

(** ['{0}'.format(x)] for [x] a [str] or [None]. *)
Definition fmt (x : option string) : string :=
  match x with
  | Some s => s
  | None => "None"
  end.

(** Decimal rendering of a non-negative number, and the same left-padded
    with zeros. *)
Definition dec (n : Z) : string := NilZero.string_of_uint (N.to_uint (Z.to_N n)).

Fixpoint zeros (k : nat) : string :=
  match k with
  | O => EmptyString
  | S k' => String "0" (zeros k')
  end.

Definition pad (width : nat) (n : Z) : string :=
  let d := dec n in zeros (width - String.length d) +:+ d.

(** The civil date of a day number counted from 1970-01-01. *)
Definition civil_from_days (z : Z) : Z * Z * Z :=
  let z := z + 719468 in
  let era := z / 146097 in
  let doe := z - era * 146097 in
  let yoe := (doe - doe / 1460 + doe / 36524 - doe / 146096) / 365 in
  let doy := doe - (365 * yoe + yoe / 4 - yoe / 100) in
  let mp := (5 * doy + 2) / 153 in
  let d := doy - (153 * mp + 2) / 5 + 1 in
  let m := if mp <? 10 then mp + 3 else mp - 9 in
  let y := yoe + era * 400 + (if m <=? 2 then 1 else 0) in
  (y, m, d).

(** A local date and time: the fields of a [datetime] that [strftime]
    reads here. *)
Record datetime : Type := {
  year : Z; month : Z; day : Z;
  second_of_day : Z
}.

(** [datetime.datetime.fromtimestamp(t)] for an [int], where the local zone
    is [offset] seconds east of UTC.  [OverflowError] when [t] does not fit
    the 64 bits of [time_t]; [OSError] when [localtime] fails, which it does
    when the year does not fit the [int] of [tm_year]; [ValueError] when
    the year is outside 1..9999, and also on the first day of the year 1,
    because the time one day before [t] is converted as well, to detect a
    repeated hour. *)
Definition fromtimestamp (offset : Z) (t : Z) : result datetime :=
  if negb ((- 2 ^ 63 <=? t) && (t <? 2 ^ 63)) then Raise OverflowError
  else
    let local := t + offset in
    let '(y, m, d) := civil_from_days (local / 86400) in
    if negb ((- 2 ^ 31 <=? y - 1900) && (y - 1900 <? 2 ^ 31)) then Raise IOError
    else if negb ((1 <=? y) && (y <=? 9999)) then Raise ValueError
    else
      let '(y_before, _, _) := civil_from_days ((local - 86400) / 86400) in
      if y_before <? 1 then Raise ValueError
      else Ok {| year := y; month := m; day := d; second_of_day := local mod 86400 |}.

(** [datetime.datetime.fromtimestamp(t).strftime('%Y-%m-%d %H:%M:%S')]; the
    year is written as the C library writes it, without padding. *)
Definition strftime_iso (offset : Z) (t : Z) : result string :=
  dt ← fromtimestamp offset t;
  let sod := second_of_day dt in
  Ok (dec (year dt) +:+ "-" +:+ pad 2 (month dt) +:+ "-" +:+ pad 2 (day dt) +:+ " " +:+
      pad 2 (sod / 3600) +:+ ":" +:+ pad 2 (sod mod 3600 / 60) +:+ ":" +:+
      pad 2 (sod mod 60)).

End Py.

(** ** The platform: [os.linesep] and the local time zone *)

Inductive os_name : Type := posix | nt.

Record platform : Type := {
  os : os_name;
  utcoffset : Z -> Z   (* seconds east of UTC, at a given epoch second *)
}.

Definition linesep (p : platform) : string :=
  match os p with
  | posix => Py.nl
  | nt => String Py.cr Py.nl
  end.

Definition utc_posix : platform := {| os := posix; utcoffset := fun _ => 0 |}.

(** ** The data model *)

Inductive MediaType : Type := image | gif | video | sticker | unknown.

Definition MediaType_name (t : MediaType) : string :=
  match t with
  | image => "image"
  | gif => "gif"
  | video => "video"
  | sticker => "sticker"
  | unknown => "unknown"
  end.

(** The four element classes, with the fields [__str__] reads; a field read
    with [element.get] may be [None]. *)
Inductive element : Type :=
  | DirectMessageText (_text : string)
  | DirectMessageTweet (_tweet_url : string)
  | DirectMessageCard (_card_name : option string) (_expanded_url : string)
  | DirectMessageMedia (_media_url _media_preview_url : string)
                       (_media_alt : option string) (_media_type : MediaType).

(** [__str__] of each element class. *)
Definition element_str (e : element) : string :=
  match e with
  | DirectMessageText t => t
  | DirectMessageTweet u => "[Tweet] " +:+ u
  | DirectMessageCard n u => "[Card-" +:+ Py.fmt n +:+ "] " +:+ u
  | DirectMessageMedia u p a t =>
      if negb (String.eqb p "")
      then "[Media-" +:+ MediaType_name t +:+ "] " +:+ u +:+ " [Media-preview] " +:+ p
      else if negb (match a with Some s => String.eqb s "" | None => false end)
      then "[Media-" +:+ MediaType_name t +:+ "] [" +:+ Py.fmt a +:+ "] " +:+ u
      else "[Media-" +:+ MediaType_name t +:+ "] " +:+ u
  end.

(** What [_process_tweets] stores under a message id: a [DirectMessage], a
    [DMConversationEntry], or the initial value [''] of [message] when
    neither container matched. *)
Inductive message : Type :=
  | DirectMessage (tweet_id : string) (time_stamp : option string)
                  (author : option string) (elements : list element)
  | DMConversationEntry (tweet_id : string) (_text : string)
  | EmptyStr.

(** [DMConversationEntry.__init__]: the text is stripped. *)
Definition new_DMConversationEntry (tweet_id text : string) : message :=
  DMConversationEntry tweet_id (Py.strip text).

(** [message.tweet_id]; a [str] has no such attribute. *)
Definition get_tweet_id (m : message) : result string :=
  match m with
  | DirectMessage i _ _ _ => Ok i
  | DMConversationEntry i _ => Ok i
  | EmptyStr => Raise AttributeError
  end.

(** ** Ordered dictionaries *)

(** A [collections.OrderedDict] with string keys, in insertion order. *)
Definition odict (V : Type) : Type := list (string * V).

(** [d[k] = v]: a key already present keeps its place and takes the new
    value, a new key goes to the end. *)
Fixpoint od_set {V} (k : string) (v : V) (d : odict V) : odict V :=
  match d with
  | [] => [(k, v)]
  | (k', v') :: d' =>
      if String.eqb k' k then (k, v) :: d' else (k', v') :: od_set k v d'
  end.

Definition od_keys {V} (d : odict V) : list string := map fst d.

(** ** [Conversation.write_conversation] *)

Section WriteConversation.

Variable p : platform.

(** [file_buffer += '{0} '.format(element).replace('\n', os.linesep)] *)
Definition write_element (file_buffer : string) (e : element) : string :=
  file_buffer +:+ Py.replace_nl (linesep p) (element_str e +:+ " ").

(** One turn of the loop over [items]. *)
Definition write_tweet (file_buffer : string) (m : message) : result string :=
  match m with
  | DirectMessage _ time_stamp author elements =>
      t ← Py.int time_stamp;
      irc_formatted_date ← Py.strftime_iso (utcoffset p t) t;
      let file_buffer :=
        file_buffer +:+ "[" +:+ irc_formatted_date +:+ "] <" +:+ Py.fmt author +:+ "> " in
      let file_buffer := fold_left write_element elements file_buffer in
      let file_buffer := Py.drop_last file_buffer in
      Ok (file_buffer +:+ linesep p)
  | DMConversationEntry _ text =>
      Ok (file_buffer +:+ "[DMConversationEntry] " +:+ text +:+ linesep p)
  | EmptyStr => Ok file_buffer
  end.

Fixpoint write_tweets (file_buffer : string) (items : list (string * message))
  : result string :=
  match items with
  | [] => Ok file_buffer
  | tweet :: items' =>
      file_buffer ← write_tweet file_buffer tweet.2;
      write_tweets file_buffer items'
  end.

(** The transcript is one file: [None] when it does not exist, else its
    content.  The result is the file after the call. *)
Definition write_conversation (tweets : odict message) (file : option string)
    (max_id : string) : result (option string) :=
  let items := reverse tweets in
  file_buffer ← write_tweets "" items;
  match last items with
  | None => Ok file                      (* len(items) == 0 *)
  | Some tweet =>                        (* the loop variable after the loop *)
      latest ← get_tweet_id tweet.2;
      let file_buffer := file_buffer +:+ "[LatestTweetID] " +:+ latest +:+ linesep p in
      if String.eqb max_id "0"
      then Ok (Some file_buffer)         (* mode "wb" *)
      else
        match file with
        | None => Raise IOError          (* open(filename, 'rb+') *)
        | Some content =>
            let lines := Py.but_last (Py.readlines content) in
            Ok (Some (Py.join lines +:+ file_buffer))   (* mode "ab" *)
        end
  end.

End WriteConversation.

(** ** [Crawler._get_latest_tweet_id] *)

Fixpoint strip_prefix (pre s : string) : option string :=
  match pre, s with
  | EmptyString, _ => Some s
  | String a pre', String b s' =>
      if Ascii.eqb a b then strip_prefix pre' s' else None
  | String _ _, EmptyString => None
  end.

Fixpoint take_digits (s : string) : string :=
  match s with
  | String c s' => if Py.isdigit c then String c (take_digits s') else EmptyString
  | EmptyString => EmptyString
  end.

(** [re.match(r"^\[LatestTweetID\] ([0-9]+)", line)] and its [group(1)]. *)
Definition match_latest (line : string) : option string :=
  match strip_prefix "[LatestTweetID] " line with
  | Some rest =>
      match take_digits rest with
      | EmptyString => None
      | digits => Some digits
      end
  | None => None
  end.

Definition _get_latest_tweet_id (file : option string) : result string :=
  match file with
  | None => Ok "0"                         (* except IOError *)
  | Some content =>
      match last (Py.readlines content) with
      | None => Raise IndexError           (* lines[-1] of an empty file *)
      | Some line =>
          match match_latest line with
          | Some latest => Ok latest
          | None => Ok "0"
          end
      end
  end.

(** ** [Crawler._process_tweets] *)

(** What the body of the [for dm_element in dm_elements] loop does with one
    content node. *)
Inductive element_view : Type :=
  | Parsed (e : element)          (* a [_parse_dm_*] call returned [e] *)
  | UnknownElement                (* 'Unknown element type': nothing appended *)
  | ElementRaises (e : exn).

(** What the [try] body does with one raw fragment, up to the element loop. *)
Inductive fragment_view : Type :=
  | Raises (e : exn)              (* before the element loop *)
  | Message (author time_stamp : option string) (dm_elements : list element_view)
  | ConversationEntry (text : string)
  | NoContainer.                  (* neither [if] nor [elif]: [message] stays [''] *)

Definition descending (a b : string * string) : Prop := String.le b.1 a.1.

Global Instance descending_dec : RelDecision descending.
Proof. intros a b. unfold descending. apply _. Defined.

(** [sorted(tweets, reverse=True)], each key with its [tweets[tweet_id]]. *)
Definition ordered_tweets (tweets : gmap string string) : list (string * string) :=
  merge_sort descending (map_to_list tweets).

Section ProcessTweets.

Variable view : string -> string -> fragment_view.

(** The element loop: [Ok] with the elements appended, or the exception
    that left it. *)
Fixpoint parse_elements (dm_elements : list element_view) (elements : list element)
  : result (list element) :=
  match dm_elements with
  | [] => Ok elements
  | Parsed e :: rest => parse_elements rest (elements ++ [e])
  | UnknownElement :: rest => parse_elements rest elements
  | ElementRaises e :: _ => Raise e
  end.

(** The [try] body. *)
Definition parse_fragment (tweet_id value : string) : result message :=
  match view tweet_id value with
  | Raises e => Raise e
  | Message dm_author time_stamp dm_elements =>
      elements ← parse_elements dm_elements [];
      Ok (DirectMessage tweet_id time_stamp dm_author elements)
  | ConversationEntry text =>
      Ok (new_DMConversationEntry tweet_id (Py.strip text))
  | NoContainer => Ok EmptyStr
  end.

(** The entry of the bare [except:] clause. *)
Definition parse_error_entry (tweet_id value : string) : message :=
  new_DMConversationEntry tweet_id
    ("[ParseError] Parsing of tweet '" +:+ tweet_id +:+ "' failed. Raw HTML: " +:+ value).

(** The [for tweet_id in ordered_tweets] loop; the boolean is
    [self._max_id_found]. *)
Fixpoint process_loop (max_id : string) (ordered : list (string * string))
    (conversation_set : odict message) (max_id_found : bool)
  : odict message * bool :=
  match ordered with
  | [] => (conversation_set, max_id_found)
  | (tweet_id, value) :: rest =>
      if String.eqb tweet_id max_id then (conversation_set, true)
      else
        match parse_fragment tweet_id value with
        | Raise KeyboardInterrupt => (conversation_set, true)
        | Raise _ =>
            process_loop max_id rest
              (od_set tweet_id (parse_error_entry tweet_id value) conversation_set)
              max_id_found
        | Ok message =>
            process_loop max_id rest (od_set tweet_id message conversation_set)
              max_id_found
        end
  end.

Definition _process_tweets (tweets : gmap string string) (max_id : string)
    (max_id_found : bool) : odict message * bool :=
  process_loop max_id (ordered_tweets tweets) [] max_id_found.

End ProcessTweets.

(** ** The remote side *)

(** Of the console output, the lines that [crawl] and [get_threads] print
    on their error and termination paths. *)
Inductive console : Type :=
  | error_occured                 (* 'An error occured during the parsing ...' *)
  | account_locked_guidance       (* 'DMArchiver was identified as suspicious ...' *)
  | error_details (code : Z) (msg : string)
  | unable_to_parse (key : string)   (* 'Unable to fully parse the list ...' *)
  | begin_of_thread               (* 'Begin of thread reached' *)
  | interruption_requested.       (* '... interruption requested. Writing this conversation.' *)

(** The JSON body of a conversation page: each field is present or not. *)
Record conversation_json : Type := {
  errors : option (list (Z * string));     (* (code, message) *)
  max_entry_id : option string;
  min_entry_id : option string;
  items : option (gmap string string)
}.

(** One turn of a pagination loop as the environment decides it: what
    [session.get(...)] followed by [response.json()] gives, and how the
    [time.sleep(delay)] that ends the turn goes. *)
Record turn (J : Type) : Type := {
  response : result J;
  sleep : result unit
}.
Arguments response {J} t.
Arguments sleep {J} t.

(** The lines printed for an [errors] array, and the exception that follows. *)
Definition report_errors (errs : list (Z * string)) (stop : string)
  : list console * exn :=
  match errs with
  | [] => ([error_occured], IndexError)            (* json['errors'][0] *)
  | (code, msg) :: _ =>
      (([error_occured] ++
        (if code =? 326 then [account_locked_guidance] else []) ++
        [error_details code msg])%list,
       Exception stop)
  end.

(** ** [Crawler.crawl] *)

Record crawl_state : Type := {
  conversation : odict message;            (* conversation.tweets *)
  payload : option string;                 (* payload['max_entry_id'], if set *)
  requests : list (option string);         (* the payloads sent so far *)
  max_id_found : bool;                     (* self._max_id_found *)
  stdout : list console
}.

(** How the [try: while ...] statement is left. *)
Inductive loop_exit : Type :=
  | Left (st : crawl_state)                (* execution goes on after the [try] *)
  | Propagated (e : exn) (st : crawl_state)   (* an exception leaves [crawl] *)
  | Starved (st : crawl_state).            (* the loop asks for a turn the script lacks *)

Definition stop_tweets : string :=
  "Stopping execution due to parsing error while retrieving the tweets.".

(** The state in which [crawl] enters its loop; the flag is an attribute of
    the crawler, [False] unless an earlier call left it set. *)
Definition fresh_state (max_id_found0 : bool) : crawl_state :=
  {| conversation := []; payload := None; requests := [];
     max_id_found := max_id_found0; stdout := [] |}.

Section Crawl.

Variable p : platform.
Variable view : string -> string -> fragment_view.

Definition say (st : crawl_state) (lines : list console) : crawl_state :=
  {| conversation := conversation st; payload := payload st;
     requests := requests st; max_id_found := max_id_found st;
     stdout := (stdout st ++ lines) |}.

(** [for tweet_id in conversation_set: conversation.tweets[tweet_id] = ...] *)
Definition append_conversation (tweets conversation_set : odict message)
  : odict message :=
  fold_left (fun d kv => od_set kv.1 kv.2 d) conversation_set tweets.

Fixpoint crawl_loop (max_id : string) (script : list (turn conversation_json))
    (st : crawl_state) : loop_exit :=
  if max_id_found st then Left st
  else
    match script with
    | [] => Starved st
    | t :: script' =>
        let st := {| conversation := conversation st; payload := payload st;
                     requests := (requests st ++ [payload st]);
                     max_id_found := max_id_found st; stdout := stdout st |} in
        match response t with
        | Raise KeyboardInterrupt => Left (say st [interruption_requested])
        | Raise e => Propagated e st
        | Ok json =>
            match errors json with
            | Some errs =>
                let (lines, e) := report_errors errs stop_tweets in
                Propagated e (say st lines)
            | None =>
                match max_entry_id json with
                | None => Left (say st [begin_of_thread])
                | Some _ =>
                    match min_entry_id json with
                    | None => Propagated (KeyError "min_entry_id") st
                    | Some cursor =>
                        match items json with
                        | None => Propagated (KeyError "items") st
                        | Some tweets =>
                            let (conversation_set, found) :=
                              _process_tweets view tweets max_id (max_id_found st) in
                            let st :=
                              {| conversation :=
                                   append_conversation (conversation st) conversation_set;
                                 payload := Some cursor;
                                 requests := requests st;
                                 max_id_found := found;
                                 stdout := stdout st |} in
                            match sleep t with
                            | Raise KeyboardInterrupt =>
                                Left (say st [interruption_requested])
                            | Raise e => Propagated e st
                            | Ok _ => crawl_loop max_id script' st
                            end
                        end
                    end
                end
            end
        end
    end.

(** How a call of [crawl] ends, with [raw_output] off.  After a write-back
    that returns, [crawl] sets [_max_id_found] back to [False]. *)
Inductive crawl_outcome : Type :=
  | WroteBack (st : crawl_state) (max_id : string) (file' : result (option string))
      (* [write_conversation] was called on [conversation st] and [max_id];
         [file'] is the transcript after it, or what it raised *)
  | Aborted (e : exn) (st : option crawl_state)
      (* [e] left [crawl] before [write_conversation] was called *)
  | Unfinished (st : crawl_state).
      (* the script ends before the run does *)

Definition crawl (file : option string) (script : list (turn conversation_json))
    (max_id_found0 : bool) : crawl_outcome :=
  match _get_latest_tweet_id file with
  | Raise e => Aborted e None
  | Ok max_id =>
      match crawl_loop max_id script (fresh_state max_id_found0) with
      | Left st => WroteBack st max_id (write_conversation p (conversation st) file max_id)
      | Propagated e st => Aborted e (Some st)
      | Starved st => Unfinished st
      end
  end.

End Crawl.

(** ** [Crawler.get_threads] *)

Section GetThreads.

Variable thread : Type.

(** The object under ['trusted']. *)
Record trusted_json : Type := {
  threads : option (list thread);
  has_more : option bool;
  trusted_min_entry_id : option string
}.

(** The body of a thread-list response: [json['inner']['trusted']] and
    [json['trusted']], each present or not. *)
Record threads_json : Type := {
  threads_errors : option (list (Z * string));
  inner_trusted : option trusted_json;
  trusted : option trusted_json
}.

Record threads_state : Type := {
  collected : list thread;               (* threads *)
  first_request : bool;
  threads_requests : nat;
  threads_stdout : list console
}.

Definition stop_conversations : string :=
  "Stopping execution due to parsing error while retrieving the conversations".

(** The body of the [try]: the threads after [threads += ...], and whether
    the loop goes on; [KeyError] when a key is missing. *)
Definition read_envelope (key : string) (envelope : option trusted_json)
    (collected : list thread) : list thread * result bool :=
  match envelope with
  | None => (collected, Raise (KeyError key))
  | Some t =>
      match threads t with
      | None => (collected, Raise (KeyError "threads"))
      | Some ths =>
          let collected := (collected ++ ths) in
          match has_more t with
          | None => (collected, Raise (KeyError "has_more"))
          | Some false => (collected, Ok false)
          | Some true =>
              match trusted_min_entry_id t with
              | None => (collected, Raise (KeyError "min_entry_id"))
              | Some _ => (collected, Ok true)
              end
          end
      end
  end.

Inductive threads_outcome : Type :=
  | Returned (st : threads_state)
  | Raised (e : exn) (st : threads_state)
  | Waiting (st : threads_state).

Fixpoint get_threads_loop (script : list (turn threads_json)) (st : threads_state)
  : threads_outcome :=
  match script with
  | [] => Waiting st
  | t :: script' =>
      let sent := S (threads_requests st) in
      match response t with
      | Raise e =>
          Raised e {| collected := collected st; first_request := first_request st;
                      threads_requests := sent; threads_stdout := threads_stdout st |}
      | Ok json =>
          match threads_errors json with
          | Some errs =>
              let (lines, e) := report_errors errs stop_conversations in
              Raised e {| collected := collected st; first_request := first_request st;
                          threads_requests := sent;
                          threads_stdout := (threads_stdout st ++ lines) |}
          | None =>
              let (collected', more) :=
                if first_request st
                then read_envelope "trusted" (trusted json) (collected st)
                else read_envelope "inner" (inner_trusted json) (collected st) in
              let st' lines :=
                {| collected := collected'; first_request := true;
                   threads_requests := sent;
                   threads_stdout := (threads_stdout st ++ lines) |} in
              match more with
              | Raise (KeyError key) => Returned (st' [unable_to_parse key])
              | Raise e => Raised e (st' [])
              | Ok false => Returned (st' [])
              | Ok true =>
                  match sleep t with
                  | Raise e => Raised e (st' [])
                  | Ok _ => get_threads_loop script' (st' [])
                  end
              end
          end
      end
  end.

Definition get_threads (script : list (turn threads_json)) : threads_outcome :=
  get_threads_loop script
    {| collected := []; first_request := false; threads_requests := 0;
       threads_stdout := [] |}.

End GetThreads.

Arguments threads {thread} t.
Arguments has_more {thread} t.
Arguments trusted_min_entry_id {thread} t.
Arguments threads_errors {thread} t.
Arguments inner_trusted {thread} t.
Arguments trusted {thread} t.
Arguments collected {thread} t.
Arguments first_request {thread} t.
Arguments threads_requests {thread} t.
Arguments threads_stdout {thread} t.
Arguments read_envelope {thread} key envelope collected.
Arguments Returned {thread} st.
Arguments Raised {thread} e st.
Arguments Waiting {thread} st.
Arguments get_threads_loop {thread} script st.
Arguments get_threads {thread} script.

(** ** [_process_tweets] with its list objects

    [DirectMessage] declares [elements = []] in its class body: one list
    object that every instance reads until it is given an attribute of its
    own.  Here the list objects live in a heap and [message.elements] is
    looked up as Python does, so that sharing can be told from copying. *)

Module Heap.

Abbreviation loc := nat (only parsing).

(** The list objects by address.  The class body's list is at address 0. *)
Abbreviation heap := (list (list element)) (only parsing).
Definition class_elements : loc := 0%nat.

Record instance : Type := {
  self_tweet_id : string;
  self_time_stamp : option string;
  self_author : option string;
  self_elements : option loc      (* the instance's own [elements], if assigned *)
}.

Inductive value : Type :=
  | Instance (o : instance)
  | Entry (tweet_id text : string)
  | Str.

(** [message.elements]: the instance attribute, else the class attribute. *)
Definition elements_of (o : instance) : loc :=
  default class_elements (self_elements o).

(** [DirectMessage(tweet_id, time_stamp, dm_author)]: [__init__] assigns
    no [elements]. *)
Definition new_DirectMessage (tweet_id : string) (time_stamp author : option string)
  : instance :=
  {| self_tweet_id := tweet_id; self_time_stamp := time_stamp;
     self_author := author; self_elements := None |}.

(** [message.elements = []]. *)
Definition assign_elements (o : instance) (h : heap) : instance * heap :=
  ({| self_tweet_id := self_tweet_id o; self_time_stamp := self_time_stamp o;
      self_author := self_author o; self_elements := Some (length h) |},
   (h ++ [[]])).

(** [message.elements.append(element_object)]. *)
Definition append_element (o : instance) (e : element) (h : heap) : heap :=
  alter (fun l => (l ++ [e])) (elements_of o) h.

(** A stored value read through the heap. *)
Definition read (h : heap) (v : value) : message :=
  match v with
  | Instance o =>
      DirectMessage (self_tweet_id o) (self_time_stamp o) (self_author o)
        (default [] (h !! elements_of o))
  | Entry i t => DMConversationEntry i t
  | Str => EmptyStr
  end.

Definition read_all (h : heap) (d : odict value) : odict message :=
  map (fun kv => (kv.1, read h kv.2)) d.

Section ProcessTweets.

Variable view : string -> string -> fragment_view.

Fixpoint parse_elements (o : instance) (dm_elements : list element_view) (h : heap)
  : heap * result unit :=
  match dm_elements with
  | [] => (h, Ok tt)
  | Parsed e :: rest => parse_elements o rest (append_element o e h)
  | UnknownElement :: rest => parse_elements o rest h
  | ElementRaises e :: _ => (h, Raise e)
  end.

Definition parse_fragment (tweet_id value_ : string) (h : heap)
  : heap * result value :=
  match view tweet_id value_ with
  | Raises e => (h, Raise e)
  | Message dm_author time_stamp dm_elements =>
      let message := new_DirectMessage tweet_id time_stamp dm_author in
      let (message, h) := assign_elements message h in
      let (h, r) := parse_elements message dm_elements h in
      (h, match r with Ok _ => Ok (Instance message) | Raise e => Raise e end)
  | ConversationEntry text =>
      (h, Ok (Entry tweet_id (Py.strip (Py.strip text))))
  | NoContainer => (h, Ok Str)
  end.

Definition parse_error_entry (tweet_id value_ : string) : value :=
  Entry tweet_id
    (Py.strip ("[ParseError] Parsing of tweet '" +:+ tweet_id +:+
               "' failed. Raw HTML: " +:+ value_)).

Fixpoint process_loop (max_id : string) (ordered : list (string * string))
    (conversation_set : odict value) (max_id_found : bool) (h : heap)
  : odict value * bool * heap :=
  match ordered with
  | [] => (conversation_set, max_id_found, h)
  | (tweet_id, value_) :: rest =>
      if String.eqb tweet_id max_id then (conversation_set, true, h)
      else
        match parse_fragment tweet_id value_ h with
        | (h, Raise KeyboardInterrupt) => (conversation_set, true, h)
        | (h, Raise _) =>
            process_loop max_id rest
              (od_set tweet_id (parse_error_entry tweet_id value_) conversation_set)
              max_id_found h
        | (h, Ok message) =>
            process_loop max_id rest (od_set tweet_id message conversation_set)
              max_id_found h
        end
  end.

Definition _process_tweets (tweets : gmap string string) (max_id : string)
    (max_id_found : bool) (h : heap) : odict value * bool * heap :=
  process_loop max_id (ordered_tweets tweets) [] max_id_found h.

End ProcessTweets.

(** The addresses the stored instances use for their elements. *)
Definition value_loc (v : value) : option loc :=
  match v with
  | Instance o => Some (elements_of o)
  | _ => None
  end.

Definition locs (d : odict value) : list loc :=
  omap (fun kv => value_loc kv.2) d.

End Heap.

(** * Properties *)

(** ** Strings *)

Section StringFacts.

Implicit Types s t u : string.

Lemma app_cons c s t : String c s +:+ t = String c (s +:+ t).
Proof. reflexivity. Qed.

Lemma app_empty_l s : "" +:+ s = s.
Proof. reflexivity. Qed.

Lemma app_empty_r s : s +:+ "" = s.
Proof. induction s as [|c s IH]; [done|]. by rewrite app_cons, IH. Qed.

Lemma app_assoc' s t u : (s +:+ t) +:+ u = s +:+ t +:+ u.
Proof. induction s as [|c s IH]; [done|]. by rewrite !app_cons, IH. Qed.

Lemma replace_nl_app sep s t :
  Py.replace_nl sep (s +:+ t) = Py.replace_nl sep s +:+ Py.replace_nl sep t.
Proof.
  induction s as [|c s IH]; [done|].
  rewrite app_cons. simpl. rewrite IH.
  destruct (Ascii.eqb c Py.newline); [by rewrite app_assoc'|done].
Qed.

Lemma drop_last_snoc s c : Py.drop_last (s +:+ String c "") = s.
Proof.
  induction s as [|a s IH]; [done|].
  rewrite app_cons. simpl. rewrite IH.
  destruct s; reflexivity.
Qed.

End StringFacts.

(** ** The shape of what [write_conversation] writes *)

Section WriteShape.

Variable p : platform.

(** One element as it appears in a message line. *)
Definition element_text (e : element) : string :=
  Py.replace_nl (linesep p) (element_str e).

(** The elements of a message line: each is preceded by one space. *)
Definition elements_text (elements : list element) : string :=
  fold_right (fun e rest => " " +:+ element_text e +:+ rest) "" elements.

(** The line of one stored value; nothing for [''].  *)
Definition line (m : message) : result string := write_tweet p "" m.

Lemma fold_write_element elements buf :
  fold_left (write_element p) elements (buf +:+ " ") =
  (buf +:+ elements_text elements) +:+ " ".
Proof.
  revert buf. induction elements as [|e elements IH]; intros buf.
  - simpl. by rewrite app_empty_r.
  - simpl. unfold write_element at 2. rewrite replace_nl_app.
    change (Py.replace_nl (linesep p) " ") with " ".
    rewrite <- app_assoc', IH. fold (element_text e).
    by rewrite !app_assoc'.
Qed.

Lemma header_split buf date a :
  buf +:+ "[" +:+ date +:+ "] <" +:+ a +:+ "> " =
  (buf +:+ "[" +:+ date +:+ "] <" +:+ a +:+ ">") +:+ " ".
Proof. by rewrite !app_assoc'. Qed.

Lemma write_tweet_DirectMessage buf i time_stamp author elements t date :
  Py.int time_stamp = Ok t ->
  Py.strftime_iso (utcoffset p t) t = Ok date ->
  write_tweet p buf (DirectMessage i time_stamp author elements) =
  Ok (buf +:+ "[" +:+ date +:+ "] <" +:+ Py.fmt author +:+ ">" +:+
      elements_text elements +:+ linesep p).
Proof.
  intros Ht Hd. unfold write_tweet. rewrite Ht. simpl. rewrite Hd. simpl.
  f_equal.
  rewrite header_split, fold_write_element, drop_last_snoc.
  by rewrite !app_assoc'.
Qed.

Lemma write_tweet_buffer buf m :
  write_tweet p buf m = (fun l => buf +:+ l) <$> line m.
Proof.
  unfold line. destruct m as [i ts a els| |].
  - destruct (Py.int ts) as [t|e] eqn:Ht.
    + destruct (Py.strftime_iso (utcoffset p t) t) as [date|e] eqn:Hd.
      * by rewrite !(write_tweet_DirectMessage _ i ts a els t date Ht Hd).
      * unfold write_tweet. rewrite Ht. simpl. by rewrite Hd.
    + unfold write_tweet. by rewrite Ht.
  - done.
  - simpl. by rewrite app_empty_r.
Qed.

(** [items] are written as [lines], one after the other. *)
Definition written (items : list (string * message)) (lines : list string) : Prop :=
  Forall2 (fun it l => line it.2 = Ok l) items lines.

Lemma write_tweets_Ok items : forall buf out,
  write_tweets p buf items = Ok out ->
  exists lines, written items lines /\ out = buf +:+ Py.join lines.
Proof.
  induction items as [|it items IH]; intros buf out H.
  - simpl in H. injection H as <-. exists []. split; [constructor|].
    by rewrite app_empty_r.
  - simpl in H. rewrite write_tweet_buffer in H.
    destruct (line it.2) as [l|e] eqn:Hl; [|done]. simpl in H.
    apply IH in H as (lines & Hw & ->).
    exists (l :: lines). split; [by constructor|].
    simpl. by rewrite app_assoc'.
Qed.

Lemma write_tweets_written items lines : forall buf,
  written items lines ->
  write_tweets p buf items = Ok (buf +:+ Py.join lines).
Proof.
  intros buf H. revert buf.
  induction H as [|it l items lines Hl _ IH]; intros buf.
  - simpl. by rewrite app_empty_r.
  - simpl. rewrite write_tweet_buffer, Hl. simpl. rewrite IH.
    by rewrite app_assoc'.
Qed.

End WriteShape.

(** ** Rendering of one message *)

Definition example_message : message :=
  DirectMessage "123456789012345678" (Some "1609459200") (Some "alice")
    [DirectMessageText "hello world"].

(** C4 (as the code has it): where the local zone is UTC at that instant,
    the message with id 123456789012345678, time stamp 1609459200, author
    alice and the single text element [hello world] is written as the line
    [[2021-01-01 00:00:00] <alice> hello world] followed by the line
    separator: the date in local time, the author between angle brackets,
    then each element after one space. *)
Theorem message_line_example (p : platform) :
  utcoffset p 1609459200 = 0 ->
  line p example_message =
  Ok ("[2021-01-01 00:00:00] <alice> hello world" +:+ linesep p).
Proof.
  intros Hutc. unfold line, example_message.
  rewrite (write_tweet_DirectMessage p "" _ _ _ _ 1609459200 "2021-01-01 00:00:00").
  - reflexivity.
  - reflexivity.
  - rewrite Hutc. reflexivity.
Qed.

Lemma message_line_example_witness :
  utcoffset utc_posix 1609459200 = 0 /\
  line utc_posix example_message =
  Ok ("[2021-01-01 00:00:00] <alice> hello world" +:+ linesep utc_posix).
Proof.
  split; [reflexivity|]. apply (message_line_example utc_posix). reflexivity.
Defined.

(** The line of the specification, without the angle brackets, is not what
    is written. *)
Lemma message_line_counterexample :
  utcoffset utc_posix 1609459200 = 0 /\
  line utc_posix example_message <>
  Ok ("[2021-01-01 00:00:00] alice hello world" +:+ linesep utc_posix).
Proof. split; [reflexivity|]. vm_compute. discriminate. Qed.

(** ** Ordered dictionaries and the loop of [_process_tweets] *)

Section OdictFacts.

Context {V : Type}.
Implicit Types d : odict V.

Lemma od_set_fresh k v d : k ∉ od_keys d -> od_set k v d = (d ++ [(k, v)]).
Proof.
  induction d as [|[k' v'] d IH]; intros Hk; [done|].
  simpl in *. apply not_elem_of_cons in Hk as [Hne Hk].
  destruct (String.eqb_spec k' k) as [->|_]; [done|].
  by rewrite IH.
Qed.

Lemma od_keys_app d1 d2 : od_keys (d1 ++ d2) = (od_keys d1 ++ od_keys d2).
Proof. apply map_app. Qed.

(** Setting a key never changes which key comes first. *)
Lemma od_set_head k v k0 v0 d :
  exists v1, od_set k v ((k0, v0) :: d) = (k0, v1) :: tail (od_set k v ((k0, v0) :: d)).
Proof.
  simpl. destruct (String.eqb_spec k0 k) as [->|_]; eauto.
Qed.

Lemma fold_od_set_fresh {X} (f : string * X -> V) (l : list (string * X)) : forall d,
  NoDup (map fst l) ->
  (forall k, k ∈ map fst l -> k ∉ od_keys d) ->
  fold_left (fun d kv => od_set kv.1 (f kv) d) l d =
  (d ++ map (fun kv => (kv.1, f kv)) l).
Proof.
  induction l as [|[k x] l IH]; intros d Hnd Hfresh.
  - simpl. by rewrite app_nil_r.
  - simpl in *. apply NoDup_cons in Hnd as [Hk Hnd].
    rewrite od_set_fresh by (apply Hfresh; left).
    rewrite IH; [by rewrite <- app_assoc|done|].
    intros k' Hk'. rewrite od_keys_app. simpl.
    rewrite elem_of_app, list_elem_of_singleton.
    intros [Hin| ->]; [|done].
    revert Hin. apply Hfresh. by right.
Qed.

End OdictFacts.

Section ProcessFacts.

Variable view : string -> string -> fragment_view.
Variable max_id : string.

(** What is stored for a fragment the loop goes past. *)
Definition entry_of (kv : string * string) : message :=
  match parse_fragment view kv.1 kv.2 with
  | Ok message => message
  | Raise _ => parse_error_entry kv.1 kv.2
  end.

(** The loop ends at this fragment: it carries the marker id, or its
    parsing is interrupted. *)
Definition halts (kv : string * string) : bool :=
  String.eqb kv.1 max_id ||
  match parse_fragment view kv.1 kv.2 with
  | Raise KeyboardInterrupt => true
  | _ => false
  end.

Fixpoint before_halt (ordered : list (string * string)) : list (string * string) :=
  match ordered with
  | [] => []
  | kv :: rest => if halts kv then [] else kv :: before_halt rest
  end.

Lemma process_loop_spec ordered : forall conversation_set found,
  process_loop view max_id ordered conversation_set found =
  (fold_left (fun d kv => od_set kv.1 (entry_of kv) d) (before_halt ordered)
     conversation_set,
   found || existsb halts ordered).
Proof.
  induction ordered as [|[k x] rest IH]; intros cs found.
  - simpl. by rewrite orb_false_r.
  - cbn [process_loop before_halt existsb].
    assert (Hh : halts (k, x) = String.eqb k max_id ||
              match parse_fragment view k x with
              | Raise KeyboardInterrupt => true
              | _ => false
              end) by done.
    assert (He : entry_of (k, x) =
              match parse_fragment view k x with
              | Ok m => m
              | Raise _ => parse_error_entry k x
              end) by done.
    rewrite Hh. destruct (String.eqb k max_id).
    { simpl. by rewrite orb_true_r. }
    destruct (parse_fragment view k x) as [m|e].
    + cbn [orb fold_left fst]. by rewrite He, IH.
    + destruct e; cbn [orb fold_left fst]; rewrite ?He, ?IH, ?orb_true_r; done.
Qed.

Lemma before_halt_all ordered :
  forallb (fun kv => negb (halts kv)) ordered = true -> before_halt ordered = ordered.
Proof.
  induction ordered as [|kv rest IH]; [done|].
  simpl. destruct (halts kv); simpl; [done|]. intros H. by rewrite IH.
Qed.

End ProcessFacts.

(** ** The order of a page *)

(** Message ids are compared as strings. *)
Definition id_lt (a b : string) : Prop := String.le a b /\ a <> b.

Global Instance descending_trans : Transitive descending.
Proof. intros a b c Hab Hbc. unfold descending in *. by etrans. Qed.

Global Instance descending_total : Total descending.
Proof. intros a b. unfold descending. apply (total String.le). Qed.

Lemma StronglySorted_NoDup_strict {A} (R : relation A) (l : list A) :
  StronglySorted R l -> NoDup l -> StronglySorted (fun a b => R a b /\ a <> b) l.
Proof.
  induction 1 as [|a l Hs IH Hall]; intros Hnd; [constructor|].
  apply NoDup_cons in Hnd as [Ha Hnd]. constructor; [by apply IH|].
  rewrite Forall_forall in Hall |- *. intros b Hb. split; [by apply Hall|].
  intros ->. by apply Ha.
Qed.

Section OrderedTweets.

Variable tweets : gmap string string.

Lemma ordered_tweets_perm : ordered_tweets tweets ≡ₚ map_to_list tweets.
Proof. apply merge_sort_Permutation. Qed.

Lemma elem_of_ordered_tweets k v : (k, v) ∈ ordered_tweets tweets <-> tweets !! k = Some v.
Proof. rewrite ordered_tweets_perm. apply elem_of_map_to_list. Qed.

Lemma ordered_tweets_NoDup : NoDup (map fst (ordered_tweets tweets)).
Proof.
  change (NoDup (fst <$> ordered_tweets tweets)).
  rewrite ordered_tweets_perm. apply NoDup_fst_map_to_list.
Qed.

Lemma elem_of_ordered_keys k : k ∈ map fst (ordered_tweets tweets) <-> is_Some (tweets !! k).
Proof.
  change (map fst (ordered_tweets tweets)) with (fst <$> ordered_tweets tweets).
  rewrite list_elem_of_fmap. split.
  - intros ([k' v] & -> & Hin). apply elem_of_ordered_tweets in Hin. eauto.
  - intros [v Hv]. exists (k, v). split; [done|]. by apply elem_of_ordered_tweets.
Qed.

(** A page is gone through from its greatest id down, in the order of
    strings. *)
Lemma ordered_tweets_sorted :
  StronglySorted (fun a b => id_lt b a) (map fst (ordered_tweets tweets)).
Proof.
  assert (StronglySorted (fun a b => String.le b a) (map fst (ordered_tweets tweets))) as H.
  { apply (StronglySorted_fmap fst descending); [done|].
    apply StronglySorted_merge_sort; apply _. }
  apply StronglySorted_NoDup_strict with (R := fun a b => String.le b a) in H;
    [|apply ordered_tweets_NoDup].
  induction H as [|a l _ IH Hall]; constructor; [done|].
  eapply Forall_impl; [exact Hall|].
  intros b [Hle Hne]. split; [done|]. congruence.
Qed.

End OrderedTweets.

(** ** The entry that stands for a fragment that failed to parse *)

Lemma rstrip_app (a b : string) :
  Py.rstrip (a +:+ b) =
  match Py.rstrip b with
  | EmptyString => Py.rstrip a
  | r => a +:+ r
  end.
Proof.
  induction a as [|c a IH].
  - rewrite app_empty_l. by destruct (Py.rstrip b).
  - rewrite app_cons. cbn [Py.rstrip]. rewrite IH.
    destruct (Py.rstrip b) as [|x r]; [done|].
    rewrite app_cons. by destruct a.
Qed.

(** The text of the fallback entry: the tag, the id between quotes, and the
    raw fragment without the white space that ends it. *)
Definition parse_error_text (tweet_id value : string) : string :=
  "[ParseError] Parsing of tweet '" +:+ tweet_id +:+ "' failed. Raw HTML:" +:+
  match Py.rstrip value with
  | EmptyString => EmptyString
  | r => " " +:+ r
  end.

Lemma parse_error_entry_text tweet_id value :
  parse_error_entry tweet_id value =
  DMConversationEntry tweet_id (parse_error_text tweet_id value).
Proof.
  unfold parse_error_entry, new_DMConversationEntry, parse_error_text, Py.strip.
  f_equal.
  replace (Py.lstrip ("[ParseError] Parsing of tweet '" +:+ tweet_id +:+
                      "' failed. Raw HTML: " +:+ value))
    with (("[ParseError] Parsing of tweet '" +:+ tweet_id +:+ "' failed. Raw HTML:")
          +:+ (" " +:+ value))
    by (rewrite !app_assoc'; reflexivity).
  rewrite rstrip_app.
  change (Py.rstrip (" " +:+ value)) with
    (match Py.rstrip value with
     | EmptyString => EmptyString
     | r => String " " r
     end).
  destruct (Py.rstrip value) as [|x r].
  - rewrite <- app_assoc', rstrip_app. rewrite app_empty_r. reflexivity.
  - by rewrite !app_assoc'.
Qed.

(** A batch of two fragments: the first raises, the second parses. *)
Definition two_fragments : gmap string string :=
  {[ "107" := "<b>" +:+ Py.nl; "108" := "fine" ]}.

Definition view_two (tweet_id value : string) : fragment_view :=
  if String.eqb value "fine"
  then Message (Some "bob") (Some "1609459200") [Parsed (DirectMessageText value)]
  else Raises ValueError.

(** [needle] occurs in [hay]. *)
Definition contains (needle hay : string) : bool :=
  match String.index 0 needle hay with
  | Some _ => true
  | None => false
  end.

(** ** Lines of the transcript *)

(** Empty, or ending with a line feed: what follows starts a new line. *)
Definition ends_nl (s : string) : Prop :=
  s = "" \/ exists y, s = y +:+ Py.nl.

Fixpoint no_nl (s : string) : bool :=
  match s with
  | String c s' => negb (Ascii.eqb c Py.newline) && no_nl s'
  | EmptyString => true
  end.

(** A non-empty string of decimal digits. *)
Fixpoint all_digits (s : string) : bool :=
  match s with
  | String c s' => Py.isdigit c && all_digits s'
  | EmptyString => true
  end.

Definition is_decimal (s : string) : bool :=
  negb (String.eqb s "") && all_digits s.

Section Lines.

Implicit Types s x y l : string.

Lemma ends_nl_tail c s : ends_nl (String c s) -> ends_nl s.
Proof.
  intros [?|[y Hy]]; [done|].
  destruct y as [|d y].
  - left. by injection Hy.
  - right. exists y. rewrite app_cons in Hy. by injection Hy.
Qed.

Lemma ends_nl_app x y : ends_nl x -> ends_nl y -> ends_nl (x +:+ y).
Proof.
  intros Hx [->|[z ->]].
  - by rewrite app_empty_r.
  - right. exists (x +:+ z). by rewrite app_assoc'.
Qed.

Lemma readlines_nil s : Py.readlines s = [] -> s = "".
Proof.
  destruct s as [|c s]; [done|]. simpl.
  destruct (Ascii.eqb c Py.newline); [done|].
  by destruct (Py.readlines s).
Qed.

Lemma join_readlines s : Py.join (Py.readlines s) = s.
Proof.
  induction s as [|c s IH]; [done|]. simpl.
  destruct (Ascii.eqb c Py.newline).
  - simpl. by rewrite IH.
  - destruct (Py.readlines s) as [|l ls] eqn:E.
    + apply readlines_nil in E as ->. done.
    + simpl in *. by rewrite app_cons, IH.
Qed.

Lemma readlines_app x y :
  ends_nl x -> Py.readlines (x +:+ y) = Py.readlines x ++ Py.readlines y.
Proof.
  induction x as [|c x IH]; intros Hx; [done|].
  rewrite app_cons. simpl.
  rewrite (IH (ends_nl_tail _ _ Hx)).
  destruct (Ascii.eqb_spec c Py.newline) as [->|Hc]; [done|].
  destruct (Py.readlines x) as [|l ls] eqn:E; [|done].
  apply readlines_nil in E as ->.
  destruct Hx as [?|[[|d z] Hz]]; [done| |].
  - injection Hz as ->. done.
  - rewrite app_cons in Hz. injection Hz as _ Hz. by destruct z.
Qed.

Lemma readlines_one_line l :
  no_nl l = true -> Py.readlines (l +:+ Py.nl) = [l +:+ Py.nl].
Proof.
  induction l as [|c l IH]; intros H; [done|].
  simpl in H. apply andb_true_iff in H as [Hc Hl].
  rewrite app_cons. simpl. rewrite (IH Hl).
  by destruct (Ascii.eqb c Py.newline).
Qed.

(** Every line but the last ends with a line feed. *)
Lemma readlines_but_last s :
  Forall (fun l => exists y, l = y +:+ Py.nl) (Py.but_last (Py.readlines s)).
Proof.
  unfold Py.but_last. induction s as [|c s IH]; [constructor|]. simpl.
  destruct (Ascii.eqb_spec c Py.newline) as [->|Hc].
  - destruct (Py.readlines s) as [|l ls]; [constructor|].
    constructor; [by exists ""|done].
  - destruct (Py.readlines s) as [|l [|l' ls]]; [constructor..|].
    inversion IH as [|? ? [y ->] IH']; subst.
    constructor; [|done]. exists (String c y). by rewrite app_cons.
Qed.

Lemma join_ends_nl (ls : list string) :
  Forall ends_nl ls -> ends_nl (Py.join ls).
Proof.
  induction 1 as [|l ls Hl _ IH]; [by left|].
  simpl. by apply ends_nl_app.
Qed.

Lemma kept_ends_nl s : ends_nl (Py.join (Py.but_last (Py.readlines s))).
Proof.
  apply join_ends_nl. eapply Forall_impl; [apply readlines_but_last|].
  intros l [y ->]. right. by exists y.
Qed.

Lemma last_line x l :
  ends_nl x -> no_nl l = true ->
  last (Py.readlines (x +:+ l +:+ Py.nl)) = Some (l +:+ Py.nl).
Proof.
  intros Hx Hl. rewrite readlines_app by done.
  rewrite readlines_one_line by done. apply last_snoc.
Qed.

Lemma all_digits_no_nl s : all_digits s = true -> no_nl s = true.
Proof.
  induction s as [|c s IH]; [done|]. simpl.
  intros [Hc Hs]%andb_true_iff. rewrite IH by done.
  rewrite andb_true_r. destruct (Ascii.eqb_spec c Py.newline) as [->|]; done.
Qed.

Lemma take_digits_app s t :
  all_digits s = true -> take_digits t = "" -> take_digits (s +:+ t) = s.
Proof.
  intros Hs Ht. induction s as [|c s IH]; [done|].
  simpl in Hs. apply andb_true_iff in Hs as [Hc Hs].
  rewrite app_cons. simpl. rewrite Hc. by rewrite IH.
Qed.

End Lines.

(** The marker line that ends a transcript. *)
Definition marker_line (p : platform) (latest : string) : string :=
  "[LatestTweetID] " +:+ latest +:+ linesep p.

Lemma match_latest_marker_line p latest :
  is_decimal latest = true -> match_latest (marker_line p latest) = Some latest.
Proof.
  intros [Hne Hd]%andb_true_iff. unfold match_latest, marker_line.
  change (strip_prefix "[LatestTweetID] " ("[LatestTweetID] " +:+ latest +:+ linesep p))
    with (Some (latest +:+ linesep p)).
  cbv beta iota.
  rewrite take_digits_app; [|done|by unfold linesep; destruct (os p)].
  destruct latest; done.
Qed.

Lemma marker_line_last p x latest :
  ends_nl x -> all_digits latest = true ->
  last (Py.readlines (x +:+ marker_line p latest)) = Some (marker_line p latest).
Proof.
  intros Hx Hd. unfold marker_line, linesep.
  destruct (os p).
  - rewrite <- (app_assoc' _ latest Py.nl).
    rewrite (last_line x ("[LatestTweetID] " +:+ latest)); [done..|].
    apply (all_digits_no_nl) in Hd. done.
  - replace ("[LatestTweetID] " +:+ latest +:+ String Py.cr Py.nl)
      with (("[LatestTweetID] " +:+ latest +:+ String Py.cr "") +:+ Py.nl)
      by (by rewrite !app_assoc').
    rewrite last_line; [done..|].
    apply all_digits_no_nl in Hd. simpl.
    clear -Hd. induction latest as [|c s IH]; [done|].
    simpl in *. apply andb_true_iff in Hd as [-> Hs]. by apply IH.
Qed.

(** ** The transcript after [write_conversation] *)

Section WriteBack.

Variable p : platform.

Lemma linesep_ends_nl x : ends_nl (x +:+ linesep p).
Proof.
  right. unfold linesep. destruct (os p).
  - by exists x.
  - exists (x +:+ String Py.cr ""). by rewrite app_assoc'.
Qed.

Lemma line_ends_nl m l : line p m = Ok l -> ends_nl l.
Proof.
  unfold line. destruct m as [i ts a els|i text|]; simpl.
  - destruct (Py.int ts) as [t|]; [|done]. simpl.
    destruct (Py.strftime_iso (utcoffset p t) t) as [date|]; [|done]. simpl.
    intros [= <-]. apply linesep_ends_nl.
  - intros [= <-]. rewrite <- !app_assoc'. apply linesep_ends_nl.
  - intros [= <-]. by left.
Qed.

Lemma written_ends_nl items lines : written p items lines -> ends_nl (Py.join lines).
Proof.
  intros H. apply join_ends_nl.
  induction H as [|it l items lines Hl _ IH]; constructor; [|done].
  by apply line_ends_nl in Hl.
Qed.

(** What is kept of the transcript: nothing without a previous marker, else
    all its lines but the last. *)
Definition kept_lines (file : option string) (max_id : string) : string :=
  if String.eqb max_id "0" then ""
  else Py.join (Py.but_last (Py.readlines (default "" file))).

Lemma kept_lines_ends_nl file max_id : ends_nl (kept_lines file max_id).
Proof.
  unfold kept_lines. destruct (String.eqb max_id "0"); [by left|].
  apply kept_ends_nl.
Qed.

Lemma write_conversation_empty file max_id : write_conversation p [] file max_id = Ok file.
Proof. reflexivity. Qed.

Lemma write_conversation_nonempty tweets file max_id file' k0 m0 rest :
  tweets = (k0, m0) :: rest ->
  write_conversation p tweets file max_id = Ok file' ->
  exists latest lines,
    get_tweet_id m0 = Ok latest /\
    written p (reverse tweets) lines /\
    file' = Some (kept_lines file max_id +:+ Py.join lines +:+ marker_line p latest).
Proof.
  intros Htw H. unfold write_conversation in H.
  destruct (write_tweets p "" (reverse tweets)) as [buf|e] eqn:Hbuf; [|done].
  apply write_tweets_Ok in Hbuf as (lines & Hw & ->).
  simpl in H. rewrite last_reverse, Htw in H. simpl in H.
  destruct (get_tweet_id m0) as [latest|e] eqn:Hid; [|done]. simpl in H.
  exists latest, lines. split; [done|]. split; [done|].
  unfold kept_lines, marker_line.
  destruct (String.eqb max_id "0").
  - by injection H as <-.
  - destruct file as [content|]; [|done]. injection H as <-.
    simpl. by rewrite !app_assoc'.
Qed.

(** After a write-back of at least one entry whose first entry has a decimal
    id: the transcript is what was kept of it, then the lines of the
    entries, then one marker line, which is its last line and is read back
    as that id. *)
Lemma write_conversation_marker (tweets : odict message) (file : option string)
    (max_id : string) (file' : option string) (k0 : string) (m0 : message)
    (rest : odict message) (latest : string) :
  tweets = (k0, m0) :: rest ->
  get_tweet_id m0 = Ok latest ->
  is_decimal latest = true ->
  write_conversation p tweets file max_id = Ok file' ->
  exists lines content',
    written p (reverse tweets) lines /\
    file' = Some content' /\
    content' = kept_lines file max_id +:+ Py.join lines +:+ marker_line p latest /\
    last (Py.readlines content') = Some (marker_line p latest) /\
    _get_latest_tweet_id file' = Ok latest.
Proof.
  intros Htw Hid Hdec H.
  destruct (write_conversation_nonempty _ _ _ _ _ _ _ Htw H)
    as (latest' & lines & Hid' & Hw & ->).
  assert (latest' = latest) as -> by congruence.
  exists lines, (kept_lines file max_id +:+ Py.join lines +:+ marker_line p latest).
  assert (last (Py.readlines
            (kept_lines file max_id +:+ Py.join lines +:+ marker_line p latest))
          = Some (marker_line p latest)) as Hlast.
  { rewrite <- app_assoc'. apply marker_line_last.
    - apply ends_nl_app; [apply kept_lines_ends_nl|by eapply written_ends_nl].
    - by apply andb_true_iff in Hdec as [_ ?]. }
  repeat split; [done..|].
  unfold _get_latest_tweet_id. rewrite Hlast.
  by rewrite match_latest_marker_line.
Qed.

End WriteBack.

(** ** Runs on small conversations *)

(** Every fragment is a message of bob whose only element is the fragment
    as text. *)
Definition view_text (tweet_id value : string) : fragment_view :=
  Message (Some "bob") (Some "1609459200") [Parsed (DirectMessageText value)].

(** A turn that delivers the page [tweets]. *)
Definition page_turn (tweets : gmap string string) : turn conversation_json :=
  {| response := Ok {| errors := None; max_entry_id := Some "9";
                       min_entry_id := Some "1"; items := Some tweets |};
     sleep := Ok tt |}.

(** A turn whose response has none of the keys: the beginning of the thread. *)
Definition last_turn : turn conversation_json :=
  {| response := Ok {| errors := None; max_entry_id := None;
                       min_entry_id := None; items := None |};
     sleep := Ok tt |}.

Definition transcript_100 : string :=
  "[2021-01-01 00:00:00] <bob> first" +:+ Py.nl +:+ "[LatestTweetID] 100" +:+ Py.nl.

Definition transcript_105 : string :=
  "[2021-01-01 00:00:00] <bob> first" +:+ Py.nl +:+
  "[2021-01-01 00:00:00] <alice> hello world" +:+ Py.nl +:+
  "[LatestTweetID] 105" +:+ Py.nl.

Definition message_105 : message :=
  DirectMessage "105" (Some "1609459200") (Some "alice") [DirectMessageText "hello world"].

(** The lines of a transcript that match the marker pattern. *)
Definition marker_lines (content : string) : list string :=
  filter (fun l => is_Some (match_latest l)) (Py.readlines content).

(** C2: from no transcript, a page with the ids 100 and 99 is gone through
    as sorted strings, 99 first: both messages are written and the marker
    line names 99, not 100, the highest id in the file.  A second run on
    that transcript, whose page holds 101, 100 and 99, meets the marker 99
    first: it stores nothing, sends no further request and leaves the file
    as it is; the newer message 101 is not archived. *)
Theorem marker_names_a_lower_id :
  exists st file1 st2,
    crawl utc_posix view_text None
      [page_turn {[ "100" := "a"; "99" := "b" ]}; last_turn] false =
      WroteBack st "0" (Ok (Some file1)) /\
    od_keys (conversation st) = ["99"; "100"] /\
    file1 = "[2021-01-01 00:00:00] <bob> a" +:+ Py.nl +:+
            "[2021-01-01 00:00:00] <bob> b" +:+ Py.nl +:+
            "[LatestTweetID] 99" +:+ Py.nl /\
    _get_latest_tweet_id (Some file1) = Ok "99" /\
    (Py.int (Some "99"), Py.int (Some "100")) = (Ok 99, Ok 100) /\
    crawl utc_posix view_text (Some file1)
      [page_turn {[ "101" := "c"; "100" := "a"; "99" := "b" ]}; last_turn] false =
      WroteBack st2 "99" (Ok (Some file1)) /\
    conversation st2 = [] /\
    max_id_found st2 = true /\
    requests st2 = [None].
Proof.
  eexists _, _, _. split; [vm_compute; reflexivity|].
  repeat split; vm_compute; reflexivity.
Qed.

(** A fragment that has neither a [div.DirectMessage-container] nor a
    [div.DMConversationEntry]; every other fragment is a message of bob. *)
Definition bare_fragment : string := "<p>hello</p>".

Definition view_or_bare (tweet_id value : string) : fragment_view :=
  if String.eqb value bare_fragment then NoContainer else view_text tweet_id value.

(** C7: a fragment with neither container raises nothing and gets no
    fallback entry: the initial [''] of [message] is stored under its id.
    In a page with the message 108 and such a fragment 107, the transcript
    has the line of 108 and nothing for 107.  In a page with such a
    fragment 107 and the message 106, the [''] is the entry whose
    [tweet_id] the write-back reads for the marker: it raises
    [AttributeError], and the message 106 is not written either. *)
Theorem bare_fragment_is_dropped :
  (exists st,
     crawl utc_posix view_or_bare None
       [page_turn {[ "108" := "fine"; "107" := bare_fragment ]}; last_turn] false =
       WroteBack st "0"
         (Ok (Some ("[2021-01-01 00:00:00] <bob> fine" +:+ Py.nl +:+
                    "[LatestTweetID] 108" +:+ Py.nl))) /\
     conversation st =
       [("108", DirectMessage "108" (Some "1609459200") (Some "bob")
                  [DirectMessageText "fine"]);
        ("107", EmptyStr)]) /\
  (exists st,
     crawl utc_posix view_or_bare None
       [page_turn {[ "107" := bare_fragment; "106" := "fine" ]}; last_turn] false =
       WroteBack st "0" (Raise AttributeError) /\
     conversation st =
       [("107", EmptyStr);
        ("106", DirectMessage "106" (Some "1609459200") (Some "bob")
                  [DirectMessageText "fine"])]).
Proof.
  split; eexists; (split; [vm_compute; reflexivity|]); vm_compute; reflexivity.
Qed.

(** ** One turn of the crawl loop *)

Global Instance id_lt_dec : RelDecision id_lt.
Proof. intros a b. unfold id_lt. apply _. Defined.

Lemma id_lt_irrefl a : ~ id_lt a a.
Proof. by intros [_ ?]. Qed.

Lemma id_lt_asym a b : id_lt a b -> ~ id_lt b a.
Proof.
  intros [Hab Hne] [Hba _]. apply Hne. by apply (anti_symm String.le).
Qed.

Lemma StronglySorted_reverse {A} (R : relation A) (l : list A) :
  StronglySorted R l -> StronglySorted (flip R) (reverse l).
Proof.
  induction 1 as [|a l _ IH Hall]; [constructor|].
  rewrite reverse_cons. apply StronglySorted_app.
  split; [|split; [done|repeat constructor]].
  intros x y Hx ->%list_elem_of_singleton.
  rewrite Forall_forall in Hall. apply Hall. by apply elem_of_reverse.
Qed.

(** The page of a turn: its response is a body without [errors] that has
    the keys [max_entry_id], [min_entry_id] and [items]. *)
Definition turn_page (t : turn conversation_json)
  : option (gmap string string * string) :=
  match response t with
  | Ok json =>
      match errors json, max_entry_id json, min_entry_id json, items json with
      | None, Some _, Some cursor, Some tweets => Some (tweets, cursor)
      | _, _, _, _ => None
      end
  | Raise _ => None
  end.

Section CrawlFacts.

Variable view : string -> string -> fragment_view.
Variable max_id : string.

(** The entries a page adds: those of the fragments before the loop halts. *)
Definition new_entries (tweets : gmap string string) : odict message :=
  map (fun kv => (kv.1, entry_of view kv))
      (before_halt view max_id (ordered_tweets tweets)).

Lemma before_halt_prefix ordered :
  exists rest, ordered = before_halt view max_id ordered ++ rest.
Proof.
  induction ordered as [|kv ordered [rest IH]]; [by exists []|].
  simpl. destruct (halts view max_id kv); [by eexists|].
  exists rest. simpl. by rewrite <- IH.
Qed.

Lemma od_keys_new_entries tweets :
  od_keys (new_entries tweets) = map fst (before_halt view max_id (ordered_tweets tweets)).
Proof. unfold od_keys, new_entries. by rewrite map_map. Qed.

Lemma new_entries_sorted tweets :
  StronglySorted (fun a b => id_lt b a) (od_keys (new_entries tweets)).
Proof.
  rewrite od_keys_new_entries.
  pose proof (ordered_tweets_sorted tweets) as H.
  destruct (before_halt_prefix (ordered_tweets tweets)) as [rest Hrest].
  rewrite Hrest, map_app in H. by apply StronglySorted_app_1_l in H.
Qed.

Lemma new_entries_NoDup tweets : NoDup (od_keys (new_entries tweets)).
Proof.
  rewrite od_keys_new_entries.
  pose proof (ordered_tweets_NoDup tweets) as H.
  destruct (before_halt_prefix (ordered_tweets tweets)) as [rest Hrest].
  rewrite Hrest, map_app in H. by apply NoDup_app in H as [? _].
Qed.

Lemma new_entries_keys tweets k :
  k ∈ od_keys (new_entries tweets) -> is_Some (tweets !! k).
Proof.
  rewrite od_keys_new_entries. intros Hk.
  apply elem_of_ordered_keys.
  destruct (before_halt_prefix (ordered_tweets tweets)) as [rest Hrest].
  rewrite Hrest, map_app. apply elem_of_app. by left.
Qed.

Lemma process_tweets_entries tweets found :
  _process_tweets view tweets max_id found =
  (new_entries tweets, found || existsb (halts view max_id) (ordered_tweets tweets)).
Proof.
  unfold _process_tweets. rewrite process_loop_spec. f_equal.
  rewrite fold_od_set_fresh; [done| |intros k _; apply not_elem_of_nil].
  rewrite <- od_keys_new_entries. apply new_entries_NoDup.
Qed.

(** A page whose ids are all new to the conversation is appended to it. *)
Lemma append_conversation_fresh (tweets conversation_set : odict message) :
  NoDup (od_keys conversation_set) ->
  (forall k, k ∈ od_keys conversation_set -> k ∉ od_keys tweets) ->
  append_conversation tweets conversation_set = tweets ++ conversation_set.
Proof.
  intros Hnd Hfresh. unfold append_conversation.
  rewrite (fold_od_set_fresh snd); [|done..].
  f_equal. induction conversation_set as [|[k m] cs IH]; [done|].
  simpl. f_equal. apply IH.
  - by apply NoDup_cons in Hnd as [_ ?].
  - intros k' Hk'. apply Hfresh. by right.
Qed.

(** The state after the page of a turn has been processed. *)
Definition after_page (st : crawl_state) (tweets : gmap string string)
    (cursor : string) : crawl_state :=
  {| conversation := append_conversation (conversation st) (new_entries tweets);
     payload := Some cursor;
     requests := requests st ++ [payload st];
     max_id_found := existsb (halts view max_id) (ordered_tweets tweets);
     stdout := stdout st |}.

Lemma crawl_loop_page t script st tweets cursor :
  max_id_found st = false ->
  turn_page t = Some (tweets, cursor) ->
  crawl_loop view max_id (t :: script) st =
  match sleep t with
  | Raise KeyboardInterrupt =>
      Left (say (after_page st tweets cursor) [interruption_requested])
  | Raise e => Propagated e (after_page st tweets cursor)
  | Ok _ => crawl_loop view max_id script (after_page st tweets cursor)
  end.
Proof.
  intros Hfound Hpage. unfold turn_page in Hpage.
  cbn [crawl_loop]. rewrite Hfound.
  destruct (response t) as [json|e]; [|done].
  destruct (errors json); [done|].
  destruct (max_entry_id json); [|done].
  destruct (min_entry_id json) as [c|]; [|done].
  destruct (items json) as [tw|]; [|done].
  injection Hpage as -> ->.
  cbn [max_id_found conversation payload requests stdout].
  rewrite process_tweets_entries. cbn [orb]. reflexivity.
Qed.

Lemma crawl_loop_found script st :
  max_id_found st = true -> crawl_loop view max_id script st = Left st.
Proof. intros H. destruct script; simpl; by rewrite H. Qed.

End CrawlFacts.

(** ** The incremental stop *)

Section IncrementalStop.

Variable view : string -> string -> fragment_view.
Variable max_id : string.

(** In a page gone through from its greatest id down, the fragments before
    the marker are those with a greater id. *)
Lemma before_halt_above (ordered : list (string * string)) :
  StronglySorted (fun a b => id_lt b a) (map fst ordered) ->
  max_id ∈ map fst ordered ->
  (forall k v, (k, v) ∈ ordered -> id_lt max_id k ->
     parse_fragment view k v <> Raise KeyboardInterrupt) ->
  before_halt view max_id ordered = filter (fun kv => id_lt max_id kv.1) ordered /\
  existsb (halts view max_id) ordered = true.
Proof.
  induction ordered as [|[k v] ordered IH]; intros Hs Hin Hint.
  { by apply elem_of_nil in Hin. }
  simpl in Hs. apply StronglySorted_cons in Hs as [Hall Hs].
  rewrite Forall_forall in Hall.
  assert (Hh : halts view max_id (k, v) = String.eqb k max_id ||
            match parse_fragment view k v with
            | Raise KeyboardInterrupt => true
            | _ => false
            end) by done.
  cbn [before_halt existsb]. rewrite Hh.
  destruct (String.eqb_spec k max_id) as [->|Hne].
  - cbn [orb]. split; [|done].
    rewrite filter_cons_False by apply id_lt_irrefl.
    symmetry. clear IH Hin Hint Hs Hh.
    induction ordered as [|[k' v'] ordered IH]; [done|].
    rewrite filter_cons_False.
    + apply IH. intros x Hx. apply Hall. by right.
    + simpl. apply id_lt_asym, Hall. by left.
  - simpl in Hin. apply elem_of_cons in Hin as [Heq|Hin]; [congruence|].
    assert (id_lt max_id k) as Hlt by (by apply Hall).
    assert (parse_fragment view k v <> Raise KeyboardInterrupt) as Hk.
    { apply Hint; [by left|done]. }
    destruct IH as [IH1 IH2]; [done..| |].
    { intros k' v' Hkv. apply Hint. by right. }
    rewrite filter_cons_True by done. rewrite IH1, IH2.
    destruct (parse_fragment view k v) as [m|[]]; cbn [orb];
      rewrite ?orb_true_r; done.
Qed.

Lemma get_tweet_id_entry_of kv latest :
  get_tweet_id (entry_of view kv) = Ok latest -> latest = kv.1.
Proof.
  unfold entry_of, parse_fragment. destruct kv as [k v]. simpl.
  destruct (view k v) as [e|a ts els|text|]; simpl.
  - by intros [= <-].
  - destruct (parse_elements els []); simpl; by intros [= <-].
  - by intros [= <-].
  - done.
Qed.

End IncrementalStop.

Lemma head_is_greatest (keys : list string) k0 rest :
  keys = k0 :: rest ->
  StronglySorted (fun a b => id_lt b a) keys ->
  forall k, k ∈ keys -> String.le k k0.
Proof.
  intros -> [Hall _]%StronglySorted_cons k [->|Hk]%elem_of_cons; [done|].
  rewrite Forall_forall in Hall. by apply Hall.
Qed.

(** The page of the scenario with ids of one length. *)
Definition page_of_five : gmap string string :=
  {[ "105" := "a"; "103" := "b"; "101" := "c"; "100" := "d"; "099" := "e" ]}.

(** C1: with the stored marker 100 and a page that holds the ids 105, 103,
    101, 100 and 99, the ids are gone through as sorted strings, 99 first:
    the run stores 99 as well, before 105, 103 and 101, and stops at 100.
    The write-back writes 101, 103, 105 and then 99, and the marker it
    writes is 99, the id stored first, not 105. *)
Theorem incremental_stop_stores_a_lower_id :
  exists st,
    crawl utc_posix view_text (Some transcript_100)
      [page_turn {[ "105" := "a"; "103" := "b"; "101" := "c";
                    "100" := "d"; "99" := "e" ]}] false =
      WroteBack st "100"
        (Ok (Some ("[2021-01-01 00:00:00] <bob> first" +:+ Py.nl +:+
                   "[2021-01-01 00:00:00] <bob> c" +:+ Py.nl +:+
                   "[2021-01-01 00:00:00] <bob> b" +:+ Py.nl +:+
                   "[2021-01-01 00:00:00] <bob> a" +:+ Py.nl +:+
                   "[2021-01-01 00:00:00] <bob> e" +:+ Py.nl +:+
                   "[LatestTweetID] 99" +:+ Py.nl))) /\
    od_keys (conversation st) = ["99"; "105"; "103"; "101"] /\
    max_id_found st = true /\
    requests st = [None].
Proof. eexists. split; [vm_compute; reflexivity|]. repeat split. Qed.

(** ** String order and numeric order of ids *)

(** The number a string of decimal digits denotes. *)
Fixpoint id_value_from (acc : Z) (s : string) : Z :=
  match s with
  | String c s' => id_value_from (10 * acc + Py.digit_val c) s'
  | EmptyString => acc
  end.

Definition id_value (s : string) : Z := id_value_from 0 s.

Lemma int_digits_value s : forall acc,
  all_digits s = true -> Py.int_digits acc true s = Some (id_value_from acc s).
Proof.
  induction s as [|c s IH]; intros acc H; [done|].
  simpl in *. apply andb_true_iff in H as [-> Hs]. by apply IH.
Qed.

Lemma digit_val_range c : Py.isdigit c = true -> 0 <= Py.digit_val c <= 9.
Proof.
  unfold Py.isdigit, Py.digit_val.
  intros [H1 H2]%andb_true_iff.
  apply Nat.leb_le in H1, H2. lia.
Qed.

Lemma id_value_from_split s : forall acc,
  all_digits s = true ->
  id_value_from acc s = acc * 10 ^ Z.of_nat (String.length s) + id_value s /\
  0 <= id_value s < 10 ^ Z.of_nat (String.length s).
Proof.
  unfold id_value. induction s as [|c s IH]; intros acc H.
  - simpl. lia.
  - simpl in H. apply andb_true_iff in H as [Hc Hs].
    pose proof (digit_val_range c Hc) as Hd.
    cbn [id_value_from String.length].
    destruct (IH (10 * acc + Py.digit_val c) Hs) as [-> Hb].
    destruct (IH (10 * 0 + Py.digit_val c) Hs) as [-> _].
    rewrite Nat2Z.inj_succ, Z.pow_succ_r by lia.
    set (P := 10 ^ Z.of_nat (String.length s)) in *.
    split; [ring|]. nia.
Qed.

Lemma ascii_compare_digit_val c d :
  match Ascii.compare c d with
  | Eq => c = d
  | Lt => Py.digit_val c < Py.digit_val d
  | Gt => Py.digit_val d < Py.digit_val c
  end.
Proof.
  destruct (Ascii.compare c d) eqn:E.
  - by apply Ascii.compare_eq_iff.
  - assert (N_of_ascii c < N_of_ascii d)%N as H by (by apply N.compare_lt_iff).
    unfold Py.digit_val, nat_of_ascii. rewrite !N_nat_Z. lia.
  - assert (N_of_ascii d < N_of_ascii c)%N as H by (by apply N.compare_gt_iff).
    unfold Py.digit_val, nat_of_ascii. rewrite !N_nat_Z. lia.
Qed.

Lemma compare_lt_value a : forall b,
  String.length a = String.length b ->
  all_digits a = true -> all_digits b = true ->
  String.compare a b = Lt -> id_value a < id_value b.
Proof.
  induction a as [|c a IH]; intros [|d b] Hlen Ha Hb Hcmp; try done.
  simpl in Hlen, Ha, Hb, Hcmp. injection Hlen as Hlen.
  apply andb_true_iff in Ha as [Hc Ha]. apply andb_true_iff in Hb as [Hd Hb].
  unfold id_value. cbn [id_value_from].
  destruct (id_value_from_split a (10 * 0 + Py.digit_val c) Ha) as [-> Hba].
  destruct (id_value_from_split b (10 * 0 + Py.digit_val d) Hb) as [-> Hbb].
  rewrite <- Hlen in *.
  set (P := 10 ^ Z.of_nat (String.length a)) in *.
  pose proof (ascii_compare_digit_val c d) as Hcd.
  destruct (Ascii.compare c d); [|nia|done].
  subst d. specialize (IH b Hlen Ha Hb Hcmp). lia.
Qed.

(** On decimal ids of one length, the order of strings is the order of
    numbers. *)
Lemma id_lt_value a b :
  String.length a = String.length b ->
  all_digits a = true -> all_digits b = true ->
  id_lt a b -> id_value a < id_value b.
Proof.
  intros Hlen Ha Hb [Hle Hne]. apply compare_lt_value; try done.
  unfold String.le, String.leb in Hle.
  destruct (String.compare a b) eqn:E; [|done|done].
  by apply String.compare_eq_iff in E.
Qed.

Lemma rstrip_digits s : all_digits s = true -> Py.rstrip_int s = s.
Proof.
  induction s as [|c s IH]; [done|]. simpl.
  intros [Hc Hs]%andb_true_iff. rewrite IH by done.
  destruct s; [|done].
  destruct c as [[] [] [] [] [] [] [] []]; done.
Qed.

(** [int] of a decimal id is the number it denotes. *)
Lemma int_of_decimal s : is_decimal s = true -> Py.int (Some s) = Ok (id_value s).
Proof.
  intros [Hne Hd]%andb_true_iff. destruct s as [|c s]; [done|].
  pose proof Hd as Hd'. simpl in Hd'. apply andb_true_iff in Hd' as [Hc Hs].
  unfold Py.int.
  assert (Py.lstrip_int (String c s) = String c s) as ->.
  { simpl. destruct c as [[] [] [] [] [] [] [] []]; done. }
  rewrite rstrip_digits by done.
  assert (Py.int_digits 0 false (String c s) = Some (id_value (String c s))) as Hv.
  { simpl. rewrite Hc. by apply int_digits_value. }
  destruct c as [[] [] [] [] [] [] [] []]; try done; by rewrite Hv.
Qed.

Lemma StronglySorted_impl_elem {A} (R S : relation A) (l : list A) :
  (forall x y, x ∈ l -> y ∈ l -> R x y -> S x y) ->
  StronglySorted R l -> StronglySorted S l.
Proof.
  intros HRS H. induction H as [|a l _ IH Hall]; constructor.
  - apply IH. intros x y Hx Hy. apply HRS; by right.
  - rewrite Forall_forall in Hall |- *. intros y Hy.
    apply HRS; [by left|by right|by apply Hall].
Qed.

(** ** The order of what is written *)

(** The pages a script delivers, in order. *)
Definition script_pages (script : list (turn conversation_json))
  : list (gmap string string) :=
  omap (fun t => fst <$> turn_page t) script.

(** Pagination goes back in time: every id of a page is below, in the order
    of strings, every id of the pages before it. *)
Definition descending_pages (pages : list (gmap string string)) : Prop :=
  forall (i j : nat) newer older a b,
    (i < j)%nat -> pages !! i = Some newer -> pages !! j = Some older ->
    is_Some (newer !! a) -> is_Some (older !! b) -> id_lt b a.

Lemma descending_pages_cons page pages :
  descending_pages (page :: pages) ->
  (forall older a b, older ∈ pages -> is_Some (page !! a) -> is_Some (older !! b) ->
     id_lt b a) /\
  descending_pages pages.
Proof.
  intros H. split.
  - intros older a b [j Hj]%list_elem_of_lookup Ha Hb.
    apply (H 0%nat (S j) page older a b); [lia|done..].
  - intros i j newer older a b Hij Hi Hj.
    apply (H (S i) (S j) newer older a b); [lia|done..].
Qed.

Section CrawlOrder.

Variable view : string -> string -> fragment_view.
Variable max_id : string.

(** A turn without a page leaves the conversation as it is. *)
Lemma crawl_loop_no_page t script st st' :
  max_id_found st = false ->
  turn_page t = None ->
  crawl_loop view max_id (t :: script) st = Left st' ->
  conversation st' = conversation st /\ requests st' = requests st ++ [payload st].
Proof.
  intros Hfound Hpage. unfold turn_page in Hpage.
  cbn [crawl_loop]. rewrite Hfound.
  destruct (response t) as [json|e].
  - destruct (errors json) as [errs|].
    { destruct (report_errors errs stop_tweets). done. }
    destruct (max_entry_id json).
    + destruct (min_entry_id json); [|done].
      destruct (items json); done.
    + by intros [= <-].
  - destruct e; try done. by intros [= <-].
Qed.

Lemma script_pages_cons t script :
  script_pages (t :: script) =
  match turn_page t with
  | Some (tweets, _) => tweets :: script_pages script
  | None => script_pages script
  end.
Proof. unfold script_pages. simpl. by destruct (turn_page t) as [[]|]. Qed.

(** The ids of the conversation stay in descending order, whatever the way
    the loop is left. *)
Lemma crawl_loop_sorted script : forall st st',
  crawl_loop view max_id script st = Left st' ->
  StronglySorted (fun a b => id_lt b a) (od_keys (conversation st)) ->
  (forall k older b, k ∈ od_keys (conversation st) -> older ∈ script_pages script ->
     is_Some (older !! b) -> id_lt b k) ->
  descending_pages (script_pages script) ->
  StronglySorted (fun a b => id_lt b a) (od_keys (conversation st')).
Proof.
  induction script as [|t script IH]; intros st st' Hloop Hsorted Habove Hdesc.
  { simpl in Hloop. destruct (max_id_found st); [|done]. by injection Hloop as <-. }
  destruct (max_id_found st) eqn:Hfound.
  { rewrite crawl_loop_found in Hloop by done. by injection Hloop as <-. }
  rewrite script_pages_cons in Habove, Hdesc.
  destruct (turn_page t) as [[tweets cursor]|] eqn:Hpage.
  - apply descending_pages_cons in Hdesc as [Hnew Hdesc].
    assert (forall k, k ∈ od_keys (new_entries view max_id tweets) ->
              k ∉ od_keys (conversation st)) as Hfresh.
    { intros k Hk Hk'. apply new_entries_keys in Hk.
      eapply id_lt_irrefl, (Habove k tweets k); [done|by left|done]. }
    assert (conversation (after_page view max_id st tweets cursor) =
            conversation st ++ new_entries view max_id tweets) as Hconv.
    { cbn [after_page conversation].
      by apply append_conversation_fresh; [apply new_entries_NoDup|]. }
    assert (StronglySorted (fun a b => id_lt b a)
              (od_keys (conversation (after_page view max_id st tweets cursor))))
      as Hsorted'.
    { rewrite Hconv, od_keys_app. apply StronglySorted_app.
      split; [|split; [done|apply new_entries_sorted]].
      intros x y Hx Hy. apply new_entries_keys in Hy.
      apply (Habove x tweets y); [done|by left|done]. }
    rewrite (crawl_loop_page view max_id t script st tweets cursor) in Hloop by done.
    destruct (sleep t) as [[]|e].
    + eapply IH; [exact Hloop|exact Hsorted'| |exact Hdesc].
      intros k older b Hk Holder Hb.
      rewrite Hconv, od_keys_app in Hk. apply elem_of_app in Hk as [Hk|Hk].
      * apply (Habove k older b); [done|by right|done].
      * apply new_entries_keys in Hk. by apply (Hnew older k b).
    + destruct e; try done. by injection Hloop as <-.
  - destruct (crawl_loop_no_page t script st st' Hfound Hpage Hloop) as [-> _].
    done.
Qed.

End CrawlOrder.

(** Two pages, then the beginning of the thread. *)
Definition two_pages : list (turn conversation_json) :=
  [page_turn (list_to_map [("105", "a"); ("103", "b")]);
   page_turn (list_to_map [("101", "c"); ("100", "d")]);
   last_turn].

Lemma two_pages_descending : descending_pages (script_pages two_pages).
Proof.
  intros i j newer older a b Hij Hi Hj Ha Hb.
  destruct i as [|[|i]]; destruct j as [|[|j]]; try lia; try done.
  injection Hi as <-. injection Hj as <-.
  apply elem_of_dom in Ha, Hb.
  rewrite !dom_insert_L, dom_empty_L in Ha, Hb.
  rewrite !elem_of_union, !elem_of_singleton, elem_of_empty in Ha, Hb.
  destruct Ha as [->|[->|[]]], Hb as [->|[->|[]]];
    vm_compute; (split; [exact I|discriminate]).
Qed.

(** C3: a page with the ids 9 and 10 is gone through as sorted strings, 9
    first; the write-back goes through what was stored in reverse, so
    that the line of 10 is written before the line of 9, and the marker
    names 9. *)
Theorem ten_is_written_before_nine :
  exists st,
    crawl utc_posix view_text None
      [page_turn {[ "9" := "nine"; "10" := "ten" ]}; last_turn] false =
      WroteBack st "0"
        (Ok (Some ("[2021-01-01 00:00:00] <bob> ten" +:+ Py.nl +:+
                   "[2021-01-01 00:00:00] <bob> nine" +:+ Py.nl +:+
                   "[LatestTweetID] 9" +:+ Py.nl))) /\
    od_keys (reverse (conversation st)) = ["10"; "9"] /\
    (Py.int (Some "9"), Py.int (Some "10")) = (Ok 9, Ok 10).
Proof. eexists. split; [vm_compute; reflexivity|]. split; vm_compute; reflexivity. Qed.

(** ** Runs that are cut short *)

Section CrawlPrefix.

Variable view : string -> string -> fragment_view.
Variable max_id : string.

(** A script the loop goes through entirely and after which it asks for
    another turn: one request was sent for each of its turns, and the run
    goes on with whatever follows. *)
Lemma crawl_loop_starved pre : forall st0 st,
  crawl_loop view max_id pre st0 = Starved st ->
  max_id_found st = false /\
  length (requests st) = (length (requests st0) + length pre)%nat /\
  forall rest,
    crawl_loop view max_id (pre ++ rest) st0 = crawl_loop view max_id rest st.
Proof.
  induction pre as [|t pre IH]; intros st0 st H.
  - simpl in H. destruct (max_id_found st0) eqn:Hf; [done|].
    injection H as <-. split; [done|]. split; [simpl; lia|].
    intros rest. done.
  - destruct (max_id_found st0) eqn:Hf.
    { by rewrite crawl_loop_found in H. }
    destruct (turn_page t) as [[tweets cursor]|] eqn:Hpage.
    + rewrite (crawl_loop_page view max_id t pre st0 tweets cursor) in H by done.
      destruct (sleep t) as [[]|e] eqn:Hs; [|by destruct e].
      apply IH in H as (Hfound & Hlen & Hrest).
      split; [done|]. split.
      { rewrite Hlen. cbn [after_page requests]. rewrite length_app. simpl. lia. }
      intros rest. rewrite <- app_comm_cons.
      rewrite (crawl_loop_page view max_id t (pre ++ rest) st0 tweets cursor) by done.
      rewrite Hs. apply Hrest.
    + exfalso. revert H. unfold turn_page in Hpage.
      cbn [crawl_loop]. rewrite Hf.
      destruct (response t) as [json|e].
      * destruct (errors json) as [errs|].
        { by destruct (report_errors errs stop_tweets). }
        destruct (max_entry_id json); [|done].
        destruct (min_entry_id json); [|done].
        destruct (items json); done.
      * by destruct e.
Qed.

End CrawlPrefix.

(** ** The ids of the stored messages *)

(** The id a stored message carries is the key it is stored under. *)
Definition own_id (kv : string * message) : Prop :=
  forall latest, get_tweet_id kv.2 = Ok latest -> latest = kv.1.

Lemma Forall_od_set {V} (P : string * V -> Prop) k v (d : odict V) :
  Forall P d -> P (k, v) -> Forall P (od_set k v d).
Proof.
  intros Hd Hkv. induction Hd as [|[k' v'] d Hk' Hd IH]; simpl.
  - by constructor.
  - destruct (String.eqb k' k); by constructor.
Qed.

Section OwnIds.

Variable view : string -> string -> fragment_view.
Variable max_id : string.

Lemma new_entries_own_id tweets : Forall own_id (new_entries view max_id tweets).
Proof.
  unfold new_entries. apply Forall_forall. intros kv' Hkv'.
  change (map ?f ?l) with (f <$> l) in Hkv'.
  apply list_elem_of_fmap in Hkv' as (kv & -> & _).
  intros latest Hid. simpl in *. by apply (get_tweet_id_entry_of view).
Qed.

Lemma append_conversation_own_id (tweets conversation_set : odict message) :
  Forall own_id tweets -> Forall own_id conversation_set ->
  Forall own_id (append_conversation tweets conversation_set).
Proof.
  unfold append_conversation. intros Ht Hc. revert tweets Ht.
  induction Hc as [|[k m] cs Hkm _ IH]; intros tweets Ht; [done|].
  simpl. apply IH. by apply Forall_od_set.
Qed.

Lemma crawl_loop_own_id script : forall st st',
  crawl_loop view max_id script st = Left st' ->
  Forall own_id (conversation st) -> Forall own_id (conversation st').
Proof.
  induction script as [|t script IH]; intros st st' Hloop Hown.
  { simpl in Hloop. destruct (max_id_found st); [|done]. by injection Hloop as <-. }
  destruct (max_id_found st) eqn:Hfound.
  { rewrite crawl_loop_found in Hloop by done. by injection Hloop as <-. }
  destruct (turn_page t) as [[tweets cursor]|] eqn:Hpage.
  - assert (Forall own_id (conversation (after_page view max_id st tweets cursor)))
      as Hown'.
    { cbn [after_page conversation].
      apply append_conversation_own_id; [done|apply new_entries_own_id]. }
    rewrite (crawl_loop_page view max_id t script st tweets cursor) in Hloop by done.
    destruct (sleep t) as [[]|e].
    + by apply (IH _ _ Hloop).
    + destruct e; try done. by injection Hloop as <-.
  - by destruct (crawl_loop_no_page view max_id t script st st' Hfound Hpage Hloop)
      as [-> _].
Qed.

End OwnIds.

(** ** The incremental stop *)

(** The run on a page that holds the marker id, after the turns [pre]. *)
Lemma stop_at_marker (view : string -> string -> fragment_view) (max_id : string)
    (pre : list (turn conversation_json)) (t : turn conversation_json)
    (st : crawl_state) (tweets : gmap string string) (cursor value : string) :
  crawl_loop view max_id pre (fresh_state false) = Starved st ->
  turn_page t = Some (tweets, cursor) ->
  tweets !! max_id = Some value ->
  (forall id v, tweets !! id = Some v -> id_lt max_id id ->
     parse_fragment view id v <> Raise KeyboardInterrupt) ->
  (forall e, sleep t = Raise e -> e = KeyboardInterrupt) ->
  exists st',
    (forall post,
       crawl_loop view max_id (pre ++ t :: post) (fresh_state false) = Left st') /\
    max_id_found st' = true /\
    requests st' = requests st ++ [payload st] /\
    conversation st' =
      append_conversation (conversation st) (new_entries view max_id tweets) /\
    new_entries view max_id tweets =
      map (fun kv => (kv.1, entry_of view kv))
          (filter (fun kv => id_lt max_id kv.1) (ordered_tweets tweets)).
Proof.
  intros Hpre Hpage Hin Hint Hsleep.
  apply crawl_loop_starved in Hpre as (Hfound & _ & Hrest).
  destruct (before_halt_above view max_id (ordered_tweets tweets)) as [Hbefore Hhalt].
  { apply ordered_tweets_sorted. }
  { apply elem_of_ordered_keys. eauto. }
  { intros k v Hkv. apply Hint. by apply elem_of_ordered_tweets. }
  assert (exists st',
    (forall post, crawl_loop view max_id (t :: post) st = Left st') /\
    max_id_found st' = true /\
    requests st' = requests st ++ [payload st] /\
    conversation st' = conversation (after_page view max_id st tweets cursor))
    as (st' & Hloop & Hfound' & Hreq & Hst).
  { destruct (sleep t) as [[]|e] eqn:Hs.
    - exists (after_page view max_id st tweets cursor). split; [|done].
      intros post.
      rewrite (crawl_loop_page view max_id t post st tweets cursor) by done.
      rewrite Hs. by apply crawl_loop_found.
    - exists (say (after_page view max_id st tweets cursor) [interruption_requested]).
      split; [|done]. intros post.
      rewrite (crawl_loop_page view max_id t post st tweets cursor) by done.
      by rewrite Hs, (Hsleep e). }
  exists st'. split; [intros post; by rewrite Hrest|].
  split; [done|]. split; [done|]. split; [done|].
  unfold new_entries. by rewrite Hbefore.
Qed.

(** A newer page, fetched before the page of the scenario. *)
Definition newer_page : gmap string string := {[ "107" := "g"; "106" := "f" ]}.

(** ** A run that finds nothing new *)

(** C9: the transcript ends with the marker 105 and the remote side has
    the messages 105 and 99, none newer than the marker.  The page is gone
    through as sorted strings, 99 first: the run stores 99 before it meets
    105, and the write-back replaces the marker line by the line of 99 and
    the marker 99; the file is not the one the run started from. *)
Theorem rerun_appends_an_older_message :
  exists st file',
    crawl utc_posix view_text (Some transcript_105)
      [page_turn {[ "105" := "a"; "99" := "z" ]}; last_turn] false =
      WroteBack st "105" (Ok (Some file')) /\
    od_keys (conversation st) = ["99"] /\
    file' = "[2021-01-01 00:00:00] <bob> first" +:+ Py.nl +:+
            "[2021-01-01 00:00:00] <alice> hello world" +:+ Py.nl +:+
            "[2021-01-01 00:00:00] <bob> z" +:+ Py.nl +:+
            "[LatestTweetID] 99" +:+ Py.nl /\
    file' <> transcript_105 /\
    _get_latest_tweet_id (Some transcript_105) = Ok "105" /\
    (Py.int (Some "99"), Py.int (Some "105")) = (Ok 99, Ok 105).
Proof.
  eexists _, _. split; [vm_compute; reflexivity|].
  repeat split; try (vm_compute; reflexivity). vm_compute. discriminate.
Qed.

(** ** The marker of a run *)

(** ** Responses with missing keys *)

(** A response that has [max_entry_id] and [items] but no [min_entry_id]. *)
Definition turn_without_min_entry_id : turn conversation_json :=
  {| response := Ok {| errors := None; max_entry_id := Some "104";
                       min_entry_id := None;
                       items := Some {[ "104" := "older" ]} |};
     sleep := Ok tt |}.

(** A response that has [min_entry_id] and [items] but no [max_entry_id]. *)
Definition turn_without_max_entry_id : turn conversation_json :=
  {| response := Ok {| errors := None; max_entry_id := None;
                       min_entry_id := Some "104";
                       items := Some {[ "104" := "older" ]} |};
     sleep := Ok tt |}.

(** C5: the loop looks for [max_entry_id] and then reads [min_entry_id].
    After a first page with the message 105, a response without
    [min_entry_id] makes [crawl] raise [KeyError]: nothing is written, the
    entry 105 is lost; and a response that has [min_entry_id] but lacks
    [max_entry_id] ends the run as the beginning of the thread, its item
    unread. *)
Theorem begin_of_thread_keyed_on_max_entry_id :
  (exists st,
     crawl utc_posix view_text None
       [page_turn {[ "105" := "new" ]}; turn_without_min_entry_id] false =
       Aborted (KeyError "min_entry_id") (Some st) /\
     od_keys (conversation st) = ["105"]) /\
  (exists st file',
     crawl utc_posix view_text None
       [page_turn {[ "105" := "new" ]}; turn_without_max_entry_id] false =
       WroteBack st "0" (Ok file') /\
     od_keys (conversation st) = ["105"] /\
     stdout st = [begin_of_thread]).
Proof.
  split.
  - eexists. split; [vm_compute; reflexivity|]. vm_compute. reflexivity.
  - eexists _, _. split; [vm_compute; reflexivity|]. split; vm_compute; reflexivity.
Qed.

(** ** An [errors] array *)

Lemma report_errors_guidance errs stop :
  account_locked_guidance ∈ (report_errors errs stop).1 <->
  exists msg rest, errs = (326, msg) :: rest.
Proof.
  destruct errs as [|[code msg] rest]; simpl.
  - split; [|by intros (? & ? & ?)].
    intros [?|[]%elem_of_nil]%elem_of_cons. done.
  - destruct (Z.eqb_spec code 326) as [->|Hne]; simpl.
    + split; [eauto|]. intros _. right. by left.
    + split.
      * intros [?|[?|[]%elem_of_nil]%elem_of_cons]%elem_of_cons; done.
      * intros (? & ? & [= ? _ _]). done.
Qed.

Lemma report_errors_exn errs stop :
  (report_errors errs stop).2 = match errs with [] => IndexError | _ => Exception stop end.
Proof. by destruct errs as [|[] ?]. Qed.

(** C6 (as the code has it): a response body with an [errors] array ends
    the run with an exception whatever the code of its first error, in
    [crawl] as in [get_threads]: the exception leaves [crawl] before the
    write-back, with what was accumulated, and leaves [get_threads] without
    the threads collected; the code 326 adds the guidance about the locked
    account to what is printed, and only this code does. *)
Theorem errors_array_is_fatal (p : platform) (view : string -> string -> fragment_view)
    (thread : Type) (file : option string) (max_id : string)
    (errs : list (Z * string))
    (pre post : list (turn conversation_json)) (st : crawl_state)
    (json : conversation_json) (sl : result unit)
    (tscript : list (turn (threads_json thread))) (tst : threads_state thread)
    (tjson : threads_json thread) :
  _get_latest_tweet_id file = Ok max_id ->
  crawl_loop view max_id pre (fresh_state false) = Starved st ->
  errors json = Some errs ->
  threads_errors tjson = Some errs ->
  (exists e st',
     crawl p view file (pre ++ {| response := Ok json; sleep := sl |} :: post) false =
       Aborted e (Some st') /\
     e = match errs with [] => IndexError | _ => Exception stop_tweets end /\
     conversation st' = conversation st /\
     stdout st' = stdout st ++ (report_errors errs stop_tweets).1) /\
  (exists e tst',
     get_threads_loop ({| response := Ok tjson; sleep := sl |} :: tscript) tst =
       Raised e tst' /\
     e = match errs with [] => IndexError | _ => Exception stop_conversations end /\
     threads_stdout tst' =
       threads_stdout tst ++ (report_errors errs stop_conversations).1) /\
  (forall stop,
     account_locked_guidance ∈ (report_errors errs stop).1 <->
     exists msg rest, errs = (326, msg) :: rest).
Proof.
  intros Hmarker Hpre Herr Hterr.
  apply crawl_loop_starved in Hpre as (Hfound & _ & Hrest).
  split; [|split; [|intros stop; apply report_errors_guidance]].
  - unfold crawl. rewrite Hmarker, Hrest.
    cbn [crawl_loop response]. rewrite Hfound, Herr.
    pose proof (report_errors_exn errs stop_tweets) as Hexn.
    destruct (report_errors errs stop_tweets) as [lines e].
    eexists _, _. split; [reflexivity|]. by split.
  - cbn [get_threads_loop response]. rewrite Hterr.
    pose proof (report_errors_exn errs stop_conversations) as Hexn.
    destruct (report_errors errs stop_conversations) as [lines e].
    eexists _, _. split; [reflexivity|]. by split.
Qed.

(** A turn whose response carries one error. *)
Definition errors_turn (code : Z) (msg : string) : turn conversation_json :=
  {| response := Ok {| errors := Some [(code, msg)]; max_entry_id := None;
                       min_entry_id := None; items := None |};
     sleep := Ok tt |}.

Definition threads_errors_turn (code : Z) (msg : string) : turn (threads_json string) :=
  {| response := Ok {| threads_errors := Some [(code, msg)];
                       inner_trusted := None; trusted := None |};
     sleep := Ok tt |}.

(** The first response of the thread list, with one thread and more to come. *)
Definition first_threads_turn : turn (threads_json string) :=
  {| response :=
       Ok {| threads_errors := None;
             inner_trusted := Some {| threads := Some ["123-456"]; has_more := Some true;
                                      trusted_min_entry_id := Some "77" |};
             trusted := None |};
     sleep := Ok tt |}.

Lemma errors_array_is_fatal_witness :
  exists e st',
    crawl utc_posix view_text None
      ([page_turn {[ "105" := "new" ]}] ++ errors_turn 326 "locked" :: []) false =
      Aborted e (Some st') /\
    e = Exception stop_tweets /\
    od_keys (conversation st') = ["105"] /\
    account_locked_guidance ∈ stdout st'.
Proof.
  destruct (crawl_loop view_text "0" [page_turn {[ "105" := "new" ]}] (fresh_state false))
    as [st|e st|st] eqn:Hpre;
    [vm_compute in Hpre; discriminate Hpre..|].
  destruct (errors_array_is_fatal utc_posix view_text string None "0"
              [(326, "locked")] [page_turn {[ "105" := "new" ]}] [] st
              {| errors := Some [(326, "locked")]; max_entry_id := None;
                 min_entry_id := None; items := None |}
              (Ok tt) [] {| collected := []; first_request := false;
                            threads_requests := 0; threads_stdout := [] |}
              {| threads_errors := Some [(326, "locked")];
                 inner_trusted := None; trusted := None |})
    as ((e & st' & Hrun & He & Hconv & Hout) & _ & Hguide).
  - reflexivity.
  - exact Hpre.
  - reflexivity.
  - reflexivity.
  - exists e, st'. split; [exact Hrun|]. split; [exact He|]. split.
    + rewrite Hconv. vm_compute in Hpre. injection Hpre as <-. reflexivity.
    + rewrite Hout. apply elem_of_app. right. apply Hguide. eauto.
Defined.

(** The code 88 is not the code of the locked account.  In [crawl] it ends
    the run with the same exception: the message 105, already accumulated,
    is not written.  In [get_threads] it raises as well: the thread already
    collected is not returned. *)
Lemma errors_array_counterexample :
  (exists st,
     crawl utc_posix view_text None
       [page_turn {[ "105" := "new" ]}; errors_turn 88 "Rate limit exceeded"] false =
       Aborted (Exception stop_tweets) (Some st) /\
     od_keys (conversation st) = ["105"] /\
     stdout st = [error_occured; error_details 88 "Rate limit exceeded"]) /\
  (exists tst,
     get_threads [first_threads_turn; threads_errors_turn 88 "Rate limit exceeded"] =
       Raised (Exception stop_conversations) tst /\
     collected tst = ["123-456"]).
Proof.
  split.
  - eexists. split; [vm_compute; reflexivity|]. split; vm_compute; reflexivity.
  - eexists. split; [vm_compute; reflexivity|]. vm_compute. reflexivity.
Qed.

(** ** Cancellation *)

(** A cancellation signal arrives in the course of a turn: during the
    request, during the parsing of a fragment of its page, or during the
    delay that ends it. *)
Inductive cancelled (view : string -> string -> fragment_view)
    (t : turn conversation_json) : Prop :=
  | cancelled_request :
      response t = Raise KeyboardInterrupt -> cancelled view t
  | cancelled_parse tweets cursor k value :
      turn_page t = Some (tweets, cursor) ->
      tweets !! k = Some value ->
      parse_fragment view k value = Raise KeyboardInterrupt ->
      (forall e, sleep t = Raise e -> e = KeyboardInterrupt) ->
      cancelled view t
  | cancelled_sleep tweets cursor :
      turn_page t = Some (tweets, cursor) ->
      sleep t = Raise KeyboardInterrupt ->
      cancelled view t.

(** C8 (as the code has it): when a run has gone through the turns [pre]
    and a cancellation signal arrives in the course of the next turn, the
    run sends no request after the one of that turn and calls the
    write-back, with the entries accumulated before the turn and those the
    turn had stored when the signal came. *)
Theorem cancellation_reaches_write_back (p : platform)
    (view : string -> string -> fragment_view) (file : option string)
    (max_id : string) (pre post : list (turn conversation_json))
    (t : turn conversation_json) (st : crawl_state) :
  _get_latest_tweet_id file = Ok max_id ->
  crawl_loop view max_id pre (fresh_state false) = Starved st ->
  cancelled view t ->
  exists st',
    crawl p view file (pre ++ t :: post) false =
      WroteBack st' max_id (write_conversation p (conversation st') file max_id) /\
    requests st' = requests st ++ [payload st] /\
    length (requests st') = S (length pre) /\
    conversation st' =
      match turn_page t with
      | Some (tweets, _) =>
          append_conversation (conversation st) (new_entries view max_id tweets)
      | None => conversation st
      end.
Proof.
  intros Hmarker Hpre Hcancel.
  apply crawl_loop_starved in Hpre as (Hfound & Hlen & Hrest).
  simpl in Hlen.
  assert (exists st',
    crawl_loop view max_id (t :: post) st = Left st' /\
    requests st' = requests st ++ [payload st] /\
    conversation st' =
      match turn_page t with
      | Some (tweets, _) =>
          append_conversation (conversation st) (new_entries view max_id tweets)
      | None => conversation st
      end) as (st' & Hloop & Hreq & Hconv).
  { destruct Hcancel as [Hresp|tweets cursor k value Hpage Hk Hparse Hsleep
                         |tweets cursor Hpage Hsleep].
    - assert (turn_page t = None) as -> by (unfold turn_page; by rewrite Hresp).
      cbn [crawl_loop]. rewrite Hfound, Hresp. eauto.
    - rewrite Hpage, (crawl_loop_page view max_id t post st tweets cursor) by done.
      assert (max_id_found (after_page view max_id st tweets cursor) = true) as Hhalt.
      { cbn [after_page max_id_found]. apply existsb_exists.
        exists (k, value). split.
        - by apply list_elem_of_In, elem_of_ordered_tweets.
        - unfold halts. simpl. rewrite Hparse. apply orb_true_r. }
      destruct (sleep t) as [[]|e] eqn:Hs.
      + rewrite crawl_loop_found by done. eauto.
      + rewrite (Hsleep e) by done. eauto.
    - rewrite Hpage, (crawl_loop_page view max_id t post st tweets cursor) by done.
      rewrite Hsleep. eauto. }
  exists st'. unfold crawl. rewrite Hmarker, Hrest, Hloop.
  split; [done|]. split; [done|]. split; [|done].
  rewrite Hreq, length_app, Hlen. simpl. lia.
Qed.

(** A turn whose request is interrupted. *)
Definition interrupted_turn : turn conversation_json :=
  {| response := Raise KeyboardInterrupt; sleep := Ok tt |}.

Lemma cancellation_reaches_write_back_witness :
  exists st',
    crawl utc_posix view_text None
      ([page_turn {[ "105" := "new" ]}] ++
       interrupted_turn :: [page_turn {[ "103" := "older" ]}]) false =
      WroteBack st' "0" (write_conversation utc_posix (conversation st') None "0") /\
    length (requests st') = 2%nat /\
    od_keys (conversation st') = ["105"].
Proof.
  destruct (crawl_loop view_text "0" [page_turn {[ "105" := "new" ]}] (fresh_state false))
    as [st|e st|st] eqn:Hpre;
    [vm_compute in Hpre; discriminate Hpre..|].
  destruct (cancellation_reaches_write_back utc_posix view_text None "0"
              [page_turn {[ "105" := "new" ]}] [page_turn {[ "103" := "older" ]}]
              interrupted_turn st)
    as (st' & Hrun & _ & Hlen & Hconv).
  - reflexivity.
  - exact Hpre.
  - apply cancelled_request. reflexivity.
  - exists st'. split; [exact Hrun|]. split; [exact Hlen|].
    rewrite Hconv. vm_compute in Hpre. injection Hpre as <-. reflexivity.
Defined.

(** A run that has entered the loop and stored the message 105 gets a
    response with the error 326: [crawl] raises and the write-back is not
    called. *)
Lemma write_back_counterexample :
  exists st,
    crawl utc_posix view_text None
      [page_turn {[ "105" := "new" ]}; errors_turn 326 "locked"] false =
      Aborted (Exception stop_tweets) (Some st) /\
    od_keys (conversation st) = ["105"] /\
    length (requests st) = 2%nat.
Proof.
  eexists. split; [vm_compute; reflexivity|]. split; vm_compute; reflexivity.
Qed.

(** ** The element lists of the messages *)

Section HeapFacts.

Variable view : string -> string -> fragment_view.

(** The value is no instance, or an instance whose own [elements] is a list
    at an address from [lo] up and below [hi]. *)
Definition owns (lo hi : nat) (v : Heap.value) : Prop :=
  match v with
  | Heap.Instance o => exists l, Heap.self_elements o = Some l /\ (lo <= l < hi)%nat
  | _ => True
  end.

Lemma owns_mono lo hi hi' v : (hi <= hi')%nat -> owns lo hi v -> owns lo hi' v.
Proof.
  intros Hle. destruct v as [o| |]; simpl; [|done..].
  intros (l & Hl & Hr). exists l. split; [done|lia].
Qed.

Lemma owns_value_loc lo hi v l :
  owns lo hi v -> Heap.value_loc v = Some l -> (lo <= l < hi)%nat.
Proof.
  destruct v as [o| |]; simpl; [|done..].
  intros (l' & Hl' & Hr) [= <-]. unfold Heap.elements_of. by rewrite Hl'.
Qed.

Lemma read_app lo (h k : Heap.heap) v :
  owns lo (length h) v -> Heap.read (h ++ k) v = Heap.read h v.
Proof.
  destruct v as [o| |]; simpl; [|done..].
  intros (l & Hl & Hr). unfold Heap.elements_of. rewrite Hl. simpl.
  by rewrite lookup_app_l by lia.
Qed.

Lemma read_all_app lo (h k : Heap.heap) (d : odict Heap.value) :
  Forall (owns lo (length h)) (map snd d) ->
  Heap.read_all (h ++ k) d = Heap.read_all h d.
Proof.
  unfold Heap.read_all. induction d as [|[i v] d IH]; [done|].
  simpl. intros [Hv Hd]%Forall_cons. rewrite IH by done.
  by rewrite (read_app lo).
Qed.

Lemma read_all_od_set (h : Heap.heap) k v (d : odict Heap.value) :
  Heap.read_all h (od_set k v d) = od_set k (Heap.read h v) (Heap.read_all h d).
Proof.
  unfold Heap.read_all. induction d as [|[k' v'] d IH]; [done|].
  simpl. destruct (String.eqb k' k); simpl; [done|]. by rewrite IH.
Qed.

Lemma elem_of_od_set_snd (k : string) (v x : Heap.value) (d : odict Heap.value) :
  x ∈ map snd (od_set k v d) -> x = v \/ x ∈ map snd d.
Proof.
  induction d as [|[k' v'] d IH]; simpl.
  - intros [->|[]%elem_of_nil]%elem_of_cons. by left.
  - destruct (String.eqb k' k); simpl.
    + intros [->|Hx]%elem_of_cons; [by left|]. right. by right.
    + intros [->|Hx]%elem_of_cons; [right; by left|].
      destruct (IH Hx) as [->|?]; [by left|]. right. by right.
Qed.

Lemma elem_of_locs_od_set k v (d : odict Heap.value) l :
  l ∈ Heap.locs (od_set k v d) -> Heap.value_loc v = Some l \/ l ∈ Heap.locs d.
Proof.
  unfold Heap.locs. induction d as [|[k' v'] d IH]; simpl.
  - destruct (Heap.value_loc v); [|by intros []%elem_of_nil].
    intros [->|[]%elem_of_nil]%elem_of_cons. by left.
  - destruct (String.eqb k' k); simpl.
    + destruct (Heap.value_loc v) as [lv|]; simpl.
      * intros [->|Hl]%elem_of_cons; [by left|].
        right. destruct (Heap.value_loc v'); [by right|done].
      * intros Hl. right. destruct (Heap.value_loc v'); [by right|done].
    + destruct (Heap.value_loc v') as [lv'|]; simpl.
      * intros [->|Hl]%elem_of_cons; [right; by left|].
        destruct (IH Hl) as [?|?]; [by left|]. right. by right.
      * done.
Qed.

Lemma NoDup_locs_od_set k v (d : odict Heap.value) :
  NoDup (Heap.locs d) ->
  (forall l, Heap.value_loc v = Some l -> l ∉ Heap.locs d) ->
  NoDup (Heap.locs (od_set k v d)).
Proof.
  unfold Heap.locs. induction d as [|[k' v'] d IH]; simpl; intros Hnd Hfresh.
  - destruct (Heap.value_loc v); [|constructor].
    apply NoDup_singleton.
  - destruct (String.eqb k' k); simpl.
    + destruct (Heap.value_loc v') as [lv'|]; simpl in *.
      * apply NoDup_cons in Hnd as [_ Hnd].
        destruct (Heap.value_loc v) as [lv|]; [|done].
        apply NoDup_cons. split; [|done].
        intros Hin. apply (Hfresh lv eq_refl). by right.
      * destruct (Heap.value_loc v) as [lv|]; [|done].
        apply NoDup_cons. split; [|done]. by apply Hfresh.
    + destruct (Heap.value_loc v') as [lv'|]; simpl in *.
      * apply NoDup_cons in Hnd as [Hlv' Hnd].
        apply NoDup_cons. split.
        -- intros Hin. apply elem_of_locs_od_set in Hin as [Hv|Hin]; [|done].
           apply (Hfresh lv' Hv). by left.
        -- apply IH; [done|]. intros l Hl Hin. apply (Hfresh l Hl). by right.
      * by apply IH.
Qed.

(** The element loop fills the list of the instance and no other. *)
Lemma parse_elements_refines o (h : Heap.heap) dm_elements : forall elements,
  Heap.self_elements o = Some (length h) ->
  exists elements',
    (Heap.parse_elements o dm_elements (h ++ [elements])).1 = h ++ [elements'] /\
    match parse_elements dm_elements elements with
    | Ok els =>
        elements' = els /\
        (Heap.parse_elements o dm_elements (h ++ [elements])).2 = Ok tt
    | Raise e =>
        (Heap.parse_elements o dm_elements (h ++ [elements])).2 = Raise e
    end.
Proof.
  induction dm_elements as [|[e| |e] rest IH]; intros elements Ho; simpl.
  - by exists elements.
  - assert (Heap.append_element o e (h ++ [elements]) = h ++ [elements ++ [e]]) as ->.
    { unfold Heap.append_element, Heap.elements_of. rewrite Ho. simpl.
      replace (length h) with (length h + 0)%nat by lia.
      by rewrite alter_app_r. }
    by apply IH.
  - by apply IH.
  - by exists elements.
Qed.

(** The [try] body on the heap does what it does on values: it allocates at
    most one list, past the end of the heap, and the value it gives back
    reads as the message. *)
Lemma parse_fragment_refines tweet_id value (h : Heap.heap) :
  exists k,
    (Heap.parse_fragment view tweet_id value h).1 = h ++ k /\
    match parse_fragment view tweet_id value,
          (Heap.parse_fragment view tweet_id value h).2 with
    | Ok m, Ok v =>
        Heap.read (h ++ k) v = m /\ owns (length h) (length (h ++ k)) v
    | Raise e, Raise e' => e = e'
    | _, _ => False
    end.
Proof.
  unfold Heap.parse_fragment, parse_fragment.
  destruct (view tweet_id value) as [e|author ts els|text|]; simpl.
  - exists []. by rewrite app_nil_r.
  - set (o := {| Heap.self_tweet_id := tweet_id; Heap.self_time_stamp := ts;
                 Heap.self_author := author; Heap.self_elements := Some (length h) |}).
    destruct (parse_elements_refines o h els [] eq_refl) as (els' & Hh & Hr).
    destruct (Heap.parse_elements o els (h ++ [[]])) as [h' r]. simpl in *.
    exists [els']. split; [done|].
    destruct (parse_elements els []) as [elements|e]; simpl.
    + destruct Hr as [-> ->]. split.
      * simpl. unfold Heap.elements_of, o. simpl.
        rewrite lookup_app_r by lia. by rewrite Nat.sub_diag.
      * exists (length h). split; [done|]. rewrite length_app. simpl. lia.
    + by rewrite Hr.
  - exists []. by rewrite app_nil_r.
  - exists []. by rewrite app_nil_r.
Qed.

End HeapFacts.

Section HeapRefinement.

Variable view : string -> string -> fragment_view.
Variable max_id : string.

(** What a run of the loop on the heap, from the heap [h], has to do with
    its run on values: the heap has only grown, the stored values read as
    the stored messages, no two of them use one list, and every instance
    owns a list allocated from [lo] on. *)
Definition refines_from (lo : nat) (h : list (list element))
    (r : odict Heap.value * bool * list (list element))
    (pure : odict message * bool) : Prop :=
  (exists k, r.2 = h ++ k) /\
  pure = (Heap.read_all r.2 r.1.1, r.1.2) /\
  NoDup (Heap.locs r.1.1) /\
  Forall (owns lo (length r.2)) (map snd r.1.1).

Lemma elem_of_locs_owns lo hi (d : odict Heap.value) l :
  Forall (owns lo hi) (map snd d) -> l ∈ Heap.locs d -> (lo <= l < hi)%nat.
Proof.
  unfold Heap.locs. intros Hall Hl.
  apply list_elem_of_omap in Hl as ([k v] & Hkv & Hv).
  rewrite Forall_forall in Hall.
  apply (owns_value_loc lo hi v l); [|done].
  apply Hall. change (map snd d) with (snd <$> d).
  apply list_elem_of_fmap. by exists (k, v).
Qed.

Lemma owns_lower lo lo' hi v : (lo <= lo')%nat -> owns lo' hi v -> owns lo hi v.
Proof.
  intros Hle. destruct v as [o| |]; simpl; [|done..].
  intros (l & Hl & Hr). exists l. split; [done|lia].
Qed.

Lemma process_loop_refines ordered : forall conversation_set found h lo,
  (lo <= length h)%nat ->
  NoDup (Heap.locs conversation_set) ->
  Forall (owns lo (length h)) (map snd conversation_set) ->
  refines_from lo h
    (Heap.process_loop view max_id ordered conversation_set found h)
    (process_loop view max_id ordered (Heap.read_all h conversation_set) found).
Proof.
  induction ordered as [|[tweet_id value] rest IH]; intros cs found h lo Hlo Hnd Hown.
  { split; [exists []; simpl; by rewrite app_nil_r|]. by split. }
  cbn [Heap.process_loop process_loop].
  destruct (String.eqb tweet_id max_id).
  { split; [exists []; simpl; by rewrite app_nil_r|]. by split. }
  destruct (parse_fragment_refines view tweet_id value h) as (k1 & Hh1 & Hm).
  destruct (Heap.parse_fragment view tweet_id value h) as [h1 r1].
  simpl in Hh1, Hm. subst h1.
  assert (Heap.read_all (h ++ k1) cs = Heap.read_all h cs) as Hread
    by (by apply (read_all_app lo)).
  assert (Forall (owns lo (length (h ++ k1))) (map snd cs)) as Hown1.
  { eapply Forall_impl; [exact Hown|]. intros v. apply owns_mono.
    rewrite length_app. lia. }
  assert (forall v m,
    Heap.read (h ++ k1) v = m ->
    owns (length h) (length (h ++ k1)) v ->
    refines_from lo h
      (Heap.process_loop view max_id rest (od_set tweet_id v cs) found (h ++ k1))
      (process_loop view max_id rest (od_set tweet_id m (Heap.read_all h cs)) found))
    as Hstore.
  { intros v m Hv Hov.
    destruct (IH (od_set tweet_id v cs) found (h ++ k1) lo) as ([k2 Hk2] & Hp & Hn & Ho).
    - rewrite length_app. lia.
    - apply NoDup_locs_od_set; [done|]. intros l Hl Hin.
      apply (owns_value_loc _ _ _ _ Hov) in Hl.
      apply (elem_of_locs_owns lo (length h)) in Hin; [lia|done].
    - rewrite Forall_forall. intros x Hx.
      apply elem_of_od_set_snd in Hx as [->|Hx].
      + by apply (owns_lower lo (length h)).
      + rewrite Forall_forall in Hown1. by apply Hown1.
    - split; [exists (k1 ++ k2); by rewrite Hk2, app_assoc|].
      split; [|done].
      rewrite <- Hp, read_all_od_set, Hread, Hv. done. }
  destruct (parse_fragment view tweet_id value) as [m|e]; destruct r1 as [v|e'];
    try done.
  - destruct Hm as [Hv Hov]. by apply Hstore.
  - subst e'. destruct e; try (by apply Hstore).
    split; [by exists k1|]. split; [simpl; by rewrite Hread|]. by split.
Qed.

End HeapRefinement.

(** The class-level list is what an instance without an [elements] of its
    own appends to, and what the next such instance reads. *)
Example class_level_list_is_shared :
  let first := Heap.new_DirectMessage "1" None None in
  let second := Heap.new_DirectMessage "2" None None in
  let h := Heap.append_element first (DirectMessageText "hi") [[]] in
  h = [[DirectMessageText "hi"]] /\
  Heap.read h (Heap.Instance second) =
    DirectMessage "2" None None [DirectMessageText "hi"].
Proof. by split. Qed.

(** C10: in a heap that holds the class-level list, empty, every
    [DirectMessage] that [_process_tweets] stores has an [elements]
    attribute of its own, a list allocated in the call and so not the
    class-level one; no two stored messages have the same list; the lists
    that were there before the call, the class-level one among them, are
    unchanged; and each stored message, read through the heap, has exactly
    the elements parsed from its own fragment. *)
Theorem fresh_elements_per_message (view : string -> string -> fragment_view)
    (tweets : gmap string string) (max_id : string) (found : bool)
    (h : list (list element)) :
  h !! Heap.class_elements = Some [] ->
  let '(conversation_set, found', h') :=
    Heap._process_tweets view tweets max_id found h in
  _process_tweets view tweets max_id found =
    (Heap.read_all h' conversation_set, found') /\
  (exists k, h' = h ++ k) /\
  h' !! Heap.class_elements = Some [] /\
  NoDup (Heap.locs conversation_set) /\
  (forall tweet_id o,
     (tweet_id, Heap.Instance o) ∈ conversation_set ->
     exists l, Heap.self_elements o = Some l /\
               l <> Heap.class_elements /\ (length h <= l < length h')%nat).
Proof.
  intros Hclass.
  pose proof (process_loop_refines view max_id (ordered_tweets tweets) [] found h
                (length h) (le_n _) (NoDup_nil_2) (Forall_nil_2 _)) as Href.
  unfold Heap._process_tweets, _process_tweets.
  destruct (Heap.process_loop view max_id (ordered_tweets tweets) [] found h)
    as [[cs found'] h'].
  destruct Href as ([k Hk] & Hp & Hn & Ho). simpl in *.
  split; [done|]. split; [by exists k|]. split.
  { rewrite Hk. by apply lookup_app_l_Some. }
  split; [done|].
  intros tweet_id o Hin. rewrite Forall_forall in Ho.
  destruct (Ho (Heap.Instance o)) as (l & Hl & Hr).
  { change (map snd cs) with (snd <$> cs).
    apply list_elem_of_fmap. by exists (tweet_id, Heap.Instance o). }
  exists l. split; [done|]. split; [|done].
  apply lookup_lt_Some in Hclass. unfold Heap.class_elements in *. lia.
Qed.

Lemma fresh_elements_per_message_witness :
  let '(conversation_set, found', h') :=
    Heap._process_tweets view_two two_fragments "100" false [[]] in
  _process_tweets view_two two_fragments "100" false =
    (Heap.read_all h' conversation_set, found') /\
  (exists k, h' = [[]] ++ k) /\
  h' !! Heap.class_elements = Some [] /\
  NoDup (Heap.locs conversation_set) /\
  (forall tweet_id o,
     (tweet_id, Heap.Instance o) ∈ conversation_set ->
     exists l, Heap.self_elements o = Some l /\
               l <> Heap.class_elements /\ (length [[] : list element] <= l < length h')%nat).
Proof.
  apply (fresh_elements_per_message view_two two_fragments "100" false [[]]).
  reflexivity.
Defined.

(** * The rest of [Conversation] *)

(** ** [Conversation.print_conversation] *)

Section PrintConversation.

Variable p : platform.

(** [sys.stdout.write(s)] as the console decides it, given what it has
    taken so far: it takes the text or raises, for instance
    [UnicodeEncodeError] on a character that its encoding lacks. *)
Variable stdout_write : string -> string -> result unit.

Definition write_stdout (out : string) (s : string) : string * result unit :=
  match stdout_write out s with
  | Ok _ => (out +:+ s, Ok tt)
  | Raise e => (out, Raise e)
  end.

(** [print(s, end=e)]: [s] is written, then [e]. *)
Definition print (out : string) (s e : string) : string * result unit :=
  match write_stdout out s with
  | (out, Ok _) => write_stdout out e
  | (out, Raise e) => (out, Raise e)
  end.

(** [print('{0} '.format(element), end='')] for each element in turn. *)
Fixpoint print_elements (out : string) (elements : list element)
  : string * result unit :=
  match elements with
  | [] => (out, Ok tt)
  | e :: elements' =>
      match print out (element_str e +:+ " ") "" with
      | (out, Ok _) => print_elements out elements'
      | (out, Raise e) => (out, Raise e)
      end
  end.

(** One turn of the loop over [items]: the text on [sys.stdout] after it,
    and whether it raised. *)
Definition print_tweet (out : string) (m : message) : string * result unit :=
  match m with
  | DirectMessage _ time_stamp author elements =>
      match Py.int time_stamp with
      | Raise e => (out, Raise e)
      | Ok t =>
          match Py.strftime_iso (utcoffset p t) t with
          | Raise e => (out, Raise e)
          | Ok irc_formatted_date =>
              match print out ("[" +:+ irc_formatted_date +:+ "] <" +:+
                               Py.fmt author +:+ "> ") "" with
              | (out, Raise e) => (out, Raise e)
              | (out, Ok _) =>
                  match print_elements out elements with
                  | (out, Raise e) => (out, Raise e)
                  | (out, Ok _) => print out (String Py.cr "") Py.nl
                  end
              end
          end
      end
  | DMConversationEntry _ text =>
      print out ("[DMConversationEntry] " +:+ text +:+ String Py.cr "") Py.nl
  | EmptyStr => (out, Ok tt)
  end.

Fixpoint print_tweets (out : string) (items : list (string * message))
  : string * result unit :=
  match items with
  | [] => (out, Ok tt)
  | tweet :: items' =>
      match print_tweet out tweet.2 with
      | (out, Ok _) => print_tweets out items'
      | (out, Raise e) => (out, Raise e)
      end
  end.

Definition print_conversation (tweets : odict message) : string * result unit :=
  print_tweets "" (reverse tweets).

End PrintConversation.
(** * The parsers of one content node *)

(** ** Element trees

    What [lxml.html] hands to the parsers: elements with a tag, attributes,
    the text before the first child, the children, and the text that
    follows the element in its parent (its tail).  Comments and processing
    instructions are left out. *)

Module Lxml.

#[warnings="-register-all"]
Inductive node : Type :=
  | Node (tag : string) (attrib : list (string * string)) (text : option string)
         (children : list node) (tail : option string).

Definition tag (n : node) : string := let 'Node t _ _ _ _ := n in t.
Definition attrib (n : node) : list (string * string) := let 'Node _ a _ _ _ := n in a.
Definition text (n : node) : option string := let 'Node _ _ x _ _ := n in x.
Definition children (n : node) : list node := let 'Node _ _ _ c _ := n in c.
Definition tail (n : node) : option string := let 'Node _ _ _ _ t := n in t.

(** [element.get(key)]: the value of the attribute, or [None]. *)
Fixpoint lookup_attrib (key : string) (a : list (string * string)) : option string :=
  match a with
  | [] => None
  | (k, v) :: a' => if String.eqb k key then Some v else lookup_attrib key a'
  end.

Definition get (n : node) (key : string) : option string :=
  lookup_attrib key (attrib n).

(** The element and its descendants, in document order. *)
Fixpoint subtree (n : node) : list node :=
  n :: flat_map subtree (children n).

(** The descendants alone. *)
Definition descendants (n : node) : list node := flat_map subtree (children n).

(** [element.iter('p', 'a', 'img')]: the element and its descendants that bear one of
    the tags, in document order. *)
Definition iter (tags : list string) (n : node) : list node :=
  filter (fun m => tag m ∈ tags) (subtree n).

(** [element.text_content()]: the text of the element and of its
    descendants, with the tails of the descendants. *)
Fixpoint text_content (n : node) : string :=
  let 'Node _ _ x c _ := n in
  default "" x +:+
  fold_right String.append ""
    (map (fun m => text_content m +:+ default "" (tail m)) c).

(** The words of [s]: its maximal runs of characters that are no
    separators; [word] holds the run being read. *)
Fixpoint words (sep : ascii -> bool) (word s : string) : list string :=
  match s with
  | EmptyString => if String.eqb word "" then [] else [word]
  | String c s' =>
      if sep c
      then (if String.eqb word "" then words sep "" s' else word :: words sep "" s')
      else words sep (word +:+ String c "") s'
  end.

(** The white space of XPath: space, tab, line feed, carriage return. *)
Definition xpath_space (c : ascii) : bool :=
  let n := nat_of_ascii c in
  ((n =? 32) || (n =? 9) || (n =? 10) || (n =? 13))%nat.

(** The test of the CSS selector [.name]: the element has a [class]
    attribute and [name] is one of its words, separated by the white space
    of XPath. *)
Definition css_class (name : string) (n : node) : bool :=
  match get n "class" with
  | Some v => bool_decide (name ∈ words xpath_space "" v)
  | None => false
  end.

(** [element.cssselect('tag.name')]: the element and its descendants that
    match, in document order. *)
Definition cssselect_class (tag_ name : string) (n : node) : list node :=
  filter (fun m => tag m = tag_ /\ css_class name m = true) (subtree n).

(** [name in element.classes]: [name] occurs in the [class] attribute
    (the empty string when there is none), and is one of the words that
    [str.split] cuts it into. *)
Definition in_classes (name : string) (n : node) : bool :=
  let classes := default "" (get n "class") in
  contains name classes && bool_decide (name ∈ words Py.isspace "" classes).

End Lxml.
(** ** [expand_url] and [DirectMessageCard.__init__] *)

Section Parsers.

(** [requests.get(url, allow_redirects=False)], as far as [expand_url]
    reads it: the [location] header of the response if it has one, or the
    exception of the request. *)
Variable requests_get : string -> result (option string).

(** [lxml.html.tostring(text).decode('UTF-8')] *)
Variable tostring : Lxml.node -> string.

Definition expand_url (url : string) : result string :=
  headers_location ← requests_get url;
  match headers_location with
  | Some location => Ok location
  | None => Raise (KeyError "location")
  end.

(** [DirectMessageCard(card_url, card_name)]; ['https://t.co/' in None]
    is a [TypeError]. *)
Definition new_DirectMessageCard (card_url card_name : option string) : result element :=
  match card_url with
  | None => Raise TypeError
  | Some url =>
      if contains "https://t.co/" url
      then _expanded_url ← expand_url url; Ok (DirectMessageCard card_name _expanded_url)
      else Ok (DirectMessageCard card_name url)
  end.

(** ** [Crawler._extract_dm_text_*] and [Crawler._parse_dm_text] *)

(** The result is a [str], or [None] when the attribute is missing. *)
Definition _extract_dm_text_url (elem : Lxml.node) (expanding_mode : string)
  : option string :=
  if String.eqb expanding_mode "only_expanded" then Lxml.get elem "data-expanded-url"
  else if String.eqb expanding_mode "only_short" then Lxml.get elem "href"
  else if String.eqb expanding_mode "short_and_expanded"
  then Some (Py.fmt (Lxml.get elem "href") +:+ " [" +:+
             Py.fmt (Lxml.get elem "data-expanded-url") +:+ "]")
  else Some "".

(** [raw += element.tail] when there is a tail. *)
Definition add_tail (raw : string) (elem : Lxml.node) : string :=
  match Lxml.tail elem with
  | Some tail => raw +:+ tail
  | None => raw
  end.

Definition _extract_dm_text_hashtag (elem : Lxml.node) : string :=
  add_tail (Lxml.text_content elem) elem.

Definition _extract_dm_text_atreply (elem : Lxml.node) : string :=
  add_tail (Lxml.text_content elem) elem.

Definition _extract_dm_text_emoji (elem : Lxml.node) : string :=
  add_tail (Py.fmt (Lxml.get elem "alt")) elem.

(** One turn of the loop over [text_tweet.iter('p', 'a', 'img')];
    [dm_text += None] is a [TypeError]. *)
Definition add_text (dm_text : string) (text : Lxml.node) : result string :=
  if String.eqb (Lxml.tag text) "a" then
    if Lxml.in_classes "twitter-timeline-link" text then
      match _extract_dm_text_url text "only_expanded" with
      | Some raw_url => Ok (dm_text +:+ raw_url)
      | None => Raise TypeError
      end
    else if Lxml.in_classes "twitter-hashtag" text then
      Ok (dm_text +:+ _extract_dm_text_hashtag text)
    else if Lxml.in_classes "twitter-atreply" text then
      Ok (dm_text +:+ _extract_dm_text_atreply text)
    else Ok (dm_text +:+ tostring text)
  else if String.eqb (Lxml.tag text) "img" && Lxml.in_classes "Emoji" text then
    Ok (dm_text +:+ _extract_dm_text_emoji text)
  else
    match Lxml.text text with
    | Some t => Ok (dm_text +:+ t)
    | None => Ok dm_text
    end.

Fixpoint add_texts (dm_text : string) (texts : list Lxml.node) : result string :=
  match texts with
  | [] => Ok dm_text
  | text :: texts' => dm_text ← add_text dm_text text; add_texts dm_text texts'
  end.

Definition _parse_dm_text (elem : Lxml.node) : result element :=
  match Lxml.cssselect_class "p" "tweet-text" elem with
  | [] => Raise IndexError
  | text_tweet :: _ =>
      dm_text ← add_texts "" (Lxml.iter ["p"; "a"; "img"] text_tweet);
      Ok (DirectMessageText dm_text)
  end.

(** ** [Crawler._parse_dm_tweet] and [Crawler._parse_dm_card] *)

Definition _twitter_base_url : string := "https://twitter.com".

Definition _parse_dm_tweet (elem : Lxml.node) : result element :=
  match Lxml.cssselect_class "a" "QuoteTweet-link" elem with
  | [] => Raise IndexError
  | tweet_url :: _ =>
      Ok (DirectMessageTweet (_twitter_base_url +:+ Py.fmt (Lxml.get tweet_url "href")))
  end.

(** The selector [div[class^=" card-type-"], div[class*=" card-type-"]]. *)
Definition is_card (n : Lxml.node) : bool :=
  String.eqb (Lxml.tag n) "div" &&
  match Lxml.get n "class" with
  | Some v => String.prefix " card-type-" v || contains " card-type-" v
  | None => false
  end.

Definition _parse_dm_card (elem : Lxml.node) : result element :=
  match filter (fun n => is_card n = true) (Lxml.subtree elem) with
  | [] => Raise IndexError
  | card :: _ =>
      new_DirectMessageCard (Lxml.get card "data-card-url") (Lxml.get card "data-card-name")
  end.

End Parsers.
(** ** The [try] body of [_process_tweets], on the tree of a fragment *)

Section Fragment.

Variable requests_get : string -> result (option string).
Variable tostring : Lxml.node -> string.

(** [lxml.html.fragment_fromstring(value)]: the tree, or what the parser
    raises. *)
Variable fragment_fromstring : string -> result Lxml.node.

(** What the call [_parse_dm_media(dm_element, tweet_id, time_stamp, ...)]
    does, as the element loop sees it. *)
Variable parse_media : Lxml.node -> string -> option string -> element_view.

Definition class_prefix (pre : string) (n : Lxml.node) : bool :=
  match Lxml.get n "class" with
  | Some v => String.prefix pre v
  | None => false
  end.

(** [div.name], of an element that may be missing. *)
Definition is_div (name : string) (n : option Lxml.node) : bool :=
  match n with
  | Some m => String.eqb (Lxml.tag m) "div" && Lxml.css_class name m
  | None => false
  end.

(** The selector of [dm_elements], on an element, its parent and the
    parent of its parent:
    [div.DirectMessage-message > div.DirectMessage-attachmentContainer > div[class^="DirectMessage-"]],
    [div.DirectMessage-message > div.DirectMessage-contentContainer > div[class^="DirectMessage-"]],
    [div.DirectMessage-message > div.DirectMessage-media]. *)
Definition is_dm_element (grandparent parent : option Lxml.node) (n : Lxml.node) : bool :=
  String.eqb (Lxml.tag n) "div" &&
  (is_div "DirectMessage-message" grandparent &&
   is_div "DirectMessage-attachmentContainer" parent &&
   class_prefix "DirectMessage-" n
   ||
   is_div "DirectMessage-message" grandparent &&
   is_div "DirectMessage-contentContainer" parent &&
   class_prefix "DirectMessage-" n
   ||
   is_div "DirectMessage-message" parent && Lxml.css_class "DirectMessage-media" n).

(** The elements below [n], [n] included, that the selector matches, in
    document order. *)
Fixpoint select_dm_elements (grandparent parent : option Lxml.node) (n : Lxml.node)
  : list Lxml.node :=
  (if is_dm_element grandparent parent n then [n] else []) ++
  flat_map (select_dm_elements parent (Some n)) (Lxml.children n).

Definition view_of_result (r : result element) : element_view :=
  match r with
  | Ok element_object => Parsed element_object
  | Raise e => ElementRaises e
  end.

(** The body of the loop over [dm_elements]; ['DirectMessage-text' in None]
    is a [TypeError]. *)
Definition element_view_of (tweet_id : string) (time_stamp : option string)
    (dm_element : Lxml.node) : element_view :=
  match Lxml.get dm_element "class" with
  | None => ElementRaises TypeError
  | Some dm_element_type =>
      if contains "DirectMessage-text" dm_element_type
      then view_of_result (_parse_dm_text tostring dm_element)
      else if contains "DirectMessage-media" dm_element_type
      then parse_media dm_element tweet_id time_stamp
      else if contains "DirectMessage-tweet" dm_element_type
      then view_of_result (_parse_dm_tweet dm_element)
      else if contains "DirectMessage-card" dm_element_type
      then view_of_result (_parse_dm_card requests_get dm_element)
      else UnknownElement
  end.

(** The [try] body on the parsed fragment, up to the element loop;
    [x[0]] of an empty selection is an [IndexError], [None.strip()] an
    [AttributeError]. *)
Definition fragment_view_of (tweet_id : string) (document : Lxml.node) : fragment_view :=
  let dm_container := Lxml.cssselect_class "div" "DirectMessage-container" document in
  let dm_conversation_entry := Lxml.cssselect_class "div" "DMConversationEntry" document in
  match dm_container with
  | container :: _ =>
      match Lxml.cssselect_class "img" "DMAvatar-image" container with
      | [] => Raises IndexError
      | dm_avatar :: _ =>
          let dm_author := Lxml.get dm_avatar "alt" in
          match Lxml.cssselect_class "div" "DirectMessage-footer" document with
          | [] => Raises IndexError
          | footer :: _ =>
              match Lxml.cssselect_class "span" "_timestamp" footer with
              | [] => Raises IndexError
              | stamp :: _ =>
                  let time_stamp := Lxml.get stamp "data-time" in
                  let dm_elements := select_dm_elements None None document in
                  Message dm_author time_stamp
                    (map (element_view_of tweet_id time_stamp) dm_elements)
              end
          end
      end
  | [] =>
      match dm_conversation_entry with
      | entry :: _ =>
          match Lxml.text entry with
          | Some text => ConversationEntry text
          | None => Raises AttributeError
          end
      | [] => NoContainer
      end
  end.

(** The view that [_process_tweets] has of a raw fragment. *)
Definition view_of (tweet_id value : string) : fragment_view :=
  match fragment_fromstring value with
  | Ok document => fragment_view_of tweet_id document
  | Raise e => Raises e
  end.

End Fragment.
(** * [Crawler._parse_dm_media] *)

(** ** The regular expressions of the media parser

    The patterns are sequences of literals, of [\d+], [(.+)] and [(.*?)],
    and of [$]; [\d] is read on ASCII digits. *)

Module Re.

Inductive class : Type :=
  | Digit    (* \d *)
  | Dot.     (* . : any character but a line feed *)

Definition in_class (c : class) (a : ascii) : bool :=
  match c with
  | Digit => Py.isdigit a
  | Dot => negb (Ascii.eqb a Py.newline)
  end.

Inductive atom : Type :=
  | Lit (s : string)
  | Many (c : class) (nonempty greedy capture : bool)
      (* [c+] or [c*], greedy or not ([?]), in a group or not *)
  | End.  (* $ : the end of the string, or before a line feed that ends it *)

(** The repetition of a class: [taken] is what it has consumed; a greedy
    one prefers to consume more, a lazy one to stop; [k] is the match of
    what follows. *)
Fixpoint many {R} (ok : ascii -> bool) (greedy : bool)
    (k : string -> string -> option R) (taken s : string) : option R :=
  match s with
  | String a s' =>
      if ok a then
        if greedy
        then match many ok greedy k (taken +:+ String a "") s' with
             | Some r => Some r
             | None => k taken s
             end
        else match k taken s with
             | Some r => Some r
             | None => many ok greedy k (taken +:+ String a "") s'
             end
      else k taken s
  | EmptyString => k taken s
  end.

(** The match of a pattern at the start of [s], by backtracking: the groups
    of the first match found. *)
Fixpoint exec (pattern : list atom) (groups : list string) (s : string)
  : option (list string) :=
  match pattern with
  | [] => Some groups
  | Lit l :: pattern' =>
      match strip_prefix l s with
      | Some rest => exec pattern' groups rest
      | None => None
      end
  | Many c nonempty greedy capture :: pattern' =>
      many (in_class c) greedy
        (fun taken rest =>
           if nonempty && String.eqb taken "" then None
           else exec pattern' (if capture then groups ++ [taken] else groups) rest)
        "" s
  | End :: pattern' =>
      if String.eqb s "" || String.eqb s Py.nl then exec pattern' groups s else None
  end.

(** The leftmost match: the groups of [re.findall(pattern, s)[0]], or
    [None] when [re.findall] returns the empty list. *)
Fixpoint search (pattern : list atom) (s : string) : option (list string) :=
  match exec pattern [] s with
  | Some groups => Some groups
  | None =>
      match s with
      | String _ s' => search pattern s'
      | EmptyString => None
      end
  end.

End Re.

(** [s.replace(old, new)] for a non-empty [old]; [skip] counts the
    characters of an occurrence still to pass. *)
Fixpoint replace_from (old new : string) (skip : nat) (s : string) : string :=
  match s with
  | EmptyString => EmptyString
  | String c s' =>
      match skip with
      | S k => replace_from old new k s'
      | O =>
          if String.prefix old s
          then new +:+ replace_from old new (String.length old - 1) s'
          else String c (replace_from old new 0 s')
      end
  end.

Definition str_replace (old new s : string) : string := replace_from old new 0 s.

(** [datetime.datetime.fromtimestamp(t).strftime('%Y%m%d-%H%M%S')] *)
Definition strftime_compact (offset : Z) (t : Z) : result string :=
  dt ← Py.fromtimestamp offset t;
  let sod := Py.second_of_day dt in
  Ok (Py.dec (Py.year dt) +:+ Py.pad 2 (Py.month dt) +:+ Py.pad 2 (Py.day dt) +:+ "-" +:+
      Py.pad 2 (sod / 3600) +:+ Py.pad 2 (sod mod 3600 / 60) +:+
      Py.pad 2 (sod mod 60)).

(** r'/\d+/(.+)/(.+)$' *)
Definition image_pattern : list Re.atom :=
  [Re.Lit "/"; Re.Many Re.Digit true true false; Re.Lit "/";
   Re.Many Re.Dot true true true; Re.Lit "/"; Re.Many Re.Dot true true true; Re.End].

(** '/stickers/stickers/(.+)$' *)
Definition sticker_pattern : list Re.atom :=
  [Re.Lit "/stickers/stickers/"; Re.Many Re.Dot true true true; Re.End].

(** r'url\(\'(.*?)\'\)' *)
Definition style_url_pattern : list Re.atom :=
  [Re.Lit "url('"; Re.Many Re.Dot false false true; Re.Lit "')"].

(** r'dm_gif/(.+)/(.+)$' *)
Definition gif_pattern : list Re.atom :=
  [Re.Lit "dm_gif/"; Re.Many Re.Dot true true true; Re.Lit "/";
   Re.Many Re.Dot true true true; Re.End].

(** What ends a call of the functions below without a result: an exception
    of [exn], the [UnboundLocalError] of a local variable read before it
    was assigned, or the [PermissionError] of a failed login. *)
Inductive raised : Type :=
  | Builtin (e : exn)
  | UnboundLocalError (name : string)
  | PermissionError (msg : string).

Inductive media_result : Type :=
  | MediaOk (element_object : element)
  | MediaRaises (e : raised).

Section ParseMedia.

Variable p : platform.

(** The download of one file: [self._session.get(url, stream=True)] and,
    when the status is 200, [os.makedirs(directory, exist_ok=True)] and
    the copy of the body to [path]; what matters to the parser is whether
    it raises. *)
Variable download : string -> string -> string -> result unit.

Variable _conversation_id : string.

Definition fetch (wanted : bool) (url directory media_filename : string)
    (then_ : media_result) : media_result :=
  if wanted
  then match download url (_conversation_id +:+ "/" +:+ directory)
               (_conversation_id +:+ "/" +:+ directory +:+ "/" +:+ media_filename) with
       | Ok _ => then_
       | Raise e => MediaRaises (Builtin e)
       end
  else then_.

(** [x.find('div').get('style')] and [re.findall(..., media_style)[0]]:
    [None.get] is an [AttributeError], [re.findall] on [None] a
    [TypeError], [[][0]] an [IndexError]. *)
Definition preview_url (playable : Lxml.node) : result string :=
  match head (filter (fun n => Lxml.tag n = "div") (Lxml.children playable)) with
  | None => Raise AttributeError
  | Some inner =>
      match Lxml.get inner "style" with
      | None => Raise TypeError
      | Some media_style =>
          match Re.search style_url_pattern media_style with
          | Some groups => Ok (nth 0 groups "")
          | None => Raise IndexError
          end
      end
  end.

Definition _parse_dm_media (elem : Lxml.node) (tweet_id : string)
    (time_stamp : option string) (download_images download_gifs download_videos : bool)
  : media_result :=
  match Py.int time_stamp with
  | Raise e => MediaRaises (Builtin e)
  | Ok t =>
  match strftime_compact (utcoffset p t) t with
  | Raise e => MediaRaises (Builtin e)
  | Ok formatted_timestamp =>
      let img_url := head (filter (fun n => Lxml.tag n = "img") (Lxml.descendants elem)) in
      let gif_url := Lxml.cssselect_class "div" "PlayableMedia--gif" elem in
      let video_url := Lxml.cssselect_class "div" "PlayableMedia--video" elem in
      match img_url, gif_url, video_url with
      | Some img, _, _ =>
          let media_alt := Lxml.get img "alt" in
          match Lxml.get img "data-full-img" with
          | None => MediaRaises (Builtin TypeError)
          | Some media_url =>
              match Re.search image_pattern media_url,
                    Re.search sticker_pattern media_url with
              | Some groups, _ =>
                  let media_filename :=
                    formatted_timestamp +:+ "-" +:+ tweet_id +:+ "-" +:+
                    nth 0 groups "" +:+ "-" +:+ nth 1 groups "" in
                  fetch download_images media_url "images" media_filename
                    (MediaOk (DirectMessageMedia media_url "" media_alt image))
              | None, Some groups =>
                  let media_filename := "sticker-" +:+ nth 0 groups "" in
                  fetch download_images media_url "images" media_filename
                    (MediaOk (DirectMessageMedia media_url "" media_alt sticker))
              | None, None =>
                  (* 'Unknown media type': [media_filename] was never assigned *)
                  MediaRaises (UnboundLocalError "media_filename")
              end
          end
      | None, playable :: _, _ =>
          match preview_url playable with
          | Raise e => MediaRaises (Builtin e)
          | Ok media_preview_url =>
              let media_url :=
                str_replace ".jpg" ".mp4"
                  (str_replace "dm_gif_preview" "dm_gif" media_preview_url) in
              match Re.search gif_pattern media_url with
              | None => MediaRaises (Builtin IndexError)
              | Some groups =>
                  let media_filename :=
                    formatted_timestamp +:+ "-" +:+ nth 0 groups "" +:+ "-" +:+
                    nth 1 groups "" in
                  fetch download_gifs media_url "mp4-gifs" media_filename
                    (MediaOk (DirectMessageMedia media_url media_preview_url (Some "") gif))
              end
          end
      | None, [], playable :: _ =>
          match preview_url playable with
          | Raise e => MediaRaises (Builtin e)
          | Ok media_preview_url =>
              let media_url := "https://twitter.com/i/videos/dm/" +:+ tweet_id in
              let video_url := "https://mobile.twitter.com/messages/media/" +:+ tweet_id in
              let media_filename := formatted_timestamp +:+ "-" +:+ tweet_id +:+ ".mp4" in
              fetch download_videos video_url "mp4-videos" media_filename
                (MediaOk (DirectMessageMedia media_url media_preview_url (Some "") video))
          end
      | None, [], [] =>
          (* 'Unknown media' *)
          MediaOk (DirectMessageMedia "" "" (Some "") unknown)
      end
  end
  end.

End ParseMedia.
(** * [Crawler.authenticate]

    The sessions of [requests] are values of a type [session]; what the
    file system, [pickle] and the network answer is the environment of the
    call.  [raw_output] is off. *)

Section Authenticate.

Variable session : Type.

(** [open('dmarchiver_session.dat', 'rb')] and [pickle.load(file)]. *)
Inductive session_file : Type :=
  | NoFile                   (* [FileNotFoundError] *)
  | Unreadable (e : exn)     (* another exception of [open] or of [pickle.load] *)
  | Pickled (s : session).

Record auth_env : Type := {
  stored : session_file;
  (* [session.get(messages_url, ...).status_code] *)
  messages_status : session -> result Z;
  (* [requests.Session()] *)
  new_session : session;
  (* [session.get(login_url, ...)], then the values that
     [document.xpath('//input[@name="authenticity_token"]/@value')] finds *)
  login_tokens : session -> result (list string);
  (* [session.post(sessions_url, ..., params=payload)], then whether
     ['auth_token'] is among the cookies of the session *)
  post_credentials : session -> list (string * string) -> result bool;
  (* [open('dmarchiver_session.dat', "wb")] and [pickle.dump(session, file)] *)
  dump_session : session -> result unit
}.

(** What a call does to the file system and the network, in order. *)
Inductive auth_action : Type :=
  | ReadSessionFile
  | Get (url : string) (s : session)
  | Post (url : string) (s : session) (params : list (string * string))
  | WriteSessionFile (s : session).

Record auth_outcome : Type := {
  session_after : option session;      (* self._session *)
  actions : list auth_action;
  ended : option raised                (* [None] when the call returns *)
}.

Definition login_url : string := _twitter_base_url +:+ "/login".
Definition sessions_url : string := _twitter_base_url +:+ "/sessions".
Definition messages_url : string := _twitter_base_url +:+ "/messages".

Definition invalid_login : string :=
  "Your username or password was invalid. Note: DMArchiver does not support multi-factor authentication or application passwords.".

(** The statements after the [if save_session:] block. *)
Definition login (env : auth_env) (_session : option session)
    (username password : string) (save_session : bool) (done : list auth_action)
  : auth_outcome :=
  let s :=
    match _session with
    | Some s => if negb save_session then new_session env else s
    | None => new_session env
    end in
  match login_tokens env s with
  | Raise e =>
      {| session_after := Some s; actions := done ++ [Get login_url s];
         ended := Some (Builtin e) |}
  | Ok [] =>
      {| session_after := Some s; actions := done ++ [Get login_url s];
         ended := Some (Builtin IndexError) |}
  | Ok (authenticity_token :: _) =>
      let payload := [("session[username_or_email]", username);
                      ("session[password]", password);
                      ("authenticity_token", authenticity_token)] in
      let done := done ++ [Get login_url s; Post sessions_url s payload] in
      match post_credentials env s payload with
      | Raise e => {| session_after := Some s; actions := done; ended := Some (Builtin e) |}
      | Ok false =>
          {| session_after := Some s; actions := done;
             ended := Some (PermissionError invalid_login) |}
      | Ok true =>
          if save_session
          then {| session_after := Some s; actions := done ++ [WriteSessionFile s];
                  ended := match dump_session env s with
                           | Ok _ => None
                           | Raise e => Some (Builtin e)
                           end |}
          else {| session_after := Some s; actions := done; ended := None |}
      end
  end.

Definition authenticate (env : auth_env) (_session : option session)
    (username password : string) (save_session : bool) : auth_outcome :=
  if save_session then
    match stored env with
    | NoFile => login env _session username password save_session [ReadSessionFile]
    | Unreadable e =>
        {| session_after := _session; actions := [ReadSessionFile];
           ended := Some (Builtin e) |}
    | Pickled s =>
        let done := [ReadSessionFile; Get messages_url s] in
        match messages_status env s with
        | Raise e => {| session_after := Some s; actions := done; ended := Some (Builtin e) |}
        | Ok status_code =>
            if status_code =? 200
            then {| session_after := Some s; actions := done; ended := None |}
            else login env None username password save_session done
        end
    end
  else login env _session username password save_session [].

End Authenticate.

Arguments NoFile {session}.
Arguments Unreadable {session} e.
Arguments Pickled {session} s.
Arguments ReadSessionFile {session}.
Arguments Get {session} url s.
Arguments Post {session} url s params.
Arguments WriteSessionFile {session} s.
Arguments stored {session} a.
Arguments messages_status {session} a.
Arguments new_session {session} a.
Arguments login_tokens {session} a.
Arguments post_credentials {session} a.
Arguments dump_session {session} a.
Arguments session_after {session} a.
Arguments actions {session} a.
Arguments ended {session} a.
Arguments login {session} env _session username password save_session done.
Arguments authenticate {session} env _session username password save_session.

(** * Further properties of the resume ledger and of the crawl *)

(** ** What [_get_latest_tweet_id] gives to [crawl] *)

Lemma take_digits_all_digits s : all_digits (take_digits s) = true.
Proof.
  induction s as [|c s IH]; [done|]. simpl.
  destruct (Py.isdigit c) eqn:Hc; [|done]. simpl. by rewrite Hc.
Qed.

Lemma match_latest_is_decimal line latest :
  match_latest line = Some latest -> is_decimal latest = true.
Proof.
  unfold match_latest. destruct (strip_prefix _ line) as [rest|]; [|done].
  pose proof (take_digits_all_digits rest) as Hd.
  destruct (take_digits rest) as [|c d]; [done|].
  intros [= <-]. unfold is_decimal. by rewrite Hd.
Qed.

Lemma latest_tweet_id_raises file e :
  _get_latest_tweet_id file = Raise e -> file = Some "" /\ e = IndexError.
Proof.
  unfold _get_latest_tweet_id. destruct file as [content|]; [|done].
  destruct (last (Py.readlines content)) as [l|] eqn:Hl.
  - by destruct (match_latest l).
  - intros [= <-]. split; [|done]. f_equal.
    apply readlines_nil. by apply last_None.
Qed.

(** X1: The only transcript on which the run stops before its first request is
    the empty file: [lines[-1]] raises [IndexError], which the
    [except IOError] clause does not catch. *)
Theorem empty_transcript_aborts (p : platform)
    (view : string -> string -> fragment_view) (file : option string)
    (script : list (turn conversation_json)) (flag : bool) (e : exn) :
  crawl p view file script flag = Aborted e None <->
  file = Some "" /\ e = IndexError.
Proof.
  unfold crawl. split.
  - destruct (_get_latest_tweet_id file) as [m|e'] eqn:Hm.
    + by destruct (crawl_loop _ _ _ _).
    + intros [= <-]. by apply latest_tweet_id_raises.
  - by intros [-> ->].
Qed.

(** X2: The id that stops a run is always a decimal literal: ["0"], or the
    digits found after the tag on the last line of the transcript. *)
Theorem latest_tweet_id_is_decimal (file : option string) (max_id : string) :
  _get_latest_tweet_id file = Ok max_id -> is_decimal max_id = true.
Proof.
  unfold _get_latest_tweet_id. destruct file as [content|]; [|by intros [= <-]].
  destruct (last (Py.readlines content)) as [l|]; [|done].
  destruct (match_latest l) as [latest|] eqn:Hm; intros [= <-]; [|done].
  by eapply match_latest_is_decimal.
Qed.

Lemma latest_tweet_id_is_decimal_witness :
  _get_latest_tweet_id (Some transcript_100) = Ok "100" /\ is_decimal "100" = true.
Proof.
  split; [reflexivity|].
  apply (latest_tweet_id_is_decimal (Some transcript_100) "100"). reflexivity.
Defined.



Lemma write_tweets_snoc p items m : forall buf k,
  write_tweets p buf (items ++ [(k, m)]) =
  (buf' ← write_tweets p buf items; write_tweet p buf' m).
Proof.
  induction items as [|it items IH]; intros buf k; simpl.
  - by destruct (write_tweet p buf m).
  - destruct (write_tweet p buf it.2); simpl; [apply IH|done].
Qed.

(** X4: A run whose first stored value is [''] (its fragment had neither
    container) cannot be written back: the lines of the other entries are
    built, then [tweet[1].tweet_id] raises [AttributeError] before the file
    is opened, unless building a line has raised before. *)
Theorem write_back_needs_an_id (p : platform) (k0 : string) (rest : odict message)
    (file : option string) (max_id : string) :
  write_conversation p ((k0, EmptyStr) :: rest) file max_id =
  match write_tweets p "" (reverse rest) with
  | Ok _ => Raise AttributeError
  | Raise e => Raise e
  end.
Proof.
  unfold write_conversation. rewrite reverse_cons, write_tweets_snoc, last_snoc.
  destruct (write_tweets p "" (reverse rest)); done.
Qed.
(** ** One page *)

Lemma before_halt_not_halts view max_id ordered kv :
  kv ∈ before_halt view max_id ordered -> halts view max_id kv = false.
Proof.
  induction ordered as [|kv' ordered IH]; simpl; [by intros ?%elem_of_nil|].
  destruct (halts view max_id kv') eqn:Hh; [by intros ?%elem_of_nil|].
  intros [->|Hin]%elem_of_cons; [done|by apply IH].
Qed.

(** X5: Whatever a page holds, [_process_tweets] returns entries under ids of
    the page, from the greatest down in the order of strings and none of
    them the marker, each value carrying the id it is stored under; and
    the flag is set on return exactly when it was set before, or the page
    holds the marker, or the parsing of one of its fragments is
    interrupted. *)
Theorem process_tweets_keys (view : string -> string -> fragment_view)
    (tweets : gmap string string) (max_id : string) (found : bool) :
  let (conversation_set, found') := _process_tweets view tweets max_id found in
  StronglySorted (fun a b => id_lt b a) (od_keys conversation_set) /\
  (forall k, k ∈ od_keys conversation_set -> is_Some (tweets !! k) /\ k <> max_id) /\
  Forall own_id conversation_set /\
  (found' = true <->
   found = true \/ is_Some (tweets !! max_id) \/
   exists k v, tweets !! k = Some v /\
               parse_fragment view k v = Raise KeyboardInterrupt).
Proof.
  rewrite process_tweets_entries.
  split; [apply new_entries_sorted|].
  split; [|split; [apply new_entries_own_id|]].
  - intros k Hk. split; [by eapply new_entries_keys|].
    rewrite od_keys_new_entries in Hk.
    change (map fst ?l) with (fst <$> l) in Hk.
    apply list_elem_of_fmap in Hk as ([k' v] & -> & Hin).
    apply before_halt_not_halts in Hin. unfold halts in Hin. simpl in *.
    apply orb_false_iff in Hin as [Hk _].
    by apply String.eqb_neq in Hk.
  - rewrite orb_true_iff. apply or_iff_compat_l.
    rewrite existsb_exists. split.
    + intros ([k v] & Hin & Hh).
      apply list_elem_of_In, elem_of_ordered_tweets in Hin.
      unfold halts in Hh. simpl in Hh. apply orb_true_iff in Hh as [Hk|Hki].
      * apply String.eqb_eq in Hk as ->. left. eauto.
      * right. exists k, v. split; [done|].
        destruct (parse_fragment view k v) as [|[]]; done.
    + intros [[v Hv]|(k & v & Hv & Hki)].
      * exists (max_id, v). split; [by apply list_elem_of_In, elem_of_ordered_tweets|].
        unfold halts. simpl. by rewrite String.eqb_refl.
      * exists (k, v). split; [by apply list_elem_of_In, elem_of_ordered_tweets|].
        unfold halts. simpl. rewrite Hki. apply orb_true_r.
Qed.

(** ** [str.strip] twice *)

Lemma lstrip_head s :
  match Py.lstrip s with
  | String c _ => Py.isspace c = false
  | EmptyString => True
  end.
Proof.
  induction s as [|c s IH]; [done|]. simpl.
  destruct (Py.isspace c) eqn:Hc; [done|]. by simpl.
Qed.

Lemma rstrip_idemp s : Py.rstrip (Py.rstrip s) = Py.rstrip s.
Proof.
  induction s as [|c s IH]; [done|]. simpl.
  destruct (Py.rstrip s) as [|d r] eqn:Hr.
  - destruct (Py.isspace c) eqn:Hc; [done|]. simpl. by rewrite Hc.
  - change (Py.rstrip (String c (String d r)))
      with (match Py.rstrip (String d r) with
            | EmptyString => if Py.isspace c then EmptyString else String c EmptyString
            | r' => String c r'
            end).
    by rewrite IH.
Qed.

Lemma lstrip_rstrip c s :
  Py.isspace c = false -> Py.lstrip (Py.rstrip (String c s)) = Py.rstrip (String c s).
Proof.
  intros Hc. simpl. destruct (Py.rstrip s); rewrite ?Hc; simpl; by rewrite Hc.
Qed.

Lemma strip_idemp s : Py.strip (Py.strip s) = Py.strip s.
Proof.
  unfold Py.strip. pose proof (lstrip_head s) as Hh.
  destruct (Py.lstrip s) as [|c t]; [done|].
  rewrite lstrip_rstrip by done. apply rstrip_idemp.
Qed.

(** X6: Every [DMConversationEntry] that [_process_tweets] stores, parsed or
    fallback, holds a text without white space at either end: stripping it
    again changes nothing. *)
Theorem stored_entries_are_stripped (view : string -> string -> fragment_view)
    (tweets : gmap string string) (max_id : string) (found : bool)
    (k tweet_id text : string) :
  (k, DMConversationEntry tweet_id text) ∈ (_process_tweets view tweets max_id found).1 ->
  Py.strip text = text.
Proof.
  rewrite process_tweets_entries. simpl. unfold new_entries.
  change (map ?f ?l) with (f <$> l).
  intros ([k' v] & Heq & _)%list_elem_of_fmap. simpl in Heq.
  injection Heq as _ Heq. unfold entry_of, parse_fragment in Heq. simpl in Heq.
  destruct (view k' v) as [e|a ts els|t|]; simpl in Heq.
  - injection Heq as _ ->. apply strip_idemp.
  - destruct (parse_elements els []); simpl in Heq; [done|].
    injection Heq as _ ->. apply strip_idemp.
  - injection Heq as _ ->. apply strip_idemp.
  - done.
Qed.

Lemma stored_entries_are_stripped_witness :
  Py.strip (parse_error_text "107" ("<b>" +:+ Py.nl)) = parse_error_text "107" ("<b>" +:+ Py.nl).
Proof.
  apply (stored_entries_are_stripped view_two two_fragments "0" false "107" "107").
  vm_compute. apply list_elem_of_In. right. left. reflexivity.
Defined.
(** ** Pages that overlap *)

(** [d[k]], when the key is there. *)
Fixpoint od_get {V} (k : string) (d : odict V) : option V :=
  match d with
  | [] => None
  | (k', v) :: d' => if String.eqb k' k then Some v else od_get k d'
  end.

Lemma od_keys_od_set {V} k (v : V) (d : odict V) :
  od_keys (od_set k v d) = if decide (k ∈ od_keys d) then od_keys d else od_keys d ++ [k].
Proof.
  induction d as [|[k' v'] d IH]; [done|]. simpl.
  destruct (String.eqb_spec k' k) as [->|Hne]; simpl.
  - rewrite decide_True; [done|by left].
  - rewrite IH. destruct (decide (k ∈ od_keys d)) as [Hin|Hin].
    + rewrite decide_True; [done|by right].
    + rewrite decide_False; [done|].
      intros [?|?]%elem_of_cons; [congruence|done].
Qed.

Lemma od_get_od_set {V} k k' (v : V) (d : odict V) :
  od_get k (od_set k' v d) = if String.eqb k' k then Some v else od_get k d.
Proof.
  induction d as [|[k1 v1] d IH]; simpl; [done|].
  destruct (String.eqb_spec k1 k') as [->|Hne]; simpl.
  - by destruct (String.eqb k' k).
  - rewrite IH. destruct (String.eqb_spec k1 k) as [->|]; [|done].
    by apply not_eq_sym, String.eqb_neq in Hne as ->.
Qed.

Lemma od_get_None {V} k (d : odict V) : k ∉ od_keys d -> od_get k d = None.
Proof.
  induction d as [|[k' v'] d IH]; [done|]. simpl.
  intros Hk. apply not_elem_of_cons in Hk as [Hne Hk].
  apply not_eq_sym, String.eqb_neq in Hne as ->. by apply IH.
Qed.

Lemma NoDup_od_set {V} k (v : V) (d : odict V) :
  NoDup (od_keys d) -> NoDup (od_keys (od_set k v d)).
Proof.
  intros Hd. rewrite od_keys_od_set. destruct (decide _) as [|Hk]; [done|].
  apply NoDup_app. split; [done|]. split; [|apply NoDup_singleton].
  by intros x Hx ->%list_elem_of_singleton.
Qed.

Lemma filter_ext_elem {A} (P Q : A -> Prop)
    `{forall x, Decision (P x)} `{forall x, Decision (Q x)} (l : list A) :
  Forall (fun x => P x <-> Q x) l -> filter P l = filter Q l.
Proof.
  induction 1 as [|x l Hx _ IH]; [done|].
  rewrite !filter_cons, IH. destruct (decide (P x)), (decide (Q x)); tauto.
Qed.

Lemma NoDup_append_conversation (tweets conversation_set : odict message) :
  NoDup (od_keys tweets) -> NoDup (od_keys (append_conversation tweets conversation_set)).
Proof.
  unfold append_conversation. revert tweets.
  induction conversation_set as [|[k m] cs IH]; intros tweets Ht; [done|].
  simpl. apply IH. by apply NoDup_od_set.
Qed.

(** X7: Appending a page to the conversation: an id the conversation already
    holds keeps its place and takes the value of the page, the other ids of
    the page follow the conversation in the order of the page. *)
Theorem append_conversation_overwrites_in_place (tweets conversation_set : odict message) :
  NoDup (od_keys conversation_set) ->
  od_keys (append_conversation tweets conversation_set) =
    od_keys tweets ++ filter (fun k => k ∉ od_keys tweets) (od_keys conversation_set) /\
  forall k, od_get k (append_conversation tweets conversation_set) =
            match od_get k conversation_set with
            | Some m => Some m
            | None => od_get k tweets
            end.
Proof.
  unfold append_conversation. revert tweets.
  induction conversation_set as [|[k1 m1] cs IH]; intros tweets Hnd.
  { simpl. by rewrite app_nil_r. }
  simpl in Hnd. apply NoDup_cons in Hnd as [Hk1 Hnd].
  destruct (IH (od_set k1 m1 tweets) Hnd) as [Hkeys Hget]. simpl.
  split.
  - rewrite Hkeys, od_keys_od_set. simpl. rewrite filter_cons.
    destruct (decide (k1 ∈ od_keys tweets)) as [Hin|Hin].
    + by rewrite decide_False by (by intros ?).
    + rewrite decide_True by done. rewrite <- app_assoc. simpl. do 2 f_equal.
      apply filter_ext_elem. apply Forall_forall. intros k Hk.
      rewrite not_elem_of_app, list_elem_of_singleton.
      split; [by intros []|]. intros ?. split; [done|]. by intros ->.
  - intros k. rewrite Hget, od_get_od_set.
    destruct (String.eqb_spec k1 k) as [->|Hne]; [|done].
    by rewrite (od_get_None k cs).
Qed.

Lemma append_conversation_overwrites_in_place_witness :
  od_keys (append_conversation
             [("105", DMConversationEntry "105" "old"); ("103", EmptyStr)]
             [("104", EmptyStr); ("105", DMConversationEntry "105" "new")])
  = ["105"; "103"; "104"] /\
  od_get "105" (append_conversation
             [("105", DMConversationEntry "105" "old"); ("103", EmptyStr)]
             [("104", EmptyStr); ("105", DMConversationEntry "105" "new")])
  = Some (DMConversationEntry "105" "new").
Proof.
  assert (NoDup (od_keys [("104", EmptyStr); ("105", DMConversationEntry "105" "new")]))
    as Hnd.
  { apply NoDup_cons. split; [by intros [= ]%list_elem_of_singleton|apply NoDup_singleton]. }
  destruct (append_conversation_overwrites_in_place
              [("105", DMConversationEntry "105" "old"); ("103", EmptyStr)]
              [("104", EmptyStr); ("105", DMConversationEntry "105" "new")] Hnd)
    as [Hkeys Hget].
  split; [exact Hkeys|exact (Hget "105")].
Defined.

(** ** The state a run ends in *)

Definition exit_state (x : loop_exit) : crawl_state :=
  match x with
  | Left st | Propagated _ st | Starved st => st
  end.

(** The [min_entry_id] of the response of a turn, if it has one. *)
Definition cursor_of (t : turn conversation_json) : option string :=
  match response t with
  | Ok json => min_entry_id json
  | Raise _ => None
  end.

Lemma exit_state_say_or_not view max_id (t : turn conversation_json) script st :
  max_id_found st = false ->
  turn_page t = None ->
  requests (exit_state (crawl_loop view max_id (t :: script) st)) =
    requests st ++ [payload st] /\
  conversation (exit_state (crawl_loop view max_id (t :: script) st)) = conversation st.
Proof.
  intros Hfound Hpage. unfold turn_page in Hpage. cbn [crawl_loop]. rewrite Hfound.
  destruct (response t) as [json|e]; [|by destruct e].
  destruct (errors json) as [errs|].
  { by destruct (report_errors errs stop_tweets). }
  destruct (max_entry_id json); [|done].
  destruct (min_entry_id json); [|done].
  by destruct (items json).
Qed.

(** X8: However the loop of a run is left, the conversation it has built holds
    every id once, also when the pages it fetched overlap. *)
Theorem run_stores_each_id_once (p : platform) (view : string -> string -> fragment_view)
    (file : option string) (script : list (turn conversation_json)) (flag : bool) :
  match crawl p view file script flag with
  | WroteBack st _ _ | Aborted _ (Some st) | Unfinished st =>
      NoDup (od_keys (conversation st))
  | Aborted _ None => True
  end.
Proof.
  unfold crawl. destruct (_get_latest_tweet_id file) as [max_id|]; [|done].
  assert (forall st, NoDup (od_keys (conversation st)) ->
            NoDup (od_keys (conversation (exit_state (crawl_loop view max_id script st)))))
    as H.
  { induction script as [|t script IH]; intros st Hst.
    { simpl. by destruct (max_id_found st). }
    destruct (max_id_found st) eqn:Hfound.
    { by rewrite crawl_loop_found. }
    destruct (turn_page t) as [[tweets cursor]|] eqn:Hpage.
    - rewrite (crawl_loop_page view max_id t script st tweets cursor) by done.
      assert (NoDup (od_keys (conversation (after_page view max_id st tweets cursor))))
        as Hst' by (by apply NoDup_append_conversation).
      destruct (sleep t) as [[]|e]; [by apply IH|by destruct e].
    - by destruct (exit_state_say_or_not view max_id t script st Hfound Hpage) as [_ ->]. }
  specialize (H (fresh_state flag) (NoDup_nil_2 (A:=string))).
  by destruct (crawl_loop view max_id script (fresh_state flag)).
Qed.

(** X9: The requests of a run: the first carries the payload the loop starts
    with (no [max_entry_id] at all in a run of [crawl]), and each later one
    carries the [min_entry_id] of the response before it. *)
Theorem requests_follow_the_cursor (view : string -> string -> fragment_view)
    (max_id : string) (script : list (turn conversation_json)) (st : crawl_state) :
  exists k, (k <= length script)%nat /\
    requests (exit_state (crawl_loop view max_id script st)) =
    requests st ++ take k (payload st :: map cursor_of script).
Proof.
  revert st. induction script as [|t script IH]; intros st.
  { exists 0%nat. simpl. destruct (max_id_found st); by rewrite app_nil_r. }
  destruct (max_id_found st) eqn:Hfound.
  { exists 0%nat. rewrite crawl_loop_found by done. simpl.
    split; [lia|by rewrite app_nil_r]. }
  destruct (turn_page t) as [[tweets cursor]|] eqn:Hpage.
  - rewrite (crawl_loop_page view max_id t script st tweets cursor) by done.
    assert (cursor_of t = Some cursor) as Hc.
    { unfold turn_page in Hpage. unfold cursor_of.
      destruct (response t) as [json|]; [|done].
      destruct (errors json), (max_entry_id json), (min_entry_id json), (items json);
        congruence. }
    destruct (sleep t) as [[]|e].
    + destruct (IH (after_page view max_id st tweets cursor)) as (k & Hk & ->).
      exists (S k). split; [simpl; lia|].
      cbn [after_page requests payload map take]. rewrite Hc.
      by rewrite <- app_assoc.
    + exists 1%nat. split; [simpl; lia|]. by destruct e.
  - exists 1%nat. split; [simpl; lia|].
    by destruct (exit_state_say_or_not view max_id t script st Hfound Hpage) as [-> _].
Qed.

(** ** The flag a run leaves behind *)

(** [self._max_id_found] when a call of [crawl] is over: the last line of
    [crawl] sets it to [False], and is reached only when
    [write_conversation] has returned. *)
Definition flag_after (flag : bool) (o : crawl_outcome) : bool :=
  match o with
  | WroteBack _ _ (Ok _) => false
  | WroteBack st _ (Raise _) | Aborted _ (Some st) | Unfinished st => max_id_found st
  | Aborted _ None => flag
  end.

(** X10: When the write-back of a run raises after the marker was found, the
    flag stays set on the crawler, and the next call of [crawl], on any
    transcript but the empty file and against any remote side, sends no
    request, stores nothing and leaves its transcript as it is. *)
Theorem failed_write_back_disables_next_crawl (p : platform)
    (view : string -> string -> fragment_view)
    (file : option string) (script : list (turn conversation_json))
    (st : crawl_state) (max_id : string) (e : exn)
    (file2 : option string) (script2 : list (turn conversation_json)) :
  crawl p view file script false = WroteBack st max_id (Raise e) ->
  max_id_found st = true ->
  file2 <> Some "" ->
  exists max_id2,
    crawl p view file2 script2 (flag_after false (crawl p view file script false)) =
    WroteBack (fresh_state true) max_id2 (Ok file2).
Proof.
  intros -> Hfound Hfile. simpl. rewrite Hfound. unfold crawl.
  destruct (_get_latest_tweet_id file2) as [max_id2|e2] eqn:Hm.
  - exists max_id2. by rewrite crawl_loop_found.
  - by apply latest_tweet_id_raises in Hm as [? _].
Qed.

(** No fragment has a container. *)
Definition view_bare (tweet_id value : string) : fragment_view := NoContainer.

Definition marker_page : list (turn conversation_json) :=
  [page_turn (list_to_map [("105", "x"); ("100", "d")])].

Lemma failed_write_back_disables_next_crawl_witness :
  exists max_id2,
    crawl utc_posix view_bare None two_pages
      (flag_after false
         (crawl utc_posix view_bare (Some transcript_100) marker_page false)) =
    WroteBack (fresh_state true) max_id2 (Ok None).
Proof.
  eapply (failed_write_back_disables_next_crawl utc_posix view_bare
            (Some transcript_100) marker_page _ "100" AttributeError None two_pages).
  - vm_compute. reflexivity.
  - reflexivity.
  - discriminate.
Defined.
(** ** What a write-back needs and what it discards *)

Lemma write_tweets_Ok_elem p items : forall buf out kv,
  write_tweets p buf items = Ok out -> kv ∈ items ->
  exists buf' out', write_tweet p buf' kv.2 = Ok out'.
Proof.
  induction items as [|it items IH]; intros buf out kv H Hin.
  { by apply elem_of_nil in Hin. }
  simpl in H. destruct (write_tweet p buf it.2) as [b|] eqn:Hw; [|done]. simpl in H.
  apply elem_of_cons in Hin as [->|Hin]; [eauto|by eapply IH].
Qed.

(** X12: A transcript whose last line is no marker line is not kept: a run that
    writes at least one entry ends with the file that the same run gives
    from no transcript at all. *)
Theorem unmarked_transcript_is_overwritten (p : platform)
    (view : string -> string -> fragment_view) (content l : string)
    (script : list (turn conversation_json)) (flag : bool)
    (st : crawl_state) (max_id : string) (file' : option string) :
  last (Py.readlines content) = Some l ->
  match_latest l = None ->
  crawl p view (Some content) script flag = WroteBack st max_id (Ok file') ->
  conversation st <> [] ->
  max_id = "0" /\ crawl p view None script flag = WroteBack st "0" (Ok file').
Proof.
  intros Hl Hm. unfold crawl, _get_latest_tweet_id. rewrite Hl, Hm.
  destruct (crawl_loop view "0" script (fresh_state flag)) as [st1| |]; [|done..].
  intros [= -> <- Hw] Hne. split; [done|]. do 2 f_equal.
  unfold write_conversation in *.
  destruct (write_tweets p "" (reverse (conversation st))) as [buf|]; [|done].
  simpl in *. destruct (last (reverse (conversation st))) as [tw|] eqn:Hlast.
  - by destruct (get_tweet_id tw.2).
  - apply last_None in Hlast. apply (f_equal reverse) in Hlast.
    by rewrite reverse_involutive in Hlast.
Qed.

Definition unmarked_transcript : string :=
  "[2021-01-01 00:00:00] <bob> first" +:+ Py.nl +:+ "a note" +:+ Py.nl.

Lemma unmarked_transcript_is_overwritten_witness :
  exists st file',
    crawl utc_posix view_text None two_pages false = WroteBack st "0" (Ok file').
Proof.
  eexists _, _.
  eapply (unmarked_transcript_is_overwritten utc_posix view_text unmarked_transcript
            ("a note" +:+ Py.nl) two_pages false _ "0" _).
  - reflexivity.
  - reflexivity.
  - vm_compute. reflexivity.
  - discriminate.
Defined.
(** ** The conversation of a run, page by page *)

(** The conversation after the page of a turn, if the turn has one. *)
Definition with_page (view : string -> string -> fragment_view) (max_id : string)
    (tweets : odict message) (t : turn conversation_json) : odict message :=
  match turn_page t with
  | Some (page, _) => append_conversation tweets (_process_tweets view page max_id false).1
  | None => tweets
  end.

(** X13: However the loop is left, the conversation it has built is the one it
    started with, to which the entries that [_process_tweets] returns for
    the pages of the first turns were appended one page after the other,
    in the order of the requests; the turns counted are those for which a
    request was sent. *)
Theorem conversation_is_the_pages_appended (view : string -> string -> fragment_view)
    (max_id : string) (script : list (turn conversation_json)) (st : crawl_state) :
  exists k, (k <= length script)%nat /\
    length (requests (exit_state (crawl_loop view max_id script st))) =
      (length (requests st) + k)%nat /\
    conversation (exit_state (crawl_loop view max_id script st)) =
      fold_left (with_page view max_id) (take k script) (conversation st).
Proof.
  revert st. induction script as [|t script IH]; intros st.
  { exists 0%nat. simpl. destruct (max_id_found st); simpl; split; (done || by split; [lia|]). }
  destruct (max_id_found st) eqn:Hfound.
  { exists 0%nat. rewrite crawl_loop_found by done. simpl.
    split; [lia|]. split; [lia|done]. }
  destruct (turn_page t) as [[tweets cursor]|] eqn:Hpage.
  - rewrite (crawl_loop_page view max_id t script st tweets cursor) by done.
    assert (with_page view max_id (conversation st) t =
            conversation (after_page view max_id st tweets cursor)) as Hwith.
    { unfold with_page. rewrite Hpage. by rewrite process_tweets_entries. }
    destruct (sleep t) as [[]|e].
    + destruct (IH (after_page view max_id st tweets cursor)) as (k & Hk & Hreq & ->).
      exists (S k). split; [simpl; lia|]. split.
      * rewrite Hreq. cbn [after_page requests]. rewrite length_app. simpl. lia.
      * cbn [take fold_left]. by rewrite Hwith.
    + exists 1%nat. split; [simpl; lia|].
      assert (forall x, x = Left (say (after_page view max_id st tweets cursor)
                                   [interruption_requested]) \/
                        x = Propagated e (after_page view max_id st tweets cursor) ->
              length (requests (exit_state x)) = (length (requests st) + 1)%nat /\
              conversation (exit_state x) =
                fold_left (with_page view max_id) (take 1 (t :: script)) (conversation st))
        as Hexit.
      { intros x [-> | ->]; simpl; rewrite length_app, Hwith; simpl; split; (lia || done). }
      destruct e; apply Hexit; auto.
  - exists 1%nat. split; [simpl; lia|].
    destruct (exit_state_say_or_not view max_id t script st Hfound Hpage) as [-> ->].
    rewrite length_app. simpl. split; [lia|].
    unfold with_page. by rewrite Hpage.
Qed.

(** ** The list of conversations *)

Section ThreadsFacts.

Context {thread : Type}.

Definition threads_exit (o : threads_outcome thread) : threads_state thread :=
  match o with
  | Returned st | Raised _ st | Waiting st => st
  end.

(** The object the loop reads: [json['inner']['trusted']] on the first
    request, [json['trusted']] on the later ones. *)
Definition envelope (first_request : bool) (json : threads_json thread)
  : option (trusted_json thread) :=
  if first_request then trusted json else inner_trusted json.

(** The loop goes on after a turn: the body has no [errors], its envelope
    has [threads], a true [has_more] and a [min_entry_id], and the
    [time.sleep] returns. *)
Definition goes_on (first_request : bool) (t : turn (threads_json thread)) : bool :=
  match response t with
  | Ok json =>
      match threads_errors json, envelope first_request json with
      | None, Some e =>
          match threads e, has_more e, trusted_min_entry_id e, sleep t with
          | Some _, Some true, Some _, Ok _ => true
          | _, _, _, _ => false
          end
      | _, _ => false
      end
  | Raise _ => false
  end.

(** The threads a turn delivers: those of its envelope, when the body has
    no [errors]. *)
Definition page_threads (first_request : bool) (t : turn (threads_json thread))
  : list thread :=
  match response t with
  | Ok json =>
      match threads_errors json, envelope first_request json with
      | None, Some e => default [] (threads e)
      | _, _ => []
      end
  | Raise _ => []
  end.

(** The envelope lacks a key that the loop reads: the envelope itself,
    [threads], [has_more] or, after a true [has_more], [min_entry_id]. *)
Definition lacks_a_key (e : option (trusted_json thread)) : Prop :=
  match e with
  | None => True
  | Some e =>
      threads e = None \/
      (threads e <> None /\ has_more e = None) \/
      (threads e <> None /\ has_more e = Some true /\ trusted_min_entry_id e = None)
  end.

Fixpoint turns_taken (first_request : bool) (script : list (turn (threads_json thread)))
  : nat :=
  match script with
  | [] => 0
  | t :: script' => if goes_on first_request t then S (turns_taken true script') else 1
  end.

Fixpoint contributions (first_request : bool) (script : list (turn (threads_json thread)))
  : list (list thread) :=
  match script with
  | [] => []
  | t :: script' => page_threads first_request t :: contributions true script'
  end.

Lemma get_threads_loop_exit script : forall st : threads_state thread,
  let st' := threads_exit (get_threads_loop script st) in
  threads_requests st' = (threads_requests st + turns_taken (first_request st) script)%nat /\
  collected st' =
    collected st ++
    concat (take (turns_taken (first_request st) script)
                 (contributions (first_request st) script)).
Proof.
  induction script as [|t script IH]; intros st.
  { simpl. split; [lia|by rewrite app_nil_r]. }
  cbn [get_threads_loop turns_taken contributions].
  unfold goes_on, page_threads, envelope.
  destruct (response t) as [json|e]; [|simpl; split; [lia|by rewrite app_nil_r]].
  destruct (threads_errors json) as [errs|].
  { destruct (report_errors errs stop_conversations). simpl.
    split; [lia|by rewrite app_nil_r]. }
  assert (forall key (env : option (trusted_json thread)),
    let (collected', more) := read_envelope key env (collected st) in
    collected' = collected st ++
                 match env with Some e => default [] (threads e) | None => [] end /\
    match more with
    | Ok true =>
        match env with
        | Some e =>
            match threads e, has_more e, trusted_min_entry_id e with
            | Some _, Some true, Some _ => True
            | _, _, _ => False
            end
        | None => False
        end
    | Ok false | Raise (KeyError _) =>
        match env with
        | Some e =>
            match threads e, has_more e, trusted_min_entry_id e with
            | Some _, Some true, Some _ => False
            | _, _, _ => True
            end
        | None => True
        end
    | Raise _ => False
    end) as Henv.
  { intros key [e|]; simpl; [|by rewrite app_nil_r].
    destruct (threads e) as [ths|]; simpl; [|by rewrite app_nil_r].
    destruct (has_more e) as [[]|]; [|done..].
    by destruct (trusted_min_entry_id e). }
  set (env := if first_request st then trusted json else inner_trusted json).
  assert (exists key, (if first_request st
            then read_envelope "trusted" (trusted json) (collected st)
            else read_envelope "inner" (inner_trusted json) (collected st))
          = read_envelope key env (collected st)) as [key ->].
  { subst env. destruct (first_request st); eauto. }
  specialize (Henv key env).
  destruct (read_envelope key env (collected st)) as [collected' more].
  destruct Henv as [-> Hmore].
  destruct more as [[]|e].
  - destruct env as [e|]; [|done].
    destruct (threads e) as [ths|]; [|done].
    destruct (has_more e) as [[]|]; [|done..].
    destruct (trusted_min_entry_id e); [|done].
    destruct (sleep t) as [[]|e']; simpl.
    + match goal with
      | |- context [get_threads_loop script ?s] => destruct (IH s) as [Hr Hc]
      end.
      simpl in Hr, Hc. rewrite Hr, Hc. split; [lia|].
      by rewrite <- app_assoc.
    + split; [lia|]. by rewrite app_nil_r.
  - assert (match env with
            | Some e =>
                match threads e, has_more e, trusted_min_entry_id e, sleep t with
                | Some _, Some true, Some _, Ok _ => true
                | _, _, _, _ => false
                end
            | None => false
            end = false) as ->.
    { destruct env as [e|]; [|done].
      destruct (threads e); [|done]. destruct (has_more e) as [[]|]; [|done..].
      by destruct (trusted_min_entry_id e). }
    simpl. split; [lia|]. by rewrite app_nil_r.
  - destruct e; try done.
    assert (match env with
            | Some e =>
                match threads e, has_more e, trusted_min_entry_id e, sleep t with
                | Some _, Some true, Some _, Ok _ => true
                | _, _, _, _ => false
                end
            | None => false
            end = false) as ->.
    { destruct env as [e|]; [|done].
      destruct (threads e); [|done]. destruct (has_more e) as [[]|]; [|done..].
      by destruct (trusted_min_entry_id e). }
    simpl. split; [lia|]. by rewrite app_nil_r.
Qed.

Lemma get_threads_loop_app pre : forall (st0 st : threads_state thread) post,
  get_threads_loop pre st0 = Waiting st ->
  get_threads_loop (pre ++ post) st0 = get_threads_loop post st.
Proof.
  induction pre as [|t pre IH]; intros st0 st post; simpl.
  { by intros [= ->]. }
  destruct (response t) as [json|e]; [|done].
  destruct (threads_errors json) as [errs|].
  { by destruct (report_errors errs stop_conversations). }
  destruct (if first_request st0 then _ else _) as [collected' more].
  destruct more as [[]|e]; [|done|by destruct e].
  destruct (sleep t) as [[]|e]; [|done]. apply IH.
Qed.

End ThreadsFacts.

(** X14: [get_threads] sends one request per turn as long as the turns go on,
    and one more unless the remote side gives no further answer; the
    threads it has when it stops are those of the answers it got, in the
    order of the requests: of [json['inner']['trusted']] for the first,
    of [json['trusted']] for the others. *)
Theorem get_threads_collects_in_order {thread : Type}
    (script : list (turn (threads_json thread))) :
  threads_requests (threads_exit (get_threads script)) = turns_taken false script /\
  collected (threads_exit (get_threads script)) =
    concat (take (turns_taken false script) (contributions false script)).
Proof.
  unfold get_threads.
  match goal with
  | |- context [get_threads_loop script ?s] =>
      destruct (get_threads_loop_exit script s) as [Hr Hc]
  end.
  simpl in Hr, Hc. by rewrite Hr, Hc.
Qed.

(** X15: A thread-list body without [errors] that lacks a key the loop reads
    ends [get_threads] without an exception: the [KeyError] is caught, the
    call prints that the list could not be fully parsed and returns the
    threads collected so far, with those of this body when [threads] was
    there; no further request is sent, whatever the remote side would
    answer. *)
Theorem missing_key_ends_get_threads {thread : Type}
    (pre post : list (turn (threads_json thread))) (t : turn (threads_json thread))
    (st : threads_state thread) (json : threads_json thread) :
  get_threads pre = Waiting st ->
  response t = Ok json ->
  threads_errors json = None ->
  lacks_a_key (envelope (first_request st) json) ->
  exists key,
    get_threads (pre ++ t :: post) =
    Returned {| collected := collected st ++ page_threads (first_request st) t;
                first_request := true;
                threads_requests := S (threads_requests st);
                threads_stdout := threads_stdout st ++ [unable_to_parse key] |}.
Proof.
  intros Hpre Hresp Herr Hlacks. unfold get_threads in *.
  rewrite (get_threads_loop_app pre _ st) by done.
  cbn [get_threads_loop]. unfold page_threads, envelope in *.
  rewrite Hresp, Herr.
  assert (forall key e, lacks_a_key e ->
            exists key', read_envelope key e (collected st) =
              (collected st ++ match e with Some e => default [] (threads e) | None => [] end,
               Raise (KeyError key'))) as Hread.
  { intros key [e|] Hl; simpl.
    - destruct Hl as [Hth|[[Hth Hm]|(Hth & Hm & Hid)]].
      + rewrite Hth. simpl. rewrite app_nil_r. eauto.
      + destruct (threads e) as [ths|]; [|done]. rewrite Hm. simpl. eauto.
      + destruct (threads e) as [ths|]; [|done]. rewrite Hm, Hid. simpl. eauto.
    - rewrite app_nil_r. eauto. }
  destruct (first_request st).
  - destruct (Hread "trusted" _ Hlacks) as [key' ->]. by exists key'.
  - destruct (Hread "inner" _ Hlacks) as [key' ->]. by exists key'.
Qed.

(** A later response whose [trusted] object has threads but no [has_more]. *)
Definition turn_without_has_more : turn (threads_json string) :=
  {| response :=
       Ok {| threads_errors := None;
             inner_trusted := None;
             trusted := Some {| threads := Some ["789-012"]; has_more := None;
                                trusted_min_entry_id := Some "55" |} |};
     sleep := Ok tt |}.

Lemma missing_key_ends_get_threads_witness :
  exists key,
    get_threads ([first_threads_turn] ++ turn_without_has_more :: [first_threads_turn]) =
    Returned {| collected := ["123-456"] ++ ["789-012"];
                first_request := true;
                threads_requests := 2;
                threads_stdout := [] ++ [unable_to_parse key] |}.
Proof.
  apply (missing_key_ends_get_threads [first_threads_turn] [first_threads_turn]
           turn_without_has_more
           {| collected := ["123-456"]; first_request := true;
              threads_requests := 1; threads_stdout := [] |}
           _ eq_refl eq_refl eq_refl).
  simpl. right. left. split; [discriminate|reflexivity].
Defined.

(** ** Printing and writing a conversation *)

(** X16: On a console that takes every text written to it,
    [print_conversation] returns exactly when the lines of the file buffer
    of [write_conversation] can be built, and raises the exception that
    building them raises: both loops read the time stamps in the same
    way. *)
Theorem print_conversation_fails_as_write (p : platform)
    (stdout_write : string -> string -> result unit) (tweets : odict message) :
  (forall out s, stdout_write out s = Ok tt) ->
  (print_conversation p stdout_write tweets).2 =
  (fun _ => tt) <$> write_tweets p "" (reverse tweets).
Proof.
  intros Hconsole. unfold print_conversation.
  assert (forall out s e, print stdout_write out s e = ((out +:+ s) +:+ e, Ok tt)) as Hprint.
  { intros out s e. unfold print, write_stdout. by rewrite !Hconsole. }
  assert (forall els out, (print_elements stdout_write out els).2 = Ok tt) as Hels.
  { induction els as [|el els IH]; intros out; [done|]. simpl.
    rewrite Hprint. apply IH. }
  cut (forall l out file_buffer,
         (print_tweets p stdout_write out l).2 =
         (fun _ => tt) <$> write_tweets p file_buffer l).
  { intros H. apply H. }
  intros l. induction l as [|tweet l IH]; intros out file_buffer; [done|]. simpl.
  destruct tweet.2 as [i time_stamp author elements|i text|]; simpl.
  - destruct (Py.int time_stamp) as [t|]; simpl; [|done].
    destruct (Py.strftime_iso (utcoffset p t) t); simpl; [|done].
    rewrite Hprint.
    match goal with
    | |- context [print_elements stdout_write ?o elements] =>
        pose proof (Hels elements o) as He;
        destruct (print_elements stdout_write o elements) as [out' r]
    end.
    simpl in He. subst r. rewrite Hprint. apply IH.
  - rewrite Hprint. apply IH.
  - apply IH.
Qed.

(** Two stored messages, the older one without time stamp, on a console
    that takes everything: printing and building the buffer both raise
    [TypeError]. *)
Lemma print_conversation_fails_as_write_witness :
  (print_conversation utc_posix (fun _ _ => Ok tt)
     [("105", message_105); ("104", DirectMessage "104" None (Some "bob") [])]).2 =
  (fun _ => tt) <$>
    write_tweets utc_posix ""
      (reverse [("105", message_105); ("104", DirectMessage "104" None (Some "bob") [])]).
Proof.
  apply (print_conversation_fails_as_write utc_posix (fun _ _ => Ok tt)). reflexivity.
Defined.

(** ** What the text parser keeps and what it raises *)

Lemma filter_flat_map {A B} (P : B -> Prop) `{forall x, Decision (P x)}
    (f : A -> list B) (l : list A) :
  filter P (flat_map f l) = flat_map (fun x => filter P (f x)) l.
Proof.
  induction l as [|x l IH]; [done|]. simpl. by rewrite filter_app, IH.
Qed.

Lemma iter_node tags t a x c tl :
  Lxml.iter tags (Lxml.Node t a x c tl) =
  (if decide (t ∈ tags) then [Lxml.Node t a x c tl] else []) ++
  flat_map (Lxml.iter tags) c.
Proof.
  unfold Lxml.iter. cbn [Lxml.subtree Lxml.children]. rewrite filter_cons.
  rewrite filter_flat_map. cbn [Lxml.tag]. by destruct (decide (t ∈ tags)).
Qed.

Lemma add_texts_app tostring l1 l2 : forall dm_text,
  add_texts tostring dm_text (l1 ++ l2) =
  (dm_text' ← add_texts tostring dm_text l1; add_texts tostring dm_text' l2).
Proof.
  induction l1 as [|n l1 IH]; intros dm_text; [done|]. simpl.
  destruct (add_text tostring dm_text n); simpl; [apply IH|done].
Qed.

Lemma add_texts_links tostring links urls : forall dm_text,
  Forall2 (fun a url =>
             Lxml.tag a = "a" /\
             Lxml.in_classes "twitter-timeline-link" a = true /\
             Lxml.get a "data-expanded-url" = Some url /\
             Lxml.iter ["p"; "a"; "img"] a = [a]) links urls ->
  add_texts tostring dm_text (flat_map (Lxml.iter ["p"; "a"; "img"]) links) =
  Ok (dm_text +:+ fold_right String.append "" urls).
Proof.
  intros dm_text H. revert dm_text.
  induction H as [|a url links urls (Htag & Hcls & Hurl & Hiter) _ IH]; intros dm_text.
  { simpl. by rewrite app_empty_r. }
  simpl. rewrite Hiter. simpl. unfold add_text, _extract_dm_text_url.
  rewrite Htag, Hcls. simpl. rewrite Hurl. simpl. rewrite IH.
  by rewrite app_assoc'.
Qed.

(** X17: The text of a message whose paragraph holds external links, each with
    nothing below it that the loop visits: the text of the paragraph before
    its first child, then the expanded addresses of the links.  The text
    of a link and the text that follows a link in the paragraph (its tail)
    are not part of it. *)
Theorem link_tails_are_dropped (tostring : Lxml.node -> string)
    (elem text_tweet : Lxml.node) (others : list Lxml.node)
    (attrs : list (string * string)) (x t : option string)
    (links : list Lxml.node) (urls : list string) :
  Lxml.cssselect_class "p" "tweet-text" elem = text_tweet :: others ->
  text_tweet = Lxml.Node "p" attrs x links t ->
  Forall2 (fun a url =>
             Lxml.tag a = "a" /\
             Lxml.in_classes "twitter-timeline-link" a = true /\
             Lxml.get a "data-expanded-url" = Some url /\
             Lxml.iter ["p"; "a"; "img"] a = [a]) links urls ->
  _parse_dm_text tostring elem =
  Ok (DirectMessageText (default "" x +:+ fold_right String.append "" urls)).
Proof.
  intros Hsel -> Hlinks. unfold _parse_dm_text. rewrite Hsel, iter_node.
  rewrite decide_True by (by left). cbn [app add_texts].
  assert (add_text tostring "" (Lxml.Node "p" attrs x links t) = Ok (default "" x)) as ->.
  { unfold add_text. simpl. by destruct x. }
  simpl. by rewrite (add_texts_links tostring links urls).
Qed.

(** The paragraph [hello <a href=... >example.com</a> world]. *)
Definition paragraph_with_link : Lxml.node :=
  Lxml.Node "p" [("class", "TweetTextSize tweet-text")] (Some "hello ")
    [Lxml.Node "a" [("href", "https://t.co/abc");
                    ("class", "twitter-timeline-link");
                    ("data-expanded-url", "http://example.com")]
       None [Lxml.Node "span" [] (Some "example.com") [] None] (Some " world")]
    None.

Lemma link_tails_are_dropped_witness :
  _parse_dm_text (fun _ => "") paragraph_with_link =
  Ok (DirectMessageText "hello http://example.com").
Proof.
  eapply (link_tails_are_dropped (fun _ => "") paragraph_with_link
            paragraph_with_link [] _ (Some "hello ") None _ ["http://example.com"]).
  - vm_compute. reflexivity.
  - reflexivity.
  - constructor; [|constructor]. vm_compute. done.
Defined.

(** A link that makes [dm_text += ...] fail: an external link without the
    attribute [data-expanded-url]. *)
Definition link_without_expanded_url (a : Lxml.node) : Prop :=
  Lxml.tag a = "a" /\
  Lxml.in_classes "twitter-timeline-link" a = true /\
  Lxml.get a "data-expanded-url" = None.

Lemma add_text_raises tostring dm_text a e :
  add_text tostring dm_text a = Raise e <-> e = TypeError /\ link_without_expanded_url a.
Proof.
  unfold add_text, link_without_expanded_url, _extract_dm_text_url. simpl.
  destruct (String.eqb_spec (Lxml.tag a) "a") as [Ha|Ha].
  - destruct (Lxml.in_classes "twitter-timeline-link" a).
    + destruct (Lxml.get a "data-expanded-url"); [by split; [|intros (_ & _ & _ & ?)]|].
      split; [by intros [= <-]|by intros [-> _]].
    + destruct (Lxml.in_classes "twitter-hashtag" a),
        (Lxml.in_classes "twitter-atreply" a); by split; [|intros (_ & _ & ? & _)].
  - destruct (_ && _); [by split; [|intros (_ & ? & _)]|].
    destruct (Lxml.text a); by split; [|intros (_ & ? & _)].
Qed.

Lemma add_texts_raises tostring texts : forall dm_text e,
  add_texts tostring dm_text texts = Raise e <->
  e = TypeError /\ exists a, a ∈ texts /\ link_without_expanded_url a.
Proof.
  induction texts as [|a texts IH]; intros dm_text e.
  { simpl. split; [done|]. by intros (_ & a & ?%elem_of_nil & _). }
  simpl. destruct (add_text tostring dm_text a) as [dm_text'|e'] eqn:Ha; simpl.
  - rewrite IH. apply and_iff_compat_l. split.
    + intros (b & Hb & Hbad). exists b. split; [by right|done].
    + intros (b & [->|Hb]%elem_of_cons & Hbad); [|eauto].
      assert (add_text tostring dm_text a = Raise TypeError) as Hr
        by (by apply add_text_raises).
      congruence.
  - apply add_text_raises in Ha as [-> Hbad]. split.
    + intros [= <-]. split; [done|]. exists a. split; [by left|done].
    + by intros [-> _].
Qed.

(** X18: [_parse_dm_text] raises in two cases only: [IndexError] when the node
    holds no paragraph of class [tweet-text], and [TypeError] when the loop
    over the first such paragraph meets an external link that has no
    [data-expanded-url]. *)
Theorem parse_dm_text_raises (tostring : Lxml.node -> string) (elem : Lxml.node)
    (e : exn) :
  _parse_dm_text tostring elem = Raise e <->
  (Lxml.cssselect_class "p" "tweet-text" elem = [] /\ e = IndexError) \/
  (exists text_tweet others a,
     Lxml.cssselect_class "p" "tweet-text" elem = text_tweet :: others /\
     a ∈ Lxml.iter ["p"; "a"; "img"] text_tweet /\
     link_without_expanded_url a /\ e = TypeError).
Proof.
  unfold _parse_dm_text.
  destruct (Lxml.cssselect_class "p" "tweet-text" elem) as [|text_tweet others].
  { split.
    - intros [= <-]. by left.
    - intros [[_ ->]|(? & ? & ? & ? & _)]; done. }
  destruct (add_texts tostring "" (Lxml.iter ["p"; "a"; "img"] text_tweet))
    as [dm_text|e'] eqn:Hadd; simpl.
  - split; [done|]. intros [[? _]|(tt & others' & a & [= <- <-] & Hin & Hbad & ->)]; [done|].
    assert (add_texts tostring "" (Lxml.iter ["p"; "a"; "img"] text_tweet)
            = Raise TypeError) as Hr by (apply add_texts_raises; eauto).
    congruence.
  - apply add_texts_raises in Hadd as (-> & a & Hin & Hbad). split.
    + intros [= <-]. right. by exists text_tweet, others, a.
    + by intros [[? _]|(? & ? & ? & _ & _ & _ & ->)].
Qed.

(** ** What the card parser raises *)

(** X19: [_parse_dm_card] raises [IndexError] when the node holds no card,
    [TypeError] when the first card has no [data-card-url], and, when that
    address is a short link, what the request for it raises or a
    [KeyError] for a response without [location]; it asks nothing of the
    network for any other address. *)
Theorem parse_dm_card_raises (requests_get : string -> result (option string))
    (elem : Lxml.node) (e : exn) :
  _parse_dm_card requests_get elem = Raise e <->
  match filter (fun n => is_card n = true) (Lxml.subtree elem) with
  | [] => e = IndexError
  | card :: _ =>
      match Lxml.get card "data-card-url" with
      | None => e = TypeError
      | Some url =>
          contains "https://t.co/" url = true /\
          (requests_get url = Raise e \/
           requests_get url = Ok None /\ e = KeyError "location")
      end
  end.
Proof.
  unfold _parse_dm_card.
  destruct (filter _ (Lxml.subtree elem)) as [|card _]; [by split; [intros [= <-]|intros ->]|].
  unfold new_DirectMessageCard.
  destruct (Lxml.get card "data-card-url") as [url|]; [|by split; [intros [= <-]|intros ->]].
  destruct (contains "https://t.co/" url); [|by split; [|intros [? _]]].
  unfold expand_url. destruct (requests_get url) as [[location|]|e']; simpl.
  - split; [done|]. by intros [_ [?|[? _]]].
  - split; [intros [= <-]; by split; [|right]|]. by intros [_ [?|[_ ->]]].
  - split; [intros [= <-]; by split; [|left]|]. intros [_ [[= ->]|[? _]]]; done.
Qed.
(** ** Fragments, from their tree to the transcript *)

Section FragmentFacts.

Variable requests_get : string -> result (option string).
Variable tostring : Lxml.node -> string.
Variable fragment_fromstring : string -> result Lxml.node.
Variable parse_media : Lxml.node -> string -> option string -> element_view.

Local Abbreviation view := (view_of requests_get tostring fragment_fromstring parse_media).

(** X20: Of a fragment without message container, what is archived is the text
    that the first [DMConversationEntry] division holds before its first
    child, stripped; what its children hold is not read, and a division
    that starts with a child raises [AttributeError]. *)
Theorem entry_text_is_the_leading_text (tweet_id value : string)
    (document entry : Lxml.node) (others : list Lxml.node) :
  fragment_fromstring value = Ok document ->
  Lxml.cssselect_class "div" "DirectMessage-container" document = [] ->
  Lxml.cssselect_class "div" "DMConversationEntry" document = entry :: others ->
  parse_fragment view tweet_id value =
  match Lxml.text entry with
  | Some text => Ok (DMConversationEntry tweet_id (Py.strip text))
  | None => Raise AttributeError
  end.
Proof.
  intros Hdoc Hcontainer Hentry.
  unfold parse_fragment, view_of, fragment_view_of.
  rewrite Hdoc, Hcontainer, Hentry.
  destruct (Lxml.text entry) as [text|]; [|done].
  unfold new_DMConversationEntry. by rewrite strip_idemp.
Qed.

(** X21: A message whose time stamp element has no [data-time] attribute is
    parsed without error, with [None] as its time stamp; the error shows
    when its line is built for the transcript, as a [TypeError]. *)
Theorem missing_data_time_is_found_at_write_back (p : platform)
    (tweet_id value : string) (document container dm_avatar footer stamp : Lxml.node)
    (containers avatars footers stamps : list Lxml.node) (message : message) :
  fragment_fromstring value = Ok document ->
  Lxml.cssselect_class "div" "DirectMessage-container" document = container :: containers ->
  Lxml.cssselect_class "img" "DMAvatar-image" container = dm_avatar :: avatars ->
  Lxml.cssselect_class "div" "DirectMessage-footer" document = footer :: footers ->
  Lxml.cssselect_class "span" "_timestamp" footer = stamp :: stamps ->
  Lxml.get stamp "data-time" = None ->
  parse_fragment view tweet_id value = Ok message ->
  (exists elements,
     message = DirectMessage tweet_id None (Lxml.get dm_avatar "alt") elements) /\
  forall file_buffer, write_tweet p file_buffer message = Raise TypeError.
Proof.
  intros Hdoc Hc Ha Hf Hs Htime.
  unfold parse_fragment, view_of, fragment_view_of.
  rewrite Hdoc, Hc, Ha, Hf, Hs, Htime.
  destruct (parse_elements _ []) as [elements|]; [|done].
  intros [= <-]. split; [by exists elements|done].
Qed.

End FragmentFacts.

(** A message of alice: an avatar, a text and a footer whose time stamp
    element has no [data-time]. *)
Definition avatar_of_alice : Lxml.node :=
  Lxml.Node "img" [("class", "DMAvatar-image"); ("alt", "alice")] None [] None.

Definition message_without_data_time : Lxml.node :=
  Lxml.Node "li" [("class", "DirectMessage")] None
    [Lxml.Node "div" [("class", "DirectMessage-container")] None
       [avatar_of_alice;
        Lxml.Node "div" [("class", "DirectMessage-message")] None
          [Lxml.Node "div" [("class", "DirectMessage-contentContainer")] None
             [Lxml.Node "div" [("class", "DirectMessage-text")] None
                [Lxml.Node "p" [("class", "tweet-text")] (Some "hello") [] None] None]
             None]
          None]
       None;
     Lxml.Node "div" [("class", "DirectMessage-footer")] None
       [Lxml.Node "span" [("class", "_timestamp")] (Some "Jan 1") [] None] None]
    None.

Lemma missing_data_time_is_found_at_write_back_witness :
  (exists elements,
     DirectMessage "105" None (Some "alice") [DirectMessageText "hello"] =
     DirectMessage "105" None (Some "alice") elements) /\
  forall file_buffer,
    write_tweet utc_posix file_buffer
      (DirectMessage "105" None (Some "alice") [DirectMessageText "hello"]) =
    Raise TypeError.
Proof.
  eapply (missing_data_time_is_found_at_write_back
            (fun _ => Ok None) (fun _ => "") (fun _ => Ok message_without_data_time)
            (fun _ _ _ => UnknownElement) utc_posix "105" "<li>" message_without_data_time
            _ avatar_of_alice _ _ _ _ _ _
            (DirectMessage "105" None (Some "alice") [DirectMessageText "hello"])).
  - reflexivity.
  - vm_compute. reflexivity.
  - vm_compute. reflexivity.
  - vm_compute. reflexivity.
  - vm_compute. reflexivity.
  - reflexivity.
  - vm_compute. reflexivity.
Defined.

(** The entry [<div class="DMConversationEntry"> bob left </div>]. *)
Definition entry_fragment : Lxml.node :=
  Lxml.Node "div" [("class", "DMConversationEntry")] (Some " bob left ")
    [Lxml.Node "b" [] (Some "!") [] None] None.

Lemma entry_text_is_the_leading_text_witness :
  parse_fragment
    (view_of (fun _ => Ok None) (fun _ => "") (fun _ => Ok entry_fragment)
             (fun _ _ _ => UnknownElement)) "105" "<div>" =
  Ok (DMConversationEntry "105" "bob left").
Proof.
  apply (entry_text_is_the_leading_text (fun _ => Ok None) (fun _ => "")
           (fun _ => Ok entry_fragment) (fun _ _ _ => UnknownElement)
           "105" "<div>" entry_fragment entry_fragment []).
  - reflexivity.
  - vm_compute. reflexivity.
  - vm_compute. reflexivity.
Defined.
(** ** What the media parser returns and raises *)

Section MediaFacts.

Variable p : platform.
Variable download : string -> string -> string -> result unit.
Variable _conversation_id : string.

Lemma fetch_MediaOk wanted url directory media_filename element_object m :
  fetch download _conversation_id wanted url directory media_filename
    (MediaOk element_object) = MediaOk m ->
  m = element_object.
Proof.
  unfold fetch. destruct wanted; [|congruence].
  destruct (download _ _ _); congruence.
Qed.

Lemma fetch_not_unbound wanted url directory media_filename element_object name :
  fetch download _conversation_id wanted url directory media_filename
    (MediaOk element_object) <> MediaRaises (UnboundLocalError name).
Proof.
  unfold fetch. destruct wanted; [|done]. by destruct (download _ _ _).
Qed.

(** X22: A media of type [unknown] is only ever returned for a node without
    image, GIF or video, and then it is empty: no address, no preview, an
    empty description. *)
Theorem unknown_media_is_empty (elem : Lxml.node) (tweet_id : string)
    (time_stamp : option string) (download_images download_gifs download_videos : bool)
    (media_url media_preview_url : string) (media_alt : option string) :
  _parse_dm_media p download _conversation_id elem tweet_id time_stamp
    download_images download_gifs download_videos =
  MediaOk (DirectMessageMedia media_url media_preview_url media_alt unknown) ->
  media_url = "" /\ media_preview_url = "" /\ media_alt = Some "" /\
  filter (fun n => Lxml.tag n = "img") (Lxml.descendants elem) = [] /\
  Lxml.cssselect_class "div" "PlayableMedia--gif" elem = [] /\
  Lxml.cssselect_class "div" "PlayableMedia--video" elem = [].
Proof.
  unfold _parse_dm_media.
  destruct (Py.int time_stamp) as [t|]; [|done].
  destruct (strftime_compact (utcoffset p t) t) as [ts|]; [|done].
  destruct (filter _ (Lxml.descendants elem)) as [|img imgs]; simpl.
  - destruct (Lxml.cssselect_class "div" "PlayableMedia--gif" elem) as [|g gs].
    + destruct (Lxml.cssselect_class "div" "PlayableMedia--video" elem) as [|v vs].
      * by intros [= <- <- <-].
      * destruct (preview_url v); [|done]. by intros [= ]%fetch_MediaOk.
    + destruct (preview_url g); [|done].
      destruct (Re.search gif_pattern _); [|done]. by intros [= ]%fetch_MediaOk.
  - destruct (Lxml.get img "data-full-img") as [url|]; [|done].
    destruct (Re.search image_pattern url).
    + by intros [= ]%fetch_MediaOk.
    + destruct (Re.search sticker_pattern url); [|done].
      by intros [= ]%fetch_MediaOk.
Qed.

(** X23: The call ends with an [UnboundLocalError] exactly when the node holds
    an image whose address matches neither the pattern of an image nor
    that of a sticker (after 'Unknown media type' is printed): such an
    image is never returned, whether or not images are downloaded. *)
Theorem unrecognised_image_raises (elem : Lxml.node) (tweet_id : string)
    (time_stamp : option string) (download_images download_gifs download_videos : bool)
    (name : string) :
  _parse_dm_media p download _conversation_id elem tweet_id time_stamp
    download_images download_gifs download_videos =
  MediaRaises (UnboundLocalError name) <->
  name = "media_filename" /\
  (exists t formatted_timestamp,
     Py.int time_stamp = Ok t /\
     strftime_compact (utcoffset p t) t = Ok formatted_timestamp) /\
  exists img imgs media_url,
    filter (fun n => Lxml.tag n = "img") (Lxml.descendants elem) = img :: imgs /\
    Lxml.get img "data-full-img" = Some media_url /\
    Re.search image_pattern media_url = None /\
    Re.search sticker_pattern media_url = None.
Proof.
  unfold _parse_dm_media. split.
  - destruct (Py.int time_stamp) as [t|]; [|done].
    destruct (strftime_compact (utcoffset p t) t) as [ts|] eqn:Hts; [|done].
    destruct (filter _ (Lxml.descendants elem)) as [|img imgs]; simpl.
    + destruct (Lxml.cssselect_class "div" "PlayableMedia--gif" elem) as [|g gs].
      * destruct (Lxml.cssselect_class "div" "PlayableMedia--video" elem) as [|v vs];
          [done|].
        destruct (preview_url v); [|done]. by intros ?%fetch_not_unbound.
      * destruct (preview_url g); [|done].
        destruct (Re.search gif_pattern _); [|done]. by intros ?%fetch_not_unbound.
    + destruct (Lxml.get img "data-full-img") as [url|] eqn:Hurl; [|done].
      destruct (Re.search image_pattern url) eqn:Hi.
      { by intros ?%fetch_not_unbound. }
      destruct (Re.search sticker_pattern url) eqn:Hs.
      { by intros ?%fetch_not_unbound. }
      intros [= <-]. split; [done|]. split; [by exists t, ts|].
      by exists img, imgs, url.
  - intros (-> & (t & ts & -> & ->) & img & imgs & url & -> & Hurl & Hi & Hs).
    simpl. by rewrite Hurl, Hi, Hs.
Qed.

End MediaFacts.

(** X24: What the parser returns does not depend on the downloads: the media
    returned with any of them switched on, against any network, is the
    media returned with all of them off, when nothing is asked of the
    network. *)
Theorem downloads_do_not_change_the_media (p : platform)
    (download download' : string -> string -> string -> result unit)
    (_conversation_id _conversation_id' : string)
    (elem : Lxml.node) (tweet_id : string) (time_stamp : option string)
    (download_images download_gifs download_videos : bool) (m : element) :
  _parse_dm_media p download _conversation_id elem tweet_id time_stamp
    download_images download_gifs download_videos = MediaOk m ->
  _parse_dm_media p download' _conversation_id' elem tweet_id time_stamp
    false false false = MediaOk m.
Proof.
  unfold _parse_dm_media.
  destruct (Py.int time_stamp) as [t|]; [|done].
  destruct (strftime_compact (utcoffset p t) t) as [ts|]; [|done].
  destruct (filter _ (Lxml.descendants elem)) as [|img imgs]; simpl.
  - destruct (Lxml.cssselect_class "div" "PlayableMedia--gif" elem) as [|g gs].
    + destruct (Lxml.cssselect_class "div" "PlayableMedia--video" elem) as [|v vs];
        [done|].
      destruct (preview_url v); [|done]. by intros ->%fetch_MediaOk.
    + destruct (preview_url g); [|done].
      destruct (Re.search gif_pattern _); [|done]. by intros ->%fetch_MediaOk.
  - destruct (Lxml.get img "data-full-img") as [url|]; [|done].
    destruct (Re.search image_pattern url).
    + by intros ->%fetch_MediaOk.
    + destruct (Re.search sticker_pattern url); [|done]. by intros ->%fetch_MediaOk.
Qed.

(** A media node with one image. *)
Definition image_node (url : string) : Lxml.node :=
  Lxml.Node "div" [("class", "DirectMessage-media")] None
    [Lxml.Node "img" [("data-full-img", url); ("alt", "a cat")] None [] None] None.

Definition image_address : string :=
  "https://ton.twitter.com/1.1/ton/data/dm/1122/3344/abcd.jpg:large".

Lemma downloads_do_not_change_the_media_witness :
  _parse_dm_media utc_posix (fun _ _ _ => Raise IOError) "other"
    (image_node image_address) "105" (Some "1609459200") false false false =
  MediaOk (DirectMessageMedia image_address "" (Some "a cat") image).
Proof.
  apply (downloads_do_not_change_the_media utc_posix (fun _ _ _ => Ok tt)
           (fun _ _ _ => Raise IOError) "123-456" "other"
           (image_node image_address) "105" (Some "1609459200") true true true).
  vm_compute. reflexivity.
Defined.

Lemma unknown_media_is_empty_witness :
  "" = "" /\ "" = "" /\ Some "" = Some "" /\
  filter (fun n => Lxml.tag n = "img")
    (Lxml.descendants (Lxml.Node "div" [] None [] None)) = [] /\
  Lxml.cssselect_class "div" "PlayableMedia--gif" (Lxml.Node "div" [] None [] None) = [] /\
  Lxml.cssselect_class "div" "PlayableMedia--video" (Lxml.Node "div" [] None [] None) = [].
Proof.
  apply (unknown_media_is_empty utc_posix (fun _ _ _ => Ok tt) "123-456"
           (Lxml.Node "div" [] None [] None) "105" (Some "1609459200") true true true).
  vm_compute. reflexivity.
Defined.
(** ** The parts of an address that name a file *)

Fixpoint all_in (c : Re.class) (w : string) : bool :=
  match w with
  | String a w' => Re.in_class c a && all_in c w'
  | EmptyString => true
  end.

(** What a pattern can match at the start of a string, and the groups it
    then gives. *)
Inductive matches : list Re.atom -> string -> list string -> Prop :=
  | matches_nil s : matches [] s []
  | matches_Lit l pattern s groups :
      matches pattern s groups -> matches (Re.Lit l :: pattern) (l +:+ s) groups
  | matches_Many c (nonempty greedy capture : bool) pattern w s groups :
      all_in c w = true -> (nonempty = true -> w <> "") ->
      matches pattern s groups ->
      matches (Re.Many c nonempty greedy capture :: pattern) (w +:+ s)
        (if capture then w :: groups else groups)
  | matches_End pattern s groups :
      s = "" \/ s = Py.nl -> matches pattern s groups ->
      matches (Re.End :: pattern) s groups.

Lemma matches_nil_inv s groups : matches [] s groups -> groups = [].
Proof. by inversion 1. Qed.

Lemma matches_Lit_inv l pattern s groups :
  matches (Re.Lit l :: pattern) s groups ->
  exists rest, s = l +:+ rest /\ matches pattern rest groups.
Proof. inversion 1; subst. eauto. Qed.

Lemma matches_Many_inv c nonempty greedy capture pattern s groups :
  matches (Re.Many c nonempty greedy capture :: pattern) s groups ->
  exists w rest found,
    s = w +:+ rest /\ all_in c w = true /\ (nonempty = true -> w <> "") /\
    matches pattern rest found /\
    groups = if capture then w :: found else found.
Proof. inversion 1; subst. eauto 10. Qed.

Lemma matches_End_inv pattern s groups :
  matches (Re.End :: pattern) s groups ->
  (s = "" \/ s = Py.nl) /\ matches pattern s groups.
Proof. inversion 1; subst. eauto. Qed.

Lemma strip_prefix_Some l : forall s rest,
  strip_prefix l s = Some rest -> s = l +:+ rest.
Proof.
  induction l as [|a l IH]; intros s rest; simpl.
  - by intros [= ->].
  - destruct s as [|b s]; [done|].
    destruct (Ascii.eqb_spec a b) as [->|]; [|done].
    intros H. by rewrite (IH _ _ H).
Qed.

Lemma all_in_snoc c w a :
  all_in c w = true -> Re.in_class c a = true -> all_in c (w +:+ String a "") = true.
Proof.
  induction w as [|b w IH]; simpl.
  - intros _ ->. done.
  - intros [-> Hw]%andb_true_iff Ha. simpl. by apply IH.
Qed.

Lemma many_sound {R} c greedy (k : string -> string -> option R) s : forall taken r,
  all_in c taken = true ->
  Re.many (Re.in_class c) greedy k taken s = Some r ->
  exists w rest, all_in c w = true /\ k w rest = Some r /\ taken +:+ s = w +:+ rest.
Proof.
  induction s as [|a s IH]; intros taken r Htaken; simpl.
  - intros Hk. by exists taken, "".
  - destruct (Re.in_class c a) eqn:Ha; [|intros Hk; by exists taken, (String a s)].
    assert (forall r', Re.many (Re.in_class c) greedy k (taken +:+ String a "") s = Some r' ->
              exists w rest, all_in c w = true /\ k w rest = Some r' /\
                             taken +:+ String a s = w +:+ rest) as Hmore.
    { intros r' H. apply IH in H as (w & rest & Hw & Hk & Heq); [|by apply all_in_snoc].
      exists w, rest. split; [done|]. split; [done|].
      rewrite <- Heq. by rewrite app_assoc'. }
    destruct greedy.
    + destruct (Re.many _ _ _ _ s) as [r'|] eqn:Hm.
      * intros [= <-]. by apply Hmore.
      * intros Hk. by exists taken, (String a s).
    + destruct (k taken (String a s)) as [r'|] eqn:Hk.
      * intros [= <-]. by exists taken, (String a s).
      * apply Hmore.
Qed.

Lemma exec_sound pattern : forall groups s out,
  Re.exec pattern groups s = Some out ->
  exists found, out = groups ++ found /\ matches pattern s found.
Proof.
  induction pattern as [|atom pattern IH]; intros groups s out; simpl.
  { intros [= <-]. exists []. split; [by rewrite app_nil_r|constructor]. }
  destruct atom as [l|c nonempty greedy capture|].
  - destruct (strip_prefix l s) as [rest|] eqn:Hl; [|done].
    apply strip_prefix_Some in Hl as ->.
    intros (found & -> & Hm)%IH. exists found. split; [done|by constructor].
  - intros (w & rest & Hw & Hk & Heq)%many_sound; [|done].
    rewrite app_empty_l in Heq. subst s. cbv beta in Hk.
    destruct (nonempty && String.eqb w "") eqn:Hne; [done|].
    apply IH in Hk as (found & -> & Hm).
    exists (if capture then w :: found else found). split.
    + destruct capture; [by rewrite <- app_assoc|done].
    + constructor; [done| |done].
      by intros -> ->.
  - destruct (String.eqb_spec s "") as [->|Hs]; simpl.
    + intros (found & -> & Hm)%IH. exists found. split; [done|]. constructor; auto.
    + destruct (String.eqb_spec s Py.nl) as [->|]; [|done].
      intros (found & -> & Hm)%IH. exists found. split; [done|]. constructor; auto.
Qed.

Lemma search_sound pattern s : forall out,
  Re.search pattern s = Some out ->
  exists before rest, s = before +:+ rest /\ matches pattern rest out.
Proof.
  induction s as [|a s IH]; intros out; simpl.
  - destruct (Re.exec pattern [] "") as [found|] eqn:He; [|done].
    intros [= <-]. apply exec_sound in He as (found' & -> & Hm).
    by exists "", "".
  - destruct (Re.exec pattern [] (String a s)) as [found|] eqn:He.
    + intros [= <-]. apply exec_sound in He as (found' & -> & Hm).
      by exists "", (String a s).
    + intros (before & rest & -> & Hm)%IH. by exists (String a before), rest.
Qed.

Lemma all_in_Digit w : all_in Re.Digit w = all_digits w.
Proof. induction w as [|a w IH]; [done|]. simpl. by rewrite IH. Qed.

Lemma all_in_Dot w : all_in Re.Dot w = no_nl w.
Proof. induction w as [|a w IH]; [done|]. simpl. by rewrite IH. Qed.

(** X25: When the address of an image matches the pattern of the parser, the
    two parts that go into the name of the downloaded file are parts of
    the address: it holds a slash, a decimal number, a slash, the first
    part, a slash and the second part, and ends there or with a line feed;
    neither part is empty or holds a line feed. *)
Theorem image_file_name_parts (media_url : string) (groups : list string) :
  Re.search image_pattern media_url = Some groups ->
  exists before number first second last_,
    groups = [first; second] /\
    media_url = before +:+ "/" +:+ number +:+ "/" +:+ first +:+ "/" +:+ second +:+ last_ /\
    (last_ = "" \/ last_ = Py.nl) /\
    is_decimal number = true /\
    first <> "" /\ second <> "" /\ no_nl first = true /\ no_nl second = true.
Proof.
  intros (before & rest & -> & Hm)%search_sound. unfold image_pattern in Hm.
  apply matches_Lit_inv in Hm as (s1 & -> & Hm).
  apply matches_Many_inv in Hm as (number & s2 & g2 & -> & Hnumber & Hne & Hm & ->).
  apply matches_Lit_inv in Hm as (s3 & -> & Hm).
  apply matches_Many_inv in Hm as (first & s4 & g4 & -> & Hfirst & Hne1 & Hm & ->).
  apply matches_Lit_inv in Hm as (s5 & -> & Hm).
  apply matches_Many_inv in Hm as (second & last_ & g6 & -> & Hsecond & Hne2 & Hm & ->).
  apply matches_End_inv in Hm as (Hlast & Hm).
  apply matches_nil_inv in Hm as ->.
  exists before, number, first, second, last_.
  rewrite all_in_Digit in Hnumber. rewrite all_in_Dot in Hfirst, Hsecond.
  split; [done|]. split; [done|]. split; [done|].
  split.
  { unfold is_decimal. rewrite Hnumber, andb_true_r.
    apply negb_true_iff, String.eqb_neq. auto. }
  auto.
Qed.

Lemma image_file_name_parts_witness :
  exists before number first second last_,
    ["3344"; "abcd.jpg:large"] = [first; second] /\
    image_address =
      before +:+ "/" +:+ number +:+ "/" +:+ first +:+ "/" +:+ second +:+ last_ /\
    (last_ = "" \/ last_ = Py.nl) /\
    is_decimal number = true /\
    first <> "" /\ second <> "" /\ no_nl first = true /\ no_nl second = true.
Proof.
  apply (image_file_name_parts image_address ["3344"; "abcd.jpg:large"]).
  vm_compute. reflexivity.
Defined.
(** ** What a login sends, reads and writes *)

Section AuthenticateFacts.

Context {session : Type}.
Variable env : auth_env session.
Variable username password : string.

Definition credentials (authenticity_token : string) : list (string * string) :=
  [("session[username_or_email]", username); ("session[password]", password);
   ("authenticity_token", authenticity_token)].




(** A stored session that the remote side accepts. *)
Definition valid_stored_session (save_session : bool) (s : session) : Prop :=
  save_session = true /\ stored env = Pickled s /\ messages_status env s = Ok 200.


(** The session with which a login is made: a new one, except that with
    [save_session] set and no session file the session that the crawler
    already has is used again. *)
Definition login_session (_session : option session) (save_session : bool) : session :=
  if save_session
  then match stored env, _session with
       | NoFile, Some s => s
       | _, _ => new_session env
       end
  else new_session env.

(** X27: When a call returns, the crawler has a session, and one of the two
    tests of the code has passed on it.  Either it is the session of the
    session file, [save_session] is set and the request for the messages
    page was answered with status 200: nothing else is done.  Or it is the
    session of the login, the login page had a token, and after the post of
    the user name, the password and the first token the cookies of the
    session hold [auth_token]; with [save_session] the session has then
    been written to the session file. *)
Theorem session_tested_on_return (_session : option session) (save_session : bool) :
  let o := authenticate env _session username password save_session in
  ended o = None ->
  (exists s,
     session_after o = Some s /\
     valid_stored_session save_session s /\
     actions o = [ReadSessionFile; Get messages_url s]) \/
  (exists token tokens,
     let s := login_session _session save_session in
     session_after o = Some s /\
     (~ exists s0, valid_stored_session save_session s0) /\
     login_tokens env s = Ok (token :: tokens) /\
     post_credentials env s (credentials token) = Ok true /\
     (save_session = true -> dump_session env s = Ok tt)).
Proof.
  assert (forall _session' save_session' done,
    ended (login env _session' username password save_session' done) = None ->
    exists token tokens,
      let s := match _session' with
               | Some s => if negb save_session' then new_session env else s
               | None => new_session env
               end in
      session_after (login env _session' username password save_session' done) = Some s /\
      login_tokens env s = Ok (token :: tokens) /\
      post_credentials env s (credentials token) = Ok true /\
      (save_session' = true -> dump_session env s = Ok tt)) as Hlogin.
  { intros _session' save_session' done. unfold login.
    set (s := match _session' with
              | Some s => if negb save_session' then new_session env else s
              | None => new_session env
              end).
    destruct (login_tokens env s) as [[|token tokens]|e]; simpl; [done| |done].
    fold (credentials token).
    destruct (post_credentials env s (credentials token)) as [[]|e] eqn:Hpost; [|done..].
    destruct save_session'; simpl.
    - destruct (dump_session env s) as [[]|e]; [|done].
      intros _. by exists token, tokens.
    - intros _. by exists token, tokens. }
  cbv zeta. unfold authenticate, valid_stored_session, login_session.
  destruct save_session.
  - destruct (stored env) as [|e|s0] eqn:Hstored.
    + intros Hend. right.
      destruct (Hlogin _ _ _ Hend) as (token & tokens & Hs & Htok & Hpost & Hdump).
      exists token, tokens. simpl in *.
      destruct _session as [s|]; simpl in *;
        (split; [done|]); (split; [intros (s0 & _ & ? & _); congruence|done]).
    + done.
    + destruct (messages_status env s0) as [status_code|e] eqn:Hstatus; [|done].
      destruct (status_code =? 200) eqn:H200.
      * apply Z.eqb_eq in H200 as ->. intros _. left. by exists s0.
      * intros Hend. right. apply Z.eqb_neq in H200.
        destruct (Hlogin _ _ _ Hend) as (token & tokens & Hs & Htok & Hpost & Hdump).
        exists token, tokens. simpl in *.
        split; [done|]. split; [|done].
        intros (s1 & _ & ? & ?). congruence.
  - intros Hend. right.
    destruct (Hlogin _ _ _ Hend) as (token & tokens & Hs & Htok & Hpost & Hdump).
    exists token, tokens. simpl in *.
    assert (match _session with Some _ => new_session env | None => new_session env end
            = new_session env) as Heq by (by destruct _session).
    rewrite Heq in *.
    split; [done|]. split; [by intros (s0 & ? & _)|done].
Qed.

End AuthenticateFacts.

(** No session file, and a crawler that has the session 5 from an earlier
    call; sessions are numbered.  The login page has a token and the
    cookies of every session hold [auth_token] after the post. *)
Definition env_without_session_file : auth_env nat :=
  {| stored := NoFile;
     messages_status := fun _ => Ok 403;
     new_session := 0%nat;
     login_tokens := fun _ => Ok ["token"];
     post_credentials := fun _ _ => Ok true;
     dump_session := fun _ => Ok tt |}.

Lemma session_tested_on_return_witness :
  (exists s,
     session_after (authenticate env_without_session_file (Some 5%nat) "user" "secret" true)
       = Some s /\
     valid_stored_session env_without_session_file true s /\
     actions (authenticate env_without_session_file (Some 5%nat) "user" "secret" true)
       = [ReadSessionFile; Get messages_url s]) \/
  (exists token tokens,
     session_after (authenticate env_without_session_file (Some 5%nat) "user" "secret" true)
       = Some 5%nat /\
     (~ exists s0, valid_stored_session env_without_session_file true s0) /\
     login_tokens env_without_session_file 5%nat = Ok (token :: tokens) /\
     post_credentials env_without_session_file 5%nat
       (credentials "user" "secret" token) = Ok true /\
     (true = true -> dump_session env_without_session_file 5%nat = Ok tt)).
Proof.
  apply (session_tested_on_return env_without_session_file "user" "secret"
           (Some 5%nat) true).
  reflexivity.
Defined.

